(** * Student grading application: a shallow embedding of [sga.py]

    The program keeps one global dictionary [student_data], mapping a student
    name to a dictionary from subject name to a grade (a Python [float]).
    It is modelled here by explicit state passing: every function of the
    script takes the current dictionary and returns the new one together with
    the lines it printed.

    Python values are modelled as follows.
    - [str]: [string]; a character is a code point below 256.
    - [float]: IEEE 754 binary64, as [spec_float] with precision 53 and
      maximal exponent 1024, with the operations of [SpecFloat].
    - [dict]: an association list in insertion order, keys unique.
    - the file system: a partial map from paths to file contents.

    The builtins the script calls are modelled from their documented
    behaviour: [float] on a string ([py_float]), [round] ([py_round]), [sum]
    ([py_sum]), [repr] of a float ([py_repr]), [json.load] ([json_loads])
    and [json.dump] with [indent=4] ([json_dumps]).

    Outside the model: a data file whose document is not an object of
    objects of floats (an integer grade, say), or that escapes a character
    above code point 255; errors of the operating system; the translation of
    line ends by text-mode files. *)

From Stdlib Require Import ZArith QArith Qpower Qabs Lqa List String Ascii Bool Lia.
From Stdlib Require Import Floats.SpecFloat.
Import ListNotations.

Close Scope Q_scope.

Local Open Scope list_scope.
Local Open Scope string_scope.

(** ** Python floats *)

Definition float := spec_float.

Definition prec : Z := 53.
Definition emax : Z := 1024.

Definition fadd : float -> float -> float := SFadd prec emax.
Definition fsub : float -> float -> float := SFsub prec emax.
Definition fdiv : float -> float -> float := SFdiv prec emax.
Definition fabs : float -> float := SFabs.
Definition fleb : float -> float -> bool := SFleb.
Definition feqb : float -> float -> bool := SFeqb.

(** Conversion of a Python [int] to [float], to nearest, ties to even. *)
Definition float_of_Z (n : Z) : float := binary_normalize prec emax n 0 false.

Definition is_nan (x : float) : bool :=
  match x with S754_nan => true | _ => false end.

Definition is_finite (x : float) : bool :=
  match x with S754_zero _ | S754_finite _ _ _ => true | _ => false end.

(** The double nearest to [(-1)^neg * m * 10^e10], ties to even: what
    [float] and [strtod] compute from a decimal numeral.  The two guards
    only avoid building astronomically large powers of ten: a numeral with
    [nd] digits times [10^e10] is below [10^(e10+nd)], and it is at least
    [10^e10] when [m] is positive. *)
Definition float_of_decimal (neg : bool) (m : Z) (nd : Z) (e10 : Z) : float :=
  match m with
  | Zpos p =>
      if (400 <? e10)%Z then S754_infinity neg
      else if (e10 + nd <? -400)%Z then S754_zero neg
      else if (0 <=? e10)%Z then binary_normalize prec emax (if neg then - (m * 10 ^ e10) else m * 10 ^ e10) 0 neg
      else match (10 ^ (- e10))%Z with
           | Zpos d => fdiv (S754_finite neg p 0) (S754_finite false d 0)
           | _ => S754_nan
           end
  | _ => S754_zero neg
  end.

Definition pos_zero : float := S754_zero false.

(** *** The builtin [float] applied to a [str]

    Grammar (Python language reference, [float]): optional surrounding
    whitespace, an optional sign, then [inf], [infinity] or [nan] in any
    letter case, or a decimal numeral with optional fraction and exponent, in
    which single underscores may separate digits.  [None] is [ValueError]. *)

Definition is_space (c : ascii) : bool :=
  let n := N_of_ascii c in
  ((9 <=? n) && (n <=? 13) || (n =? 32) || (n =? 133) || (n =? 160))%N.

Definition is_digit (c : ascii) : bool :=
  let n := N_of_ascii c in ((48 <=? n) && (n <=? 57))%N.

Definition digit_val (c : ascii) : Z := Z.of_N (N_of_ascii c) - 48.

Definition lower (c : ascii) : ascii :=
  let n := N_of_ascii c in
  if ((65 <=? n) && (n <=? 90))%N then ascii_of_N (n + 32) else c.

Fixpoint lower_str (s : string) : string :=
  match s with
  | EmptyString => EmptyString
  | String c r => String (lower c) (lower_str r)
  end.

Fixpoint lstrip (s : string) : string :=
  match s with
  | String c r => if is_space c then lstrip r else s
  | EmptyString => EmptyString
  end.

Fixpoint rstrip (s : string) : string :=
  match s with
  | String c r =>
      match rstrip r with
      | EmptyString => if is_space c then EmptyString else String c EmptyString
      | r' => String c r'
      end
  | EmptyString => EmptyString
  end.

Definition strip (s : string) : string := rstrip (lstrip s).

(** [digit (["_"] digit)*], continuing a numeral whose first digit has been
    read: the value so far, the number of digits so far, the rest. *)
Fixpoint digitpart_tail (s : string) (acc nd : Z) : Z * Z * string :=
  match s with
  | String c r =>
      if is_digit c then digitpart_tail r (acc * 10 + digit_val c) (nd + 1)
      else if Ascii.eqb c "_" then
        match r with
        | String d r' =>
            if is_digit d then digitpart_tail r' (acc * 10 + digit_val d) (nd + 1)
            else (acc, nd, s)
        | EmptyString => (acc, nd, s)
        end
      else (acc, nd, s)
  | EmptyString => (acc, nd, s)
  end.

Definition digitpart (s : string) (acc nd : Z) : option (Z * Z * string) :=
  match s with
  | String c r =>
      if is_digit c then Some (digitpart_tail r (acc * 10 + digit_val c) (nd + 1))
      else None
  | EmptyString => None
  end.

Definition read_sign (s : string) : bool * string :=
  match s with
  | String "-" r => (true, r)
  | String "+" r => (false, r)
  | _ => (false, s)
  end.

(** [[digitpart] "." digitpart | digitpart ["."]]: the digits read as one
    integer, how many there are, how many of them follow the point, the
    rest. *)
Definition read_number (s : string) : option (Z * Z * Z * string) :=
  match digitpart s 0 0 with
  | Some (m, nd, r) =>
      match r with
      | String "." r1 =>
          match digitpart r1 m nd with
          | Some (m', nd', r2) => Some (m', nd', nd' - nd, r2)
          | None => Some (m, nd, 0, r1)
          end
      | _ => Some (m, nd, 0, r)
      end
  | None =>
      match s with
      | String "." r1 =>
          match digitpart r1 0 0 with
          | Some (m, nd, r2) => Some (m, nd, nd, r2)
          | None => None
          end
      | _ => None
      end
  end%Z.

(** [("e" | "E") [sign] digitpart] up to the end of the string, or nothing. *)
Definition read_exponent (s : string) : option Z :=
  match s with
  | EmptyString => Some 0
  | String c r =>
      if Ascii.eqb (lower c) "e" then
        let (neg, r1) := read_sign r in
        match digitpart r1 0 0 with
        | Some (v, _, EmptyString) => Some (if neg then - v else v)
        | _ => None
        end
      else None
  end%Z.

Definition py_float (s : string) : option float :=
  let (neg, r) := read_sign (strip s) in
  let l := lower_str r in
  if (l =? "inf") || (l =? "infinity") then Some (S754_infinity neg)
  else if l =? "nan" then Some S754_nan
  else
    match read_number r with
    | Some (m, nd, nfrac, r') =>
        match read_exponent r' with
        | Some e => Some (float_of_decimal neg m nd (e - nfrac))
        | None => None
        end
    | None => None
    end.

(** *** The builtin [round(x, ndigits)] on a [float], for [ndigits >= 0]

    CPython prints [x] correctly rounded to [ndigits] places after the point
    (the exact binary value of [x] is rounded, halfway cases to the even
    neighbour) and reads the numeral back as a double.  Infinities and NaN
    are returned as they are. *)

(** Nearest integer to [a / b], ties to even, for [0 <= a] and [0 < b]. *)
Definition round_half_even (a b : Z) : Z :=
  let q := (a / b)%Z in
  match (2 * (a mod b) ?= b)%Z with
  | Lt => q
  | Gt => (q + 1)%Z
  | Eq => if Z.even q then q else (q + 1)%Z
  end.

Definition py_round (x : float) (ndigits : N) : float :=
  match x with
  | S754_finite s m e =>
      let scale := (10 ^ Z.of_N ndigits)%Z in
      let q := if (0 <=? e)%Z then (Zpos m * 2 ^ e * scale)%Z
               else round_half_even (Zpos m * scale) (2 ^ (- e)) in
      float_of_decimal s q (Z.log2 q + 1) (- Z.of_N ndigits)
  | _ => x
  end.

(** *** The builtin [sum] over floats, with the default start [0]

    The first item is added to the integer [0], which converts it to [0.0].
    From there CPython up to 3.11 adds the items from left to right; CPython
    3.12 and later keep a compensation term (Neumaier's variant of Kahan
    summation) and add it at the end.  On the empty list [sum] returns the
    integer [0], rendered here as [+0.0]. *)
Inductive sum_algorithm := LeftToRight | Compensated.

Fixpoint sum_compensated (total c : float) (xs : list float) : float :=
  match xs with
  | [] => if negb (feqb c pos_zero) && is_finite c then fadd total c else total
  | x :: r =>
      let t := fadd total x in
      let c' := if fleb (fabs x) (fabs total)
                then fadd c (fadd (fsub total t) x)
                else fadd c (fadd (fsub x t) total) in
      sum_compensated t c' r
  end.

Definition py_sum (alg : sum_algorithm) (xs : list float) : float :=
  match xs with
  | [] => pos_zero
  | x :: r =>
      let first := fadd pos_zero x in
      match alg with
      | LeftToRight => fold_left fadd r first
      | Compensated => sum_compensated first pos_zero r
      end
  end.

(** *** [repr] of a float

    [float.__repr__] prints the shortest decimal numeral that reads back as
    the same double and, among those, the one nearest to it; it switches to
    exponent notation when the decimal point would fall more than 16 places
    after or 4 or more places before the first digit. *)

Fixpoint digits_of (fuel : nat) (n : Z) (acc : string) : string :=
  match fuel with
  | O => acc
  | S fuel' =>
      let acc' := String (ascii_of_N (48 + Z.to_N (n mod 10))) acc in
      if (n <? 10)%Z then acc' else digits_of fuel' (n / 10) acc'
  end.

(** The decimal numeral of a natural number. *)
Definition decimal (n : Z) : string :=
  digits_of (S (Z.to_nat (Z.log2 n))) n EmptyString.

Definition strlen (s : string) : Z := Z.of_nat (String.length s).

(** Structural equality of floats (it tells [+0.0] from [-0.0]). *)
Definition same_float (x y : float) : bool :=
  match x, y with
  | S754_zero a, S754_zero b => Bool.eqb a b
  | S754_infinity a, S754_infinity b => Bool.eqb a b
  | S754_nan, S754_nan => true
  | S754_finite a m e, S754_finite b m' e' =>
      Bool.eqb a b && Pos.eqb m m' && Z.eqb e e'
  | _, _ => false
  end.

(** Search, by increasing number [n] of digits, for an [n]-digit numeral
    [c * 10^p] that reads back as [x = num / den]; [k] is the decimal
    exponent of [x], so that [10^k <= x < 10^(k+1)]. *)
Fixpoint shortest_digits (fuel : nat) (x : float) (num den k n : Z) : Z * Z :=
  let p := (k - n + 1)%Z in
  let a := if (0 <=? p)%Z then num else (num * 10 ^ (- p))%Z in
  let b := if (0 <=? p)%Z then (den * 10 ^ p)%Z else den in
  let lo := (a / b)%Z in
  let hi := (lo + 1)%Z in
  let lo_ok := same_float (float_of_decimal false lo (n + 1) p) x in
  let hi_ok := same_float (float_of_decimal false hi (n + 1) p) x in
  let nearest := match (2 * (a mod b) ?= b)%Z with
                 | Lt => lo
                 | Gt => hi
                 | Eq => if Z.even lo then lo else hi
                 end in
  match fuel with
  | O => (nearest, p)
  | S fuel' =>
      if lo_ok && hi_ok then (nearest, p)
      else if lo_ok then (lo, p)
      else if hi_ok then (hi, p)
      else shortest_digits fuel' x num den k (n + 1)
  end.

Fixpoint strip_zeros (fuel : nat) (c p : Z) : Z * Z :=
  match fuel with
  | O => (c, p)
  | S fuel' =>
      if ((c mod 10 =? 0) && (0 <? c))%Z then strip_zeros fuel' (c / 10) (p + 1)
      else (c, p)
  end.

Fixpoint zeros (n : nat) : string :=
  match n with
  | O => EmptyString
  | S n' => String "0" (zeros n')
  end.

Fixpoint insert_point (s : string) (at_ : nat) : string :=
  match at_, s with
  | O, _ => String "." s
  | S n, String c r => String c (insert_point r n)
  | S _, EmptyString => EmptyString
  end.

(** The digits [ds], read with the decimal point [decpt] places after
    their start. *)
Definition format_repr (ds : string) (decpt : Z) : string :=
  if ((decpt <=? -4) || (16 <? decpt))%Z then
    let e := (decpt - 1)%Z in
    let es := decimal (Z.abs e) in
    match ds with
    | String d EmptyString => String d EmptyString
    | String d r => String d (String "." r)
    | EmptyString => EmptyString
    end ++ "e" ++ (if (e <? 0)%Z then "-" else "+")
        ++ (if (Z.abs e <? 10)%Z then "0" else EmptyString) ++ es
  else if (decpt <=? 0)%Z then "0." ++ zeros (Z.to_nat (- decpt)) ++ ds
  else if (decpt <? strlen ds)%Z then insert_point ds (Z.to_nat decpt)
  else ds ++ zeros (Z.to_nat (decpt - strlen ds)) ++ ".0".

Definition py_repr (x : float) : string :=
  match x with
  | S754_nan => "nan"
  | S754_infinity s => if s then "-inf" else "inf"
  | S754_zero s => if s then "-0.0" else "0.0"
  | S754_finite s m e =>
      let num := if (0 <=? e)%Z then (Zpos m * 2 ^ e)%Z else Zpos m in
      let den := if (0 <=? e)%Z then 1%Z else (2 ^ (- e))%Z in
      let k := if (den <=? num)%Z then (strlen (decimal (num / den)) - 1)%Z
               else (- strlen (decimal ((den - 1) / num)))%Z in
      let (c, p) := shortest_digits 16 (S754_finite false m e) num den k 1 in
      let (c, p) := strip_zeros 17 c p in
      let ds := decimal c in
      (if s then "-" else EmptyString) ++ format_repr ds (strlen ds + p)
  end.

(** ** Python dictionaries

    A [dict] keeps its items in insertion order and its keys are unique.
    Assigning to a key that is present replaces the value in place; assigning
    to a new key appends an item; [del] removes the item. *)
Section Dict.
Context {V : Type}.

Definition dict : Type := list (string * V).

Fixpoint dict_get (d : dict) (k : string) : option V :=
  match d with
  | [] => None
  | (k', v) :: r => if k' =? k then Some v else dict_get r k
  end.

(** [k in d] *)
Definition dict_mem (d : dict) (k : string) : bool :=
  match dict_get d k with Some _ => true | None => false end.

(** [d[k] = v] *)
Fixpoint dict_set (d : dict) (k : string) (v : V) : dict :=
  match d with
  | [] => [(k, v)]
  | (k', v') :: r =>
      if k' =? k then (k', v) :: r else (k', v') :: dict_set r k v
  end.

(** [del d[k]], for a key that is present. *)
Fixpoint dict_del (d : dict) (k : string) : dict :=
  match d with
  | [] => []
  | (k', v') :: r => if k' =? k then r else (k', v') :: dict_del r k
  end.

Definition keys (d : dict) : list string := map fst d.
Definition values (d : dict) : list V := map snd d.

(** The keys of a dictionary are pairwise distinct. *)
Definition wf_dict (d : dict) : Prop := NoDup (keys d).
End Dict.

Arguments dict V : clear implicits.

(** The value of [student_data]: student name to (subject to grade). *)
Definition Store : Type := dict (dict float).

Definition wf_store (st : Store) : Prop :=
  wf_dict st /\ Forall (fun item => wf_dict (snd item)) st.

(** ** The [json] module *)

#[local] Unset Elimination Schemes.
Inductive json :=
| JNull
| JBool (b : bool)
| JInt (n : Z)
| JFloat (x : float)
| JStr (s : string)
| JArr (items : list json)
| JObj (members : dict json).
#[local] Set Elimination Schemes.

(** Result of decoding.  [DecodeError] is [json.JSONDecodeError].
    [Unsupported] marks a text outside this model: a [\uXXXX] escape for a
    code point above 255.  (It is also the answer on exhausted fuel, which
    [json_loads] never reaches: two units of fuel per character suffice.) *)
Inductive decoding (A : Type) :=
| Decoded (a : A)
| DecodeError
| Unsupported.

Arguments Decoded {A} a.
Arguments DecodeError {A}.
Arguments Unsupported {A}.

Definition bind {A B : Type} (m : decoding A) (f : A -> decoding B) : decoding B :=
  match m with
  | Decoded a => f a
  | DecodeError => DecodeError
  | Unsupported => Unsupported
  end.

Notation "' pat <- m ;; k" :=
  (bind m (fun x => match x with pat => k end))
  (at level 61, pat pattern, m at next level, right associativity).

Definition newline : ascii := ascii_of_nat 10.
Definition dquote : ascii := ascii_of_nat 34.
Definition nl : string := String newline EmptyString.

(** [WHITESPACE = [ \t\n\r]*] *)
Definition is_json_ws (c : ascii) : bool :=
  let n := N_of_ascii c in ((n =? 32) || (n =? 9) || (n =? 10) || (n =? 13))%N.

Fixpoint skip_ws (s : string) : string :=
  match s with
  | String c r => if is_json_ws c then skip_ws r else s
  | EmptyString => EmptyString
  end.

Definition hex_val (c : ascii) : option N :=
  let n := N_of_ascii c in
  if ((48 <=? n) && (n <=? 57))%N then Some (n - 48)%N
  else if ((97 <=? n) && (n <=? 102))%N then Some (n - 87)%N
  else if ((65 <=? n) && (n <=? 70))%N then Some (n - 55)%N
  else None.

Definition hex4 (a b c d : ascii) : option N :=
  match hex_val a, hex_val b, hex_val c, hex_val d with
  | Some x, Some y, Some z, Some w => Some (((x * 16 + y) * 16 + z) * 16 + w)%N
  | _, _, _, _ => None
  end.

(** [BACKSLASH]: the one-character escapes. *)
Definition simple_escape (c : ascii) : option ascii :=
  if Ascii.eqb c dquote then Some dquote
  else if Ascii.eqb c "\" then Some "\"%char
  else if Ascii.eqb c "/" then Some "/"%char
  else if Ascii.eqb c "b" then Some (ascii_of_nat 8)
  else if Ascii.eqb c "f" then Some (ascii_of_nat 12)
  else if Ascii.eqb c "n" then Some (ascii_of_nat 10)
  else if Ascii.eqb c "r" then Some (ascii_of_nat 13)
  else if Ascii.eqb c "t" then Some (ascii_of_nat 9)
  else None.

Definition cons_char (c : ascii) (m : decoding (string * string)) : decoding (string * string) :=
  ' (s, r) <- m ;; Decoded (String c s, r).

(** [scanstring] in strict mode, from just after the opening quote: the
    decoded string and the text after the closing quote. *)
Fixpoint scanstring (s : string) : decoding (string * string) :=
  match s with
  | EmptyString => DecodeError
  | String c r =>
      if Ascii.eqb c dquote then Decoded (EmptyString, r)
      else if Ascii.eqb c "\" then
        match r with
        | EmptyString => DecodeError
        | String e r1 =>
            match simple_escape e with
            | Some ch => cons_char ch (scanstring r1)
            | None =>
                if Ascii.eqb e "u" then
                  match r1 with
                  | String h1 (String h2 (String h3 (String h4 r2))) =>
                      match hex4 h1 h2 h3 h4 with
                      | Some n =>
                          if (n <? 256)%N then cons_char (ascii_of_N n) (scanstring r2)
                          else Unsupported
                      | None => DecodeError
                      end
                  | _ => DecodeError
                  end
                else DecodeError
            end
        end
      else if (N_of_ascii c <? 32)%N then DecodeError
      else cons_char c (scanstring r)
  end.

(** [NUMBER_RE], matched at the start of the text: an integer part (an
    optional minus sign, then a single zero or a nonzero digit followed by
    any digits), an optional fraction (a point and at least one digit) and an
    optional exponent (e or E, an optional sign, at least one digit). *)
Fixpoint take_digits (s : string) : string * string :=
  match s with
  | String c r =>
      if is_digit c then let (ds, r') := take_digits r in (String c ds, r')
      else (EmptyString, s)
  | EmptyString => (EmptyString, EmptyString)
  end.

Definition match_integer (s : string) : option (string * string) :=
  let (sign, r) := match s with
                   | String "-" r => ("-", r)
                   | _ => (EmptyString, s)
                   end in
  match r with
  | String c r1 =>
      if Ascii.eqb c "0" then Some (sign ++ "0", r1)
      else if is_digit c then
        let (ds, r2) := take_digits r1 in Some (sign ++ String c ds, r2)
      else None
  | EmptyString => None
  end.

Definition match_frac (s : string) : string * string :=
  match s with
  | String "." r =>
      match take_digits r with
      | (EmptyString, _) => (EmptyString, s)
      | (ds, r') => (String "." ds, r')
      end
  | _ => (EmptyString, s)
  end.

Definition match_exp (s : string) : string * string :=
  match s with
  | String e r =>
      if Ascii.eqb (lower e) "e" then
        let (sign, r1) := match r with
                          | String "-" r1 => ("-", r1)
                          | String "+" r1 => ("+", r1)
                          | _ => (EmptyString, r)
                          end in
        match take_digits r1 with
        | (EmptyString, _) => (EmptyString, s)
        | (ds, r') => (String e (sign ++ ds), r')
        end
      else (EmptyString, s)
  | EmptyString => (EmptyString, s)
  end.

(** Decimal numeral without sign to integer ([int] on the digits). *)
Fixpoint int_of_digits (s : string) (acc : Z) : Z :=
  match s with
  | String c r => int_of_digits r (acc * 10 + digit_val c)
  | EmptyString => acc
  end.

Definition py_int (s : string) : Z :=
  match s with
  | String "-" r => - int_of_digits r 0
  | _ => int_of_digits s 0
  end.

Fixpoint strip_prefix (p s : string) : option string :=
  match p, s with
  | EmptyString, _ => Some s
  | String a p', String b s' => if Ascii.eqb a b then strip_prefix p' s' else None
  | _, EmptyString => None
  end.

(** The number and constant cases of the scanner. *)
Definition scan_number (s : string) : decoding (json * string) :=
  match match_integer s with
  | Some (integer, r) =>
      let (frac, r1) := match_frac r in
      let (exp, r2) := match_exp r1 in
      match frac, exp with
      | EmptyString, EmptyString => Decoded (JInt (py_int integer), r2)
      | _, _ =>
          match py_float (integer ++ frac ++ exp) with
          | Some x => Decoded (JFloat x, r2)
          | None => DecodeError
          end
      end
  | None =>
      match strip_prefix "NaN" s, strip_prefix "Infinity" s, strip_prefix "-Infinity" s with
      | Some r, _, _ => Decoded (JFloat S754_nan, r)
      | _, Some r, _ => Decoded (JFloat (S754_infinity false), r)
      | _, _, Some r => Decoded (JFloat (S754_infinity true), r)
      | _, _, _ => DecodeError
      end
  end.

(** [scan_once], [JSONObject] and [JSONArray].  [parse_members] starts just
    after the opening quote of a key, [parse_items] at a value; both carry
    the items read so far.  An object becomes a [dict], so a repeated key
    keeps its first place and takes the last value. *)
Fixpoint parse_value (fuel : nat) (s : string) : decoding (json * string) :=
  match fuel with
  | O => Unsupported
  | S fuel' =>
      match s with
      | EmptyString => DecodeError
      | String c r =>
          if Ascii.eqb c dquote then
            ' (str, r') <- scanstring r ;; Decoded (JStr str, r')
          else if Ascii.eqb c "{" then
            match skip_ws r with
            | String c1 r1 =>
                if Ascii.eqb c1 "}" then Decoded (JObj [], r1)
                else if Ascii.eqb c1 dquote then parse_members fuel' r1 []
                else DecodeError
            | EmptyString => DecodeError
            end
          else if Ascii.eqb c "[" then
            match skip_ws r with
            | String "]" r1 => Decoded (JArr [], r1)
            | r1 => parse_items fuel' r1 []
            end
          else
            match strip_prefix "null" s, strip_prefix "true" s, strip_prefix "false" s with
            | Some r, _, _ => Decoded (JNull, r)
            | _, Some r, _ => Decoded (JBool true, r)
            | _, _, Some r => Decoded (JBool false, r)
            | _, _, _ => scan_number s
            end
      end
  end
with parse_members (fuel : nat) (s : string) (acc : dict json) : decoding (json * string) :=
  match fuel with
  | O => Unsupported
  | S fuel' =>
      ' (key, r) <- scanstring s ;;
      match skip_ws r with
      | String ":" r1 =>
          ' (v, r2) <- parse_value fuel' (skip_ws r1) ;;
          let acc' := dict_set acc key v in
          match skip_ws r2 with
          | String "}" r3 => Decoded (JObj acc', r3)
          | String "," r3 =>
              match skip_ws r3 with
              | String c4 r4 =>
                  if Ascii.eqb c4 dquote then parse_members fuel' r4 acc'
                  else DecodeError
              | EmptyString => DecodeError
              end
          | _ => DecodeError
          end
      | _ => DecodeError
      end
  end
with parse_items (fuel : nat) (s : string) (acc : list json) : decoding (json * string) :=
  match fuel with
  | O => Unsupported
  | S fuel' =>
      ' (v, r) <- parse_value fuel' s ;;
      let acc' := (acc ++ [v])%list in
      match skip_ws r with
      | String "]" r1 => Decoded (JArr acc', r1)
      | String "," r1 => parse_items fuel' (skip_ws r1) acc'
      | _ => DecodeError
      end
  end.

(** [json.loads]: one value, surrounded by optional whitespace. *)
Definition json_loads (s : string) : decoding json :=
  ' (v, r) <- parse_value (2 * String.length s + 2) (skip_ws s) ;;
  match skip_ws r with
  | EmptyString => Decoded v
  | _ => DecodeError
  end.

(** [json.dump(obj, f, indent=4)] on a dictionary of dictionaries of floats,
    with the default [ensure_ascii=True] and [allow_nan=True]. *)
Definition hex_digit (n : N) : ascii :=
  if (n <? 10)%N then ascii_of_N (48 + n) else ascii_of_N (87 + n).

(** [ESCAPE_ASCII] and [ESCAPE_DCT]: everything but the printable ASCII
    characters other than the quote and the backslash is escaped. *)
Definition encode_char (c : ascii) : string :=
  let n := N_of_ascii c in
  if (n =? 34)%N then String "\" (String dquote EmptyString)
  else if (n =? 92)%N then "\\"
  else if (n =? 8)%N then "\b"
  else if (n =? 12)%N then "\f"
  else if (n =? 10)%N then "\n"
  else if (n =? 13)%N then "\r"
  else if (n =? 9)%N then "\t"
  else if ((n <? 32) || (126 <? n))%N then
    String "\" (String "u" (String "0" (String "0"
      (String (hex_digit (n / 16)) (String (hex_digit (n mod 16)) EmptyString)))))
  else String c EmptyString.

Fixpoint encode_chars (s : string) : string :=
  match s with
  | EmptyString => EmptyString
  | String c r => encode_char c ++ encode_chars r
  end.

Definition encode_basestring_ascii (s : string) : string :=
  String dquote (encode_chars s ++ String dquote EmptyString).

Fixpoint spaces (n : nat) : string :=
  match n with
  | O => EmptyString
  | S n' => String " " (spaces n')
  end.

(** ['\n' + _indent * _current_indent_level] *)
Definition newline_indent (level : nat) : string :=
  String newline (spaces (4 * level)).

Section Encoder.
(** [float_repr] stands for [float.__repr__] on a finite float; [py_repr]
    is a model of it.  The encoder, and the script below, are written for
    any such function, so what is proved of them holds whatever digits
    [repr] prints. *)
Variable float_repr : float -> string.

(** [floatstr] *)
Definition floatstr (x : float) : string :=
  match x with
  | S754_nan => "NaN"
  | S754_infinity false => "Infinity"
  | S754_infinity true => "-Infinity"
  | _ => float_repr x
  end.

(** [_iterencode_dict], entered at indentation [level]. *)
Fixpoint encode_items {V : Type} (encode_value : V -> string) (sep : string)
    (d : dict V) : string :=
  match d with
  | [] => EmptyString
  | (k, v) :: r =>
      encode_basestring_ascii k ++ ": " ++ encode_value v ++
      match r with
      | [] => EmptyString
      | _ => sep ++ encode_items encode_value sep r
      end
  end.

Definition encode_dict {V : Type} (encode_value : V -> string) (level : nat)
    (d : dict V) : string :=
  match d with
  | [] => "{}"
  | _ =>
      "{" ++ newline_indent (S level) ++
      encode_items encode_value ("," ++ newline_indent (S level)) d ++
      newline_indent level ++ "}"
  end.

Definition json_dumps (st : Store) : string :=
  encode_dict (encode_dict floatstr 1) 0 st.
End Encoder.

(** The decoded document as a value of [student_data]: an object whose
    members are objects whose members are floats.  Any other document is
    outside this model ([None]). *)
Fixpoint grades_of_json (ms : dict json) : option (dict float) :=
  match ms with
  | [] => Some []
  | (k, JFloat x) :: r =>
      match grades_of_json r with
      | Some gs => Some ((k, x) :: gs)
      | None => None
      end
  | _ => None
  end.

Fixpoint students_of_json (ms : dict json) : option Store :=
  match ms with
  | [] => Some []
  | (k, JObj gm) :: r =>
      match grades_of_json gm, students_of_json r with
      | Some gs, Some st => Some ((k, gs) :: st)
      | _, _ => None
      end
  | _ => None
  end.

Definition store_of_json (j : json) : option Store :=
  match j with
  | JObj ms => students_of_json ms
  | _ => None
  end.

(** ** The script [sga.py] *)

Definition FILE_NAME : string := "student_grades.json".

(** The files the script can see: path to contents. *)
Definition filesystem : Type := string -> option string.

(** [open(path, 'w')] followed by writing [text] and closing. *)
Definition write_file (fs : filesystem) (path text : string) : filesystem :=
  fun p => if p =? path then Some text else fs p.

(** What [calculate_average_grade] and [calculate_class_subject_average]
    return: the string ["N/A"] or a float. *)
Inductive pyvalue :=
| PStr (s : string)
| PFloat (x : float).

Section Program.
(** [float_repr x] is [repr(x)] for a finite float [x]; see [Encoder]. *)
Variable float_repr : float -> string.
(** Which summation the interpreter's [sum] performs. *)
Variable sum_alg : sum_algorithm.

(** [str(x)] for a float *)
Definition str_float (x : float) : string :=
  match x with
  | S754_nan => "nan"
  | S754_infinity false => "inf"
  | S754_infinity true => "-inf"
  | _ => float_repr x
  end.

Definition str_value (v : pyvalue) : string :=
  match v with
  | PStr s => s
  | PFloat x => str_float x
  end.

(** [load_data]: the new value of [student_data] and the line printed.
    [None] when the file holds a JSON document that this model cannot
    hold in a [Store]. *)
Definition load_data (fs : filesystem) (student_data : Store)
    : option (Store * list string) :=
  match fs FILE_NAME with
  | Some text =>
      match json_loads text with
      | Decoded j =>
          match store_of_json j with
          | Some st =>
              Some (st, ["Data loaded successfully from " ++ FILE_NAME ++ "."])
          | None => None
          end
      | DecodeError =>
          Some ([], ["Warning: Could not decode data file. Starting with empty records."])
      | Unsupported => None
      end
  | None =>
      Some (student_data,
            ["No existing data file (" ++ FILE_NAME ++ ") found. Starting with empty records."])
  end.

Definition save_data (student_data : Store) (fs : filesystem)
    : filesystem * list string :=
  (write_file fs FILE_NAME (json_dumps float_repr student_data),
   ["Data saved successfully to " ++ FILE_NAME ++ "."]).

Definition add_student (student_data : Store) (name : string)
    : Store * list string :=
  if dict_mem student_data name then
    (student_data, ["Error: " ++ name ++ " already exists."])
  else
    (dict_set student_data name [], ["Added new student: " ++ name]).

(** [student_data[name][subject] = grade], where [name] is present. *)
Definition set_grade (student_data : Store) (name subject : string)
    (grade : float) : Store :=
  match dict_get student_data name with
  | Some grades => dict_set student_data name (dict_set grades subject grade)
  | None => student_data
  end.

Definition add_grade (student_data : Store) (name subject grade : string)
    : Store * list string :=
  if negb (dict_mem student_data name) then
    (student_data, ["Error: " ++ name ++ " not found. Please add the student first."])
  else
    match py_float grade with
    | Some grade =>
        if fleb (float_of_Z 0) grade && fleb grade (float_of_Z 100) then
          (set_grade student_data name subject grade,
           ["Added grade for " ++ name ++ " in " ++ subject ++ ": " ++ str_float grade])
        else
          (student_data, ["Error: Grade must be between 0 and 100."])
    | None =>
        (student_data, ["Error: Invalid grade format. Please enter a number."])
    end.

(** [sum(grades) / len(grades)], rounded. *)
Definition calculate_average_grade (student_data : Store) (name : string)
    : pyvalue :=
  match dict_get student_data name with
  | None => PStr "N/A"
  | Some [] => PStr "N/A"
  | Some subjects =>
      let grades := values subjects in
      let average := fdiv (py_sum sum_alg grades)
                          (float_of_Z (Z.of_nat (List.length grades))) in
      PFloat (py_round average 2)
  end.

Fixpoint repeat_char (c : ascii) (n : nat) : string :=
  match n with
  | O => EmptyString
  | S n' => String c (repeat_char c n')
  end.

Definition view_student_report (student_data : Store) (name : string)
    : list string :=
  match dict_get student_data name with
  | None => ["Error: " ++ name ++ " not found."]
  | Some subjects =>
      (nl ++ "--- Report for " ++ name ++ " ---") ::
      match subjects with
      | [] => ["No grades recorded yet."]
      | _ =>
          List.app
            (map (fun item => "  " ++ fst item ++ ": " ++ str_float (snd item)) subjects)
            ["  Overall Average: "
               ++ str_value (calculate_average_grade student_data name);
             repeat_char "-" (String.length name + 18)]
      end
  end.

(** The loop of [calculate_class_subject_average] over the items of
    [student_data].  [total_grades] starts as the integer [0], which the
    first addition converts to [0.0]; it is a float here from the start. *)
Fixpoint class_subject_loop (items : Store) (subject : string)
    (total_grades : float) (student_count : nat) : float * nat :=
  match items with
  | [] => (total_grades, student_count)
  | (name, subjects) :: rest =>
      match dict_get subjects subject with
      | Some grade =>
          class_subject_loop rest subject (fadd total_grades grade) (S student_count)
      | None => class_subject_loop rest subject total_grades student_count
      end
  end.

Definition calculate_class_subject_average (student_data : Store)
    (subject : string) : pyvalue :=
  let (total_grades, student_count) :=
    class_subject_loop student_data subject pos_zero 0 in
  match student_count with
  | O => PStr "N/A"
  | _ =>
      let average := fdiv total_grades (float_of_Z (Z.of_nat student_count)) in
      PFloat (py_round average 2)
  end.

Definition delete_student (student_data : Store) (name : string)
    : Store * list string :=
  if dict_mem student_data name then
    (dict_del student_data name, ["Successfully deleted student: " ++ name ++ "."])
  else
    (student_data, ["Error: Student '" ++ name ++ "' not found."]).

Definition delete_grade (student_data : Store) (name subject : string)
    : Store * list string :=
  match dict_get student_data name with
  | None => (student_data, ["Error: Student '" ++ name ++ "' not found."])
  | Some subjects =>
      if dict_mem subjects subject then
        (dict_set student_data name (dict_del subjects subject),
         ["Successfully deleted grade for " ++ name ++ " in " ++ subject ++ "."])
      else
        (student_data,
         ["Error: Subject '" ++ subject ++ "' not found for student '" ++ name ++ "'."])
  end.
End Program.

(** ** The menus

    The state of a run: the global [student_data], the file system, the
    lines still to be read from standard input, and what has been written to
    standard output (one entry per call of [print] and per prompt of
    [input]). *)
Record world := {
  student_data : Store;
  files : filesystem;
  stdin : list string;
  stdout : list string
}.

(** How a run ends: [sys.exit()], an [EOFError] raised by [input], a
    persisted document outside this model, or exhausted fuel. *)
Inductive ending := SystemExit | EOFError | OutsideModel | OutOfFuel.

Inductive control :=
| Next (w : world)
| Halt (e : ending) (w : world).

Definition print (lines : list string) (w : world) : world :=
  {| student_data := student_data w; files := files w; stdin := stdin w;
     stdout := List.app (stdout w) lines |}.

(** Run an operation that updates [student_data] and prints. *)
Definition update (op : Store -> Store * list string) (w : world) : world :=
  let (st, lines) := op (student_data w) in
  {| student_data := st; files := files w; stdin := stdin w;
     stdout := List.app (stdout w) lines |}.

(** [input(prompt)], followed by the rest of the computation. *)
Definition input (prompt : string) (w : world) (k : string -> world -> control)
    : control :=
  let w' := print [prompt] w in
  match stdin w with
  | line :: rest =>
      k line {| student_data := student_data w'; files := files w';
                stdin := rest; stdout := stdout w' |}
  | [] => Halt EOFError w'
  end.

Section Menus.
Variable float_repr : float -> string.
Variable sum_alg : sum_algorithm.

(** [Next] is the return to the main menu. *)
Fixpoint delete_menu (fuel : nat) (w : world) : control :=
  match fuel with
  | O => Halt OutOfFuel w
  | S fuel' =>
      let w := print [nl ++ "*** Delete Menu ***";
                      "1. Delete a student (and all their grades)";
                      "2. Delete a single grade (for a student/subject)";
                      "3. Back to Main Menu"] w in
      input "Enter your choice (1-3): " w (fun choice w =>
      if choice =? "1" then
        input "Enter student name to delete: " w (fun name w =>
        delete_menu fuel' (update (fun st => delete_student st name) w))
      else if choice =? "2" then
        input "Enter student name: " w (fun name w =>
        input "Enter subject name to delete grade for: " w (fun subject w =>
        delete_menu fuel' (update (fun st => delete_grade st name subject) w)))
      else if choice =? "3" then Next w
      else
        delete_menu fuel'
          (print ["Invalid choice. Please enter a number between 1 and 3."] w))
  end.

(** The [while True] loop of [main_menu]. *)
Fixpoint main_loop (fuel : nat) (w : world) : ending * world :=
  match fuel with
  | O => (OutOfFuel, w)
  | S fuel' =>
      let continue (c : control) : ending * world :=
        match c with
        | Next w => main_loop fuel' w
        | Halt e w => (e, w)
        end in
      let w := print [nl ++ "*** Students Grading App Menu ***";
                      "1. Add a new student";
                      "2. Add a grade for a student";
                      "3. View a student report";
                      "4. Calculate class average for a subject";
                      "5. View all students";
                      "6. Delete Data (Student or Grade)";
                      "7. Exit (Save Data)"] w in
      continue (input "Enter your choice (1-7): " w (fun choice w =>
      if choice =? "1" then
        input "Enter student name: " w (fun name w =>
        Next (update (fun st => add_student st name) w))
      else if choice =? "2" then
        input "Enter student name: " w (fun name w =>
        input "Enter subject name: " w (fun subject w =>
        input "Enter grade: " w (fun grade w =>
        Next (update (fun st => add_grade float_repr st name subject grade) w))))
      else if choice =? "3" then
        input "Enter student name to view report: " w (fun name w =>
        Next (print (view_student_report float_repr sum_alg (student_data w) name) w))
      else if choice =? "4" then
        input "Enter subject name to calculate class average: " w (fun subject w =>
        let average := calculate_class_subject_average (student_data w) subject in
        match average with
        | PStr "N/A" => Next (print ["No grades found for subject: " ++ subject] w)
        | _ => Next (print ["Class average for " ++ subject ++ ": "
                              ++ str_value float_repr average] w)
        end)
      else if choice =? "5" then
        let w := print [nl ++ "Current Students:"] w in
        let w := match student_data w with
                 | [] => print ["(No students recorded)"] w
                 | _ => w
                 end in
        Next (print (map (fun name => "- " ++ name) (keys (student_data w))) w)
      else if choice =? "6" then delete_menu fuel' w
      else if choice =? "7" then
        let (fs, lines) := save_data float_repr (student_data w) (files w) in
        Halt SystemExit
          {| student_data := student_data w; files := fs; stdin := stdin w;
             stdout := List.app (stdout w)
                         (List.app lines ["Exiting application. Goodbye!"]) |}
      else
        Next (print ["Invalid choice. Please enter a number between 1 and 7."] w)))
  end.

(** [main_menu], started on the file system [fs] with [inputs] on standard
    input.  Every turn of either loop reads at least one line, so one unit
    of fuel per line, and one more, is enough. *)
Definition main_menu (fs : filesystem) (inputs : list string) : ending * world :=
  let w := {| student_data := []; files := fs; stdin := inputs; stdout := [] |} in
  match load_data fs (student_data w) with
  | Some (st, lines) =>
      main_loop (S (List.length inputs))
        {| student_data := st; files := fs; stdin := inputs; stdout := lines |}
  | None => (OutsideModel, w)
  end.
End Menus.

(** ** Observations used in the statements *)

(** [student_data[name][subject]], or [None] if either key is missing. *)
Definition lookup_grade (st : Store) (name subject : string) : option float :=
  match dict_get st name with
  | Some subjects => dict_get subjects subject
  | None => None
  end.

(** How many subjects a student has; [0] for a missing student. *)
Definition subject_count (st : Store) (name : string) : nat :=
  match dict_get st name with
  | Some subjects => List.length subjects
  | None => 0
  end.

(** [0 <= x <= 100] *)
Definition in_range (x : float) : bool :=
  fleb (float_of_Z 0) x && fleb x (float_of_Z 100).

(** Every stored grade satisfies [P]. *)
Definition all_scores (P : float -> Prop) (st : Store) : Prop :=
  Forall (fun item => Forall (fun g => P (snd g)) (snd item)) st.

(** Every stored grade is between 0 and 100. *)
Definition scores_in_range : Store -> Prop :=
  all_scores (fun x => in_range x = true).

(** Every stored grade is a finite number. *)
Definition scores_finite : Store -> Prop :=
  all_scores (fun x => is_finite x = true).


(** The grades of the students that have [subject], in the order of the
    students. *)
Fixpoint subject_grades (st : Store) (subject : string) : list float :=
  match st with
  | [] => []
  | (_, subjects) :: rest =>
      match dict_get subjects subject with
      | Some g => g :: subject_grades rest subject
      | None => subject_grades rest subject
      end
  end.




(** Whether [sub] occurs in [s]. *)
Fixpoint contains (sub s : string) : bool :=
  match s with
  | EmptyString => String.prefix sub s
  | String _ r => String.prefix sub s || contains sub r
  end.

Definition quoted (s : string) : string :=
  String dquote (s ++ String dquote EmptyString).

(** The world in which a menu stops or returns. *)
Definition world_of (c : control) : world :=
  match c with
  | Next w => w
  | Halt _ w => w
  end.

(** [student_data] satisfies [P] in the world [w]. *)
Definition holds_in (P : Store -> Prop) (w : world) : Prop :=
  P (student_data w).

(** A decoded object has distinct keys. *)
Definition wf_top (j : json) : Prop :=
  match j with
  | JObj ms => wf_dict ms
  | _ => True
  end.

(** A decoded object has distinct keys, and so has each of its members
    that is an object. *)
Definition wf_doc (j : json) : Prop :=
  match j with
  | JObj ms => wf_dict ms /\ Forall (fun item => wf_top (snd item)) ms
  | _ => True
  end.

(** The value the data file decodes to, when it is a [Store]. *)
Definition persisted_store (fs : filesystem) : option Store :=
  match fs FILE_NAME with
  | Some text =>
      match json_loads text with
      | Decoded j => store_of_json j
      | _ => None
      end
  | None => None
  end.

(** A data file that holds the grade 150 for the student A in Math. *)
Definition file_with_150 : filesystem :=
  fun p =>
    if p =? FILE_NAME
    then Some ("{" ++ quoted "A" ++ ": {" ++ quoted "Math" ++ ": 150.0}}")
    else None.

(** No data file at all. *)
Definition no_files : filesystem := fun _ => None.

(** One student, A, with the grades 80 in Math and 90 in Science. *)
Definition two_grades : Store :=
  [("A", [("Math", float_of_Z 80); ("Science", float_of_Z 90)])].

(** One student, A, without grades. *)
Definition no_grades : Store := [("A", [])].

(** The document that [json.dump] writes for [student_data]. *)
Definition json_members {V : Type} (to_json : V -> json) (d : dict V) : dict json :=
  map (fun item => (fst item, to_json (snd item))) d.

Definition json_of_grades (subjects : dict float) : dict json :=
  json_members JFloat subjects.

Definition json_of_students (st : Store) : dict json :=
  json_members (fun subjects => JObj (json_of_grades subjects)) st.

Definition json_of_store (st : Store) : json := JObj (json_of_students st).

(** The numeral that [float_repr] prints for [x] is read back as [x] where
    the encoder puts it: after a key, and before a comma or a line break.
    Python's [repr] has this property for every finite double, and so has
    [py_repr]. *)
Definition reads_back (float_repr : float -> string) (x : float) : Prop :=
  forall (fuel : nat) (c : ascii) (rest : string),
    c = ","%char \/ c = newline ->
    parse_value (S fuel) (skip_ws (float_repr x ++ String c rest)) =
      Decoded (JFloat x, String c rest).

(** What the round trip asks of a grade: a finite one is printed as a
    numeral that reads back. *)
Definition printable (float_repr : float -> string) (x : float) : Prop :=
  is_finite x = true -> reads_back float_repr x.

(** Fuel that is enough for [parse_members] on the encoded members of [d],
    when decoding an encoded value [v] takes more than [cost v]. *)
Fixpoint members_cost {V : Type} (cost : V -> nat) (d : dict V) : nat :=
  match d with
  | [] => 0
  | (_, v) :: r => S (S (cost v + members_cost cost r))
  end.

(** Replace the lengths of strings by variables, for [lia]. *)
Ltac name_lengths :=
  cbn [String.length] in *;
  repeat match goal with
         | |- context [String.length ?s] =>
             let n := fresh "n" in set (n := String.length s) in *; clearbody n
         | H : context [String.length ?s] |- _ =>
             let n := fresh "n" in set (n := String.length s) in *; clearbody n
         end.

(** Every student of [st'] is a student of [st], and every grade of [st']
    is the same grade in [st]. *)
Definition within (st' st : Store) : Prop :=
  (forall name, dict_mem st' name = true -> dict_mem st name = true) /\
  (forall name subject g,
     lookup_grade st' name subject = Some g ->
     lookup_grade st name subject = Some g).

(** The end [r] of a run started on the files [fs]: after [sys.exit()] the
    data file holds the encoding of the final [student_data] and every other
    file is as in [fs]; after any other end the files are those of [fs]. *)
Definition saved_on_exit (float_repr : float -> string) (fs : filesystem)
    (r : ending * world) : Prop :=
  (fst r = SystemExit ->
   files (snd r) =
     write_file fs FILE_NAME (json_dumps float_repr (student_data (snd r)))) /\
  (fst r <> SystemExit -> files (snd r) = fs).

(** A menu that returns, or stops for another reason than [sys.exit()],
    leaves the files as they were. *)
Definition files_kept (fs : filesystem) (c : control) : Prop :=
  files (world_of c) = fs /\
  match c with
  | Halt e _ => e <> SystemExit
  | Next _ => True
  end.

(** ** The numbers that floats stand for

    The statements about the averages and about the round trip through the
    data file speak of the exact rational value of a double, and of the
    double nearest to a rational.  The definitions below say what the
    roundings of [SpecFloat] compute, over [Q]. *)

Section ExactValues.
Local Open Scope Q_scope.

(** [2^e], as a rational. *)
Definition bpow (e : Z) : Q := 2 ^ e.

(** Where [t] lies between the whole number [m] and [m + 1]: on [m], below
    the middle, on it, or above it. *)
Inductive bracket (t : Q) (m : Z) : location -> Prop :=
| bracket_exact : t == inject_Z m -> bracket t m loc_Exact
| bracket_lt : inject_Z m < t -> t < inject_Z m + (1#2) -> bracket t m (loc_Inexact Lt)
| bracket_eq : t == inject_Z m + (1#2) -> bracket t m (loc_Inexact Eq)
| bracket_gt : inject_Z m + (1#2) < t -> t < inject_Z m + 1 -> bracket t m (loc_Inexact Gt).

(** The same for the record that [shr_1] works on. *)
Definition brec (t : Q) (r : shr_record) : Prop :=
  (0 <= shr_m r)%Z /\ bracket t (shr_m r) (loc_of_shr_record r).

(** [e] is the exponent of the doubles around [v]. *)
Definition cexp (v : Q) (e : Z) : Prop :=
  (e = (-1074)%Z /\ v < bpow (-1021)) \/
  ((-1074 < e)%Z /\ bpow (e + 52) <= v /\ v < bpow (e + 53)).

(** The second half of [binary_round_aux]: round the cut mantissa and
    pack the result. *)
Definition finish (s : bool) (m e : Z) (l : location) : float :=
  let '(mrs, e') := shr_fexp prec emax (round_nearest_even m l) e loc_Exact in
  match shr_m mrs with
  | Z0 => S754_zero s
  | Zpos p => if (e' <=? emax - prec)%Z then S754_finite s p e' else S754_infinity s
  | Zneg _ => S754_nan
  end.

(** [y] is the double nearest to [v], with the sign [s]. *)
Definition rounds (s : bool) (v : Q) (y : float) : Prop :=
  exists e m l,
    cexp v e /\ (0 <= m)%Z /\ bracket (v * bpow (- e)) m l /\ y = finish s m e l.

(** [10^k], as a rational. *)
Definition pow10 (k : Z) : Q := 10 ^ k.

(** The exact value of the positive double with mantissa [m] and
    exponent [e]. *)
Definition absval (m : positive) (e : Z) : Q := inject_Z (Zpos m) * bpow e.



End ExactValues.

(** A float that is a binary64 value: the mantissa has 53 bits, or fewer at
    the least exponent, and the exponent is in range.  Every Python float is
    one; [spec_float] has other pairs of a mantissa and an exponent too. *)
Definition is_double (x : float) : Prop := valid_binary prec emax x = true.

(** The floats of a decoded document are binary64 values. *)
Definition double_top (j : json) : Prop :=
  match j with
  | JFloat x => is_double x
  | JObj ms =>
      Forall (fun item => match snd item with
                          | JFloat x => is_double x
                          | _ => True
                          end) ms
  | _ => True
  end.

Definition double_doc (j : json) : Prop :=
  match j with
  | JFloat x => is_double x
  | JObj ms => Forall (fun item => double_top (snd item)) ms
  | _ => True
  end.

(** *** The digits of [repr] *)

Section Numbers.
Local Open Scope Z_scope.

(** A string of decimal digits, and one that does not start with [0]. *)
Fixpoint digits_only (s : string) : bool :=
  match s with
  | EmptyString => true
  | String c r => is_digit c && digits_only r
  end.

Definition head_nonzero (s : string) : bool :=
  match s with
  | String c _ => negb (Ascii.eqb c "0")
  | EmptyString => false
  end.

(** The character of the digit [d]. *)
Definition digit_char (d : Z) : ascii := ascii_of_N (48 + Z.to_N d).

(** The fraction [fnum / fden] that [py_repr] computes with: the exact value
    of the double. *)
Definition fnum (m : positive) (e : Z) : Z :=
  if (0 <=? e)%Z then (Zpos m * 2 ^ e)%Z else Zpos m.

Definition fden (e : Z) : Z := if (0 <=? e)%Z then 1%Z else (2 ^ (- e))%Z.

(** The decimal exponent that [py_repr] computes. *)
Definition fk (m : positive) (e : Z) : Z :=
  if (fden e <=? fnum m e)%Z
  then (strlen (decimal (fnum m e / fden e)) - 1)%Z
  else (- strlen (decimal ((fden e - 1) / fnum m e)))%Z.

(** The fraction scaled so that [n] digits stand before the point. *)
Definition scaled_num (num p : Z) : Z :=
  if (0 <=? p)%Z then num else (num * 10 ^ (- p))%Z.

Definition scaled_den (den p : Z) : Z :=
  if (0 <=? p)%Z then (den * 10 ^ p)%Z else den.

(** [a / b] rounded to the nearest whole number, ties to even. *)
Definition nearest_int (a b : Z) : Z :=
  match (2 * (a mod b) ?= b)%Z with
  | Lt => (a / b)%Z
  | Gt => (a / b + 1)%Z
  | Eq => if Z.even (a / b) then (a / b)%Z else (a / b + 1)%Z
  end.

(** *** The shape of a numeral *)

(** A string without white space. *)
Fixpoint no_space (s : string) : bool :=
  match s with
  | EmptyString => true
  | String c r => negb (is_space c) && no_space r
  end.

(** A string that does not go on with a digit. *)
Definition stops (r : string) : bool :=
  match r with
  | EmptyString => true
  | String c _ => negb (is_digit c) && negb (Ascii.eqb c "_")
  end.

(** The fraction part [.F] of a numeral, absent when [F] is empty. *)
Definition dotted (F : string) : string :=
  match F with
  | EmptyString => EmptyString
  | _ => String "." F
  end.

(** The exponent part [e+Ed] or [e-Ed] of a numeral, its value, and what
    makes it well formed. *)
Definition exp_part (ev : option (bool * string)) : string :=
  match ev with
  | None => EmptyString
  | Some (neg, Ed) => String "e" ((if neg : bool then "-" else "+") ++ Ed)
  end.

Definition exp_value (ev : option (bool * string)) : Z :=
  match ev with
  | None => 0
  | Some (neg, Ed) => if neg : bool then - int_of_digits Ed 0 else int_of_digits Ed 0
  end.

Definition exp_ok (ev : option (bool * string)) : Prop :=
  match ev with
  | None => True
  | Some (_, Ed) => digits_only Ed = true /\ Ed <> EmptyString
  end.

Definition sign_str (neg : bool) : string := if neg then "-" else EmptyString.

(** [y] with the sign [s]. *)
Definition set_sign (s : bool) (y : float) : float :=
  match y with
  | S754_zero _ => S754_zero s
  | S754_infinity _ => S754_infinity s
  | S754_nan => S754_nan
  | S754_finite _ m e => S754_finite s m e
  end.

(** *** Averages *)









(** One student, A, with the grades 85.03 and 85.04. *)
Definition close_grades : Store :=
  [("A", [("Math", float_of_decimal false 8503 4 (-2));
          ("Science", float_of_decimal false 8504 4 (-2))])].




End Numbers.

(** * Properties *)

(** ** Dictionaries *)
Section DictFacts.
Context {V : Type}.
Implicit Types (d : dict V) (k : string) (v : V).

Lemma dict_mem_get d k :
  dict_mem d k = true <-> exists v, dict_get d k = Some v.
Proof.
  unfold dict_mem. destruct (dict_get d k) as [v|].
  - split; [eauto | reflexivity].
  - split; [discriminate | intros [v H]; discriminate].
Qed.

Lemma dict_mem_false d k : dict_mem d k = false <-> dict_get d k = None.
Proof.
  unfold dict_mem. destruct (dict_get d k); split; congruence.
Qed.

Lemma dict_get_set_same d k v : dict_get (dict_set d k v) k = Some v.
Proof.
  induction d as [|[k' v'] r IH]; simpl.
  - now rewrite String.eqb_refl.
  - destruct (k' =? k) eqn:E; simpl; rewrite E; auto.
Qed.

Lemma dict_get_set_other d k k' v :
  k <> k' -> dict_get (dict_set d k v) k' = dict_get d k'.
Proof.
  intros Hne. induction d as [|[k0 v0] r IH]; simpl.
  - apply String.eqb_neq in Hne. now rewrite Hne.
  - destruct (k0 =? k) eqn:E; simpl.
    + apply String.eqb_eq in E. subst k0.
      apply String.eqb_neq in Hne. now rewrite Hne.
    + now rewrite IH.
Qed.

Lemma dict_set_present d k v :
  dict_mem d k = true ->
  keys (dict_set d k v) = keys d /\ List.length (dict_set d k v) = List.length d.
Proof.
  unfold dict_mem. induction d as [|[k0 v0] r IH]; simpl; [discriminate|].
  destruct (k0 =? k) eqn:E; simpl; intros H; [auto|].
  destruct (IH H) as [Hk Hl]. now rewrite Hk, Hl.
Qed.

Lemma dict_set_absent d k v :
  dict_mem d k = false -> dict_set d k v = (d ++ [(k, v)])%list.
Proof.
  unfold dict_mem. induction d as [|[k0 v0] r IH]; simpl; [reflexivity|].
  destruct (k0 =? k) eqn:E; [discriminate|].
  intros H. now rewrite IH.
Qed.

Lemma dict_get_In d k v : dict_get d k = Some v -> In (k, v) d.
Proof.
  induction d as [|[k0 v0] r IH]; simpl; [discriminate|].
  destruct (k0 =? k) eqn:E.
  - apply String.eqb_eq in E. intros [= ->]. subst. now left.
  - intros H. right. auto.
Qed.

Lemma dict_get_None_keys d k : dict_get d k = None <-> ~ In k (keys d).
Proof.
  induction d as [|[k0 v0] r IH]; simpl.
  - split; auto.
  - destruct (k0 =? k) eqn:E.
    + apply String.eqb_eq in E. split; [discriminate | intros H; exfalso; auto].
    + apply String.eqb_neq in E. rewrite IH. split; intros H; [intros [?|?]|]; auto.
Qed.

Lemma dict_get_del_other d k k' :
  k <> k' -> dict_get (dict_del d k) k' = dict_get d k'.
Proof.
  intros Hne. induction d as [|[k0 v0] r IH]; simpl; [reflexivity|].
  destruct (k0 =? k) eqn:E; simpl.
  - apply String.eqb_eq in E. subst k0.
    apply String.eqb_neq in Hne. now rewrite Hne.
  - now rewrite IH.
Qed.

Lemma dict_get_del_same d k : wf_dict d -> dict_get (dict_del d k) k = None.
Proof.
  unfold wf_dict. induction d as [|[k0 v0] r IH]; simpl; [reflexivity|].
  intros Hnd. inversion Hnd as [|? ? Hnotin Hnd']; subst.
  destruct (k0 =? k) eqn:E; simpl.
  - apply String.eqb_eq in E. subst k0. now apply dict_get_None_keys.
  - rewrite E. auto.
Qed.

Lemma keys_dict_del_incl d k x : In x (keys (dict_del d k)) -> In x (keys d).
Proof.
  induction d as [|[k0 v0] r IH]; simpl; [auto|].
  destruct (k0 =? k); simpl; intuition.
Qed.

Lemma keys_dict_set d k v x :
  In x (keys (dict_set d k v)) -> x = k \/ In x (keys d).
Proof.
  induction d as [|[k0 v0] r IH]; simpl.
  - intuition.
  - destruct (k0 =? k); simpl; intuition.
Qed.

Lemma wf_dict_set d k v : wf_dict d -> wf_dict (dict_set d k v).
Proof.
  unfold wf_dict. induction d as [|[k0 v0] r IH]; simpl; intros Hnd.
  - constructor; [intros [] | constructor].
  - inversion Hnd as [|? ? Hnotin Hnd']; subst.
    destruct (k0 =? k) eqn:E; simpl.
    + now constructor.
    + constructor; [|auto].
      intros Hin. apply keys_dict_set in Hin. destruct Hin as [->|Hin]; [|auto].
      now rewrite String.eqb_refl in E.
Qed.

Lemma wf_dict_del d k : wf_dict d -> wf_dict (dict_del d k).
Proof.
  unfold wf_dict. induction d as [|[k0 v0] r IH]; simpl; intros Hnd; [constructor|].
  inversion Hnd as [|? ? Hnotin Hnd']; subst.
  destruct (k0 =? k); simpl; [assumption|].
  constructor; [|auto].
  intros Hin. now apply keys_dict_del_incl in Hin.
Qed.

Lemma Forall_dict_set (P : string * V -> Prop) d k v :
  Forall P d -> (forall k', P (k', v)) -> Forall P (dict_set d k v).
Proof.
  intros Hd Hv. induction Hd as [|[k0 v0] r H0 Hr IH]; simpl.
  - constructor; [apply Hv | constructor].
  - destruct (k0 =? k); constructor; auto.
Qed.

Lemma Forall_dict_del (P : string * V -> Prop) d k :
  Forall P d -> Forall P (dict_del d k).
Proof.
  intros Hd. induction Hd as [|[k0 v0] r H0 Hr IH]; simpl; [constructor|].
  destruct (k0 =? k); [assumption | constructor; auto].
Qed.

Lemma Forall_dict_get (P : string * V -> Prop) d k v :
  Forall P d -> dict_get d k = Some v -> P (k, v).
Proof.
  intros Hd Hg. apply dict_get_In in Hg.
  rewrite Forall_forall in Hd. auto.
Qed.
End DictFacts.

(** ** Adding students and grades *)
Section AddFacts.
Variable float_repr : float -> string.

Lemma add_grade_accepts st name subject raw s :
  dict_mem st name = true ->
  py_float raw = Some s ->
  in_range s = true ->
  add_grade float_repr st name subject raw =
    (set_grade st name subject s,
     ["Added grade for " ++ name ++ " in " ++ subject ++ ": " ++ str_float float_repr s]).
Proof.
  unfold add_grade, in_range. intros Hmem Hparse Hrange.
  now rewrite Hmem, Hparse, Hrange.
Qed.

Lemma add_grade_rejects st name subject raw :
  (dict_mem st name = false \/ py_float raw = None \/
   exists x, py_float raw = Some x /\ in_range x = false) ->
  fst (add_grade float_repr st name subject raw) = st.
Proof.
  unfold add_grade, in_range. intros [H | [H | [x [H Hr]]]].
  - now rewrite H.
  - destruct (dict_mem st name); [now rewrite H | reflexivity].
  - destruct (dict_mem st name); [now rewrite H, Hr | reflexivity].
Qed.

Lemma add_grade_out_of_range st name subject raw x :
  dict_mem st name = true ->
  py_float raw = Some x ->
  in_range x = false ->
  add_grade float_repr st name subject raw =
    (st, ["Error: Grade must be between 0 and 100."]).
Proof.
  unfold add_grade, in_range. intros H1 H2 H3. now rewrite H1, H2, H3.
Qed.

Lemma lookup_set_grade st name subject s :
  dict_mem st name = true ->
  lookup_grade (set_grade st name subject s) name subject = Some s.
Proof.
  intros Hmem. apply dict_mem_get in Hmem. destruct Hmem as [gs Hgs].
  unfold set_grade, lookup_grade. rewrite Hgs.
  now rewrite !dict_get_set_same.
Qed.

Lemma subject_count_set_grade st name subject s :
  dict_mem st name = true ->
  subject_count (set_grade st name subject s) name =
    match lookup_grade st name subject with
    | Some _ => subject_count st name
    | None => S (subject_count st name)
    end.
Proof.
  intros Hmem. apply dict_mem_get in Hmem. destruct Hmem as [gs Hgs].
  unfold set_grade, lookup_grade, subject_count. rewrite Hgs.
  rewrite dict_get_set_same.
  destruct (dict_get gs subject) as [g|] eqn:Hg.
  - apply (dict_set_present gs subject s).
    apply dict_mem_get. eauto.
  - rewrite dict_set_absent by now apply dict_mem_false.
    rewrite length_app. simpl. lia.
Qed.
End AddFacts.

(** C1. On a student that is present, with a raw score that [float] reads as
    a number [s] with [0 <= s <= 100], [add_grade] stores [s] under the
    subject: looking the subject up afterwards gives [s]; a subject that was
    missing is created (one more subject), and a subject that was there is
    overwritten (the number of subjects of the student does not change). *)
Theorem add_grade_upsert (float_repr : float -> string) (st : Store)
    (name subject raw : string) (s : float) :
  dict_mem st name = true ->
  py_float raw = Some s ->
  in_range s = true ->
  let st' := fst (add_grade float_repr st name subject raw) in
  lookup_grade st' name subject = Some s /\
  (lookup_grade st name subject = None ->
   subject_count st' name = S (subject_count st name)) /\
  (lookup_grade st name subject <> None ->
   subject_count st' name = subject_count st name).
Proof.
  intros Hmem Hparse Hrange st'. subst st'.
  rewrite (add_grade_accepts float_repr st name subject raw s) by assumption.
  simpl. split; [now apply lookup_set_grade|].
  rewrite subject_count_set_grade by assumption.
  destruct (lookup_grade st name subject); split; intros H; congruence.
Qed.

(** C3. When [add_grade] fails, [student_data] is left as it was and the
    matching error is printed: the student is missing; or the raw score is
    not a number for [float]; or the number is outside [0, 100]. *)
Theorem add_grade_failure_unchanged (float_repr : float -> string) (st : Store)
    (name subject raw : string) :
  (dict_mem st name = false ->
   add_grade float_repr st name subject raw =
     (st, ["Error: " ++ name ++ " not found. Please add the student first."])) /\
  (dict_mem st name = true -> py_float raw = None ->
   add_grade float_repr st name subject raw =
     (st, ["Error: Invalid grade format. Please enter a number."])) /\
  (forall x, dict_mem st name = true -> py_float raw = Some x -> in_range x = false ->
   add_grade float_repr st name subject raw =
     (st, ["Error: Grade must be between 0 and 100."])).
Proof.
  split; [|split].
  - unfold add_grade. intros H. now rewrite H.
  - unfold add_grade. intros H1 H2. now rewrite H1, H2.
  - intros x. apply add_grade_out_of_range.
Qed.

(** C7. [add_student] on a name that is present prints the duplicate error
    and leaves [student_data] as it was; on a new name it appends the name
    with an empty grade dictionary, and the name is then listed exactly
    once. *)
Theorem add_student_spec (st : Store) (name : string) :
  (dict_mem st name = true ->
   add_student st name = (st, ["Error: " ++ name ++ " already exists."])) /\
  (dict_mem st name = false ->
   add_student st name = ((st ++ [(name, [])])%list, ["Added new student: " ++ name]) /\
   dict_get (fst (add_student st name)) name = Some [] /\
   count_occ string_dec (keys (fst (add_student st name))) name = 1).
Proof.
  unfold add_student. split; intros H; rewrite H; [reflexivity|].
  rewrite dict_set_absent by assumption. simpl.
  split; [reflexivity|]. split.
  - rewrite <- (dict_set_absent st name []) by assumption.
    apply dict_get_set_same.
  - unfold keys. rewrite map_app, count_occ_app. simpl.
    apply dict_mem_false, dict_get_None_keys in H.
    apply (count_occ_not_In string_dec) in H. unfold keys in H. rewrite H.
    now destruct (string_dec name name).
Qed.

(** C8. [delete_grade] on a missing student, or on a student without the
    subject, prints the matching error and leaves [student_data] as it was.
    When both are present the subject is gone from that student afterwards,
    every other subject of the student and every other student is as before,
    and the students are the same, in the same order. *)
Theorem delete_grade_frame (st : Store) (name subject : string) :
  (dict_get st name = None ->
   delete_grade st name subject =
     (st, ["Error: Student '" ++ name ++ "' not found."])) /\
  (forall subjects, dict_get st name = Some subjects ->
   dict_get subjects subject = None ->
   delete_grade st name subject =
     (st, ["Error: Subject '" ++ subject ++ "' not found for student '" ++ name ++ "'."])) /\
  (forall subjects g, dict_get st name = Some subjects -> wf_dict subjects ->
   dict_get subjects subject = Some g ->
   let st' := fst (delete_grade st name subject) in
   snd (delete_grade st name subject) =
     ["Successfully deleted grade for " ++ name ++ " in " ++ subject ++ "."] /\
   lookup_grade st' name subject = None /\
   (forall subject', subject' <> subject ->
    lookup_grade st' name subject' = lookup_grade st name subject') /\
   (forall name', name' <> name -> dict_get st' name' = dict_get st name') /\
   keys st' = keys st /\
   subject_count st' name + 1 = subject_count st name).
Proof.
  unfold delete_grade. split; [|split].
  - intros H. now rewrite H.
  - intros subjects H1 H2. rewrite H1.
    apply dict_mem_false in H2. now rewrite H2.
  - intros subjects g H1 Hwf H2. rewrite H1.
    assert (Hmem : dict_mem subjects subject = true) by (apply dict_mem_get; eauto).
    rewrite Hmem. simpl. split; [reflexivity|].
    unfold lookup_grade, subject_count. rewrite dict_get_set_same, H1.
    split; [now apply dict_get_del_same|].
    split; [intros s' Hs'; now apply dict_get_del_other|].
    split; [intros n' Hn'; now apply dict_get_set_other|].
    split.
    + apply dict_set_present, dict_mem_get. eauto.
    + clear H1 Hwf Hmem. revert H2. induction subjects as [|[k v] r IH]; simpl; [discriminate|].
      destruct (k =? subject); simpl; intros H; [lia|].
      specialize (IH H). lia.
Qed.

(** ** Properties of the stored grades kept by every operation *)
Section ScoreInvariant.
Variable P : float -> Prop.

Lemma all_scores_add_student st name :
  all_scores P st -> all_scores P (fst (add_student st name)).
Proof.
  unfold add_student. intros H. destruct (dict_mem st name); simpl; [assumption|].
  apply Forall_dict_set; [assumption|]. intros k. constructor.
Qed.

Lemma all_scores_set_grade st name subject x :
  all_scores P st -> P x -> all_scores P (set_grade st name subject x).
Proof.
  unfold set_grade. intros H Hx.
  destruct (dict_get st name) as [gs|] eqn:Hgs; [|assumption].
  apply Forall_dict_set; [assumption|]. intros k. simpl.
  apply Forall_dict_set; [|auto].
  apply (Forall_dict_get _ st name gs H Hgs).
Qed.

Lemma all_scores_delete_student st name :
  all_scores P st -> all_scores P (fst (delete_student st name)).
Proof.
  unfold delete_student. intros H. destruct (dict_mem st name); simpl; [|assumption].
  now apply Forall_dict_del.
Qed.

Lemma all_scores_delete_grade st name subject :
  all_scores P st -> all_scores P (fst (delete_grade st name subject)).
Proof.
  unfold delete_grade. intros H.
  destruct (dict_get st name) as [gs|] eqn:Hgs; [|assumption].
  destruct (dict_mem gs subject); simpl; [|assumption].
  apply Forall_dict_set; [assumption|]. intros k. simpl.
  apply Forall_dict_del.
  apply (Forall_dict_get _ st name gs H Hgs).
Qed.

Lemma all_scores_add_grade float_repr st name subject raw :
  (forall x, in_range x = true -> P x) ->
  all_scores P st -> all_scores P (fst (add_grade float_repr st name subject raw)).
Proof.
  intros HP H.
  destruct (dict_mem st name) eqn:Hm;
    [|rewrite add_grade_rejects; auto].
  destruct (py_float raw) as [x|] eqn:Hp;
    [|rewrite add_grade_rejects; auto].
  destruct (in_range x) eqn:Hx.
  - rewrite (add_grade_accepts float_repr st name subject raw x) by assumption.
    simpl. apply all_scores_set_grade; auto.
  - rewrite add_grade_rejects; [assumption|]. right; right; eauto.
Qed.
End ScoreInvariant.

Lemma in_range_finite x : in_range x = true -> is_finite x = true.
Proof.
  destruct x as [s|[|]| |s m e]; try reflexivity; vm_compute; discriminate.
Qed.

(** C10. A raw score that [float] reads as NaN or as an infinity fails the
    range test: on a student that is present, [add_grade] prints the range
    error, not the format error, and leaves [student_data] as it was.
    Hence [add_grade] keeps all stored grades finite. *)
Theorem add_grade_non_finite (float_repr : float -> string) (st : Store)
    (name subject raw : string) :
  (forall x, dict_mem st name = true -> py_float raw = Some x ->
   is_finite x = false ->
   add_grade float_repr st name subject raw =
     (st, ["Error: Grade must be between 0 and 100."])) /\
  (scores_finite st ->
   scores_finite (fst (add_grade float_repr st name subject raw))).
Proof.
  split.
  - intros x Hmem Hparse Hfin.
    apply (add_grade_out_of_range float_repr st name subject raw x); auto.
    destruct (in_range x) eqn:Hr; [|reflexivity].
    apply in_range_finite in Hr. congruence.
  - apply all_scores_add_grade. exact in_range_finite.
Qed.

(** ** Rounding and averages *)




Lemma class_subject_loop_fold (st : Store) (subject : string) (total : float)
    (count : nat) :
  class_subject_loop st subject total count =
    (fold_left fadd (subject_grades st subject) total,
     count + List.length (subject_grades st subject)).
Proof.
  revert total count.
  induction st as [|[name subjects] rest IH]; intros total count; simpl.
  - now rewrite Nat.add_0_r.
  - destruct (dict_get subjects subject) as [g|]; rewrite IH; simpl; [|reflexivity].
    f_equal. lia.
Qed.


(** ** The report *)

Lemma report_header_not_error (name : string) (rest : list string) :
  (nl ++ "--- Report for " ++ name ++ " ---") :: rest
  <> ["Error: " ++ name ++ " not found."].
Proof.
  intros H. injection H as H _. unfold nl, newline in H. simpl in H.
  discriminate H.
Qed.

(** C5, amended. [view_student_report] prints the not-found error exactly
    when the student is missing.  For a student with at least one grade it
    prints the header, one line per (subject, grade) in insertion order, the
    average of [calculate_average_grade], which is then a number, and a
    rule.  For a student without grades it prints the header and a notice
    that no grades are recorded, and no average. *)
Theorem view_student_report_spec (float_repr : float -> string)
    (alg : sum_algorithm) (st : Store) (name : string) :
  (view_student_report float_repr alg st name = ["Error: " ++ name ++ " not found."]
   <-> dict_get st name = None) /\
  (dict_get st name = Some [] ->
   view_student_report float_repr alg st name =
     [nl ++ "--- Report for " ++ name ++ " ---"; "No grades recorded yet."]) /\
  (forall subjects, dict_get st name = Some subjects -> subjects <> [] ->
   exists average,
     calculate_average_grade alg st name = PFloat average /\
     view_student_report float_repr alg st name =
       (nl ++ "--- Report for " ++ name ++ " ---")
       :: List.app
            (map (fun item => "  " ++ fst item ++ ": " ++ str_float float_repr (snd item))
                 subjects)
            ["  Overall Average: " ++ str_float float_repr average;
             repeat_char "-" (String.length name + 18)]).
Proof.
  unfold view_student_report. split; [|split].
  - destruct (dict_get st name) as [subjects|]; split; intros H;
      first [ reflexivity
            | exfalso; exact (report_header_not_error _ _ H)
            | discriminate H ].
  - intros H. now rewrite H.
  - intros subjects H Hne. rewrite H.
    destruct subjects as [|item subjects]; [congruence|].
    unfold calculate_average_grade. rewrite H.
    eexists. split; reflexivity.
Qed.

(** C5 as stated fails: the report of a student without grades has no
    average line; nothing in it reads N/A. *)
Lemma view_student_report_no_grades_counterexample :
  dict_get no_grades "A" = Some [] /\
  view_student_report py_repr LeftToRight no_grades "A" =
    [nl ++ "--- Report for A ---"; "No grades recorded yet."] /\
  existsb (contains "N/A") (view_student_report py_repr LeftToRight no_grades "A")
    = false.
Proof. repeat split. Qed.

(** ** What every run of the menus preserves *)

Lemma input_cases (Q : control -> Prop) (prompt : string) (w : world)
    (k : string -> world -> control) :
  (forall w', student_data w' = student_data w -> Q (Halt EOFError w')) ->
  (forall line w', student_data w' = student_data w -> Q (k line w')) ->
  Q (input prompt w k).
Proof.
  intros Heof Hk. unfold input.
  destruct (stdin w) as [|line rest]; [apply Heof | apply Hk]; reflexivity.
Qed.

Section MenuInvariant.
Variable float_repr : float -> string.
Variable alg : sum_algorithm.
(** A property of [student_data] kept by the four updating operations. *)
Variable P : Store -> Prop.
Hypothesis P_add_student :
  forall st name, P st -> P (fst (add_student st name)).
Hypothesis P_add_grade :
  forall st name subject raw,
    P st -> P (fst (add_grade float_repr st name subject raw)).
Hypothesis P_delete_student :
  forall st name, P st -> P (fst (delete_student st name)).
Hypothesis P_delete_grade :
  forall st name subject, P st -> P (fst (delete_grade st name subject)).


Lemma holds_eq w w' : student_data w' = student_data w -> holds_in P w -> holds_in P w'.
Proof. unfold holds_in. intros ->. auto. Qed.

Lemma holds_print lines w : holds_in P w -> holds_in P (print lines w).
Proof. auto. Qed.

Lemma holds_update op w :
  (forall st, P st -> P (fst (op st))) -> holds_in P w -> holds_in P (update op w).
Proof.
  unfold holds_in, update. intros Hop Hw.
  specialize (Hop _ Hw). destruct (op (student_data w)). exact Hop.
Qed.

Lemma delete_menu_holds fuel w :
  holds_in P w -> holds_in P (world_of (delete_menu fuel w)).
Proof.
  revert w. induction fuel as [|fuel IH]; intros w Hw; simpl; [exact Hw|].
  apply input_cases; [intros w' E; exact (holds_eq _ _ E Hw)|].
  intros choice w1 E1. pose proof (holds_eq _ _ E1 Hw) as H1.
  destruct (choice =? "1").
  { apply input_cases; [intros w' E; exact (holds_eq _ _ E H1)|].
    intros name w2 E2. apply IH, holds_update; [auto|].
    exact (holds_eq _ _ E2 H1). }
  destruct (choice =? "2").
  { apply input_cases; [intros w' E; exact (holds_eq _ _ E H1)|].
    intros name w2 E2. pose proof (holds_eq _ _ E2 H1) as H2.
    apply input_cases; [intros w' E; exact (holds_eq _ _ E H2)|].
    intros subject w3 E3. apply IH, holds_update; [auto|].
    exact (holds_eq _ _ E3 H2). }
  destruct (choice =? "3"); [exact H1|].
  apply IH, holds_print, H1.
Qed.

Lemma main_loop_holds fuel w :
  holds_in P w -> holds_in P (snd (main_loop float_repr alg fuel w)).
Proof.
  revert w. induction fuel as [|fuel IH]; intros w Hw; simpl; [exact Hw|].
  apply input_cases; [intros w' E; exact (holds_eq _ _ E Hw)|].
  intros choice w1 E1. pose proof (holds_eq _ _ E1 Hw) as H1.
  destruct (choice =? "1").
  { apply input_cases; [intros w' E; exact (holds_eq _ _ E H1)|].
    intros name w2 E2. apply IH, holds_update; [auto|].
    exact (holds_eq _ _ E2 H1). }
  destruct (choice =? "2").
  { apply input_cases; [intros w' E; exact (holds_eq _ _ E H1)|].
    intros name w2 E2. pose proof (holds_eq _ _ E2 H1) as H2.
    apply input_cases; [intros w' E; exact (holds_eq _ _ E H2)|].
    intros subject w3 E3. pose proof (holds_eq _ _ E3 H2) as H3.
    apply input_cases; [intros w' E; exact (holds_eq _ _ E H3)|].
    intros grade w4 E4. apply IH, holds_update; [auto|].
    exact (holds_eq _ _ E4 H3). }
  destruct (choice =? "3").
  { apply input_cases; [intros w' E; exact (holds_eq _ _ E H1)|].
    intros name w2 E2. apply IH, holds_print. exact (holds_eq _ _ E2 H1). }
  destruct (choice =? "4").
  { apply input_cases; [intros w' E; exact (holds_eq _ _ E H1)|].
    intros subject w2 E2. pose proof (holds_eq _ _ E2 H1) as H2.
    destruct (calculate_class_subject_average (student_data w2) subject) as [s|x].
    - repeat (destruct s as [|[[] [] [] [] [] [] [] []] s];
              try (apply IH, holds_print, H2)).
    - apply IH, holds_print, H2. }
  destruct (choice =? "5").
  { apply IH, holds_print.
    destruct (student_data w1) eqn:Est; repeat apply holds_print; exact H1. }
  destruct (choice =? "6").
  { pose proof (delete_menu_holds fuel w1 H1) as Hd.
    destruct (delete_menu fuel w1) as [w2|e w2]; [apply IH|]; exact Hd. }
  destruct (choice =? "7"); [exact H1|].
  apply IH, holds_print, H1.
Qed.

Lemma main_menu_holds fs inputs :
  P [] ->
  (forall st, persisted_store fs = Some st -> P st) ->
  holds_in P (snd (main_menu float_repr alg fs inputs)).
Proof.
  intros Hnil Hfile. unfold main_menu, load_data.
  unfold persisted_store in Hfile.
  destruct (fs FILE_NAME) as [text|]; [|apply main_loop_holds, Hnil].
  destruct (json_loads text) as [j| |]; [|apply main_loop_holds, Hnil|exact Hnil].
  destruct (store_of_json j) as [st|]; [|exact Hnil].
  apply main_loop_holds, Hfile. reflexivity.
Qed.
End MenuInvariant.

(** C4, amended. Each of the four updating operations keeps every stored
    grade between 0 and 100, and startup begins with the empty dictionary
    when the data file is missing or cannot be decoded.  A data file that
    decodes is taken as it is, without a range check.  So every state a run
    of the menus reaches has its grades between 0 and 100 provided the
    grades in the data file, if it decodes, are. *)
Theorem scores_in_range_invariant (float_repr : float -> string)
    (alg : sum_algorithm) :
  (forall st name,
     scores_in_range st -> scores_in_range (fst (add_student st name))) /\
  (forall st name subject raw,
     scores_in_range st ->
     scores_in_range (fst (add_grade float_repr st name subject raw))) /\
  (forall st name,
     scores_in_range st -> scores_in_range (fst (delete_student st name))) /\
  (forall st name subject,
     scores_in_range st -> scores_in_range (fst (delete_grade st name subject))) /\
  (forall fs st0,
     fs FILE_NAME = None -> exists out, load_data fs st0 = Some (st0, out)) /\
  (forall fs st0 text,
     fs FILE_NAME = Some text -> json_loads text = DecodeError ->
     exists out, load_data fs st0 = Some ([], out)) /\
  (forall fs st0 st,
     persisted_store fs = Some st -> exists out, load_data fs st0 = Some (st, out)) /\
  (forall fs inputs,
     (forall st, persisted_store fs = Some st -> scores_in_range st) ->
     scores_in_range (student_data (snd (main_menu float_repr alg fs inputs)))).
Proof.
  assert (Hadd : forall st name subject raw,
             scores_in_range st ->
             scores_in_range (fst (add_grade float_repr st name subject raw))).
  { intros st name subject raw. apply all_scores_add_grade. auto. }
  repeat apply conj.
  - intros st name. apply all_scores_add_student.
  - exact Hadd.
  - intros st name. apply all_scores_delete_student.
  - intros st name subject. apply all_scores_delete_grade.
  - intros fs st0 H. unfold load_data. rewrite H. eauto.
  - intros fs st0 text H1 H2. unfold load_data. rewrite H1, H2. eauto.
  - intros fs st0 st. unfold persisted_store, load_data.
    destruct (fs FILE_NAME) as [text|]; [|discriminate].
    destruct (json_loads text) as [j| |]; try discriminate.
    intros ->. eauto.
  - intros fs inputs Hfile.
    apply (main_menu_holds float_repr alg scores_in_range); auto.
    + intros st name. apply all_scores_add_student.
    + intros st name. apply all_scores_delete_student.
    + intros st name subject. apply all_scores_delete_grade.
    + constructor.
Qed.

(** C4 as stated fails at startup: a data file with the grade 150 is loaded
    as it is, and the run starts from a dictionary that holds 150. *)
Lemma load_data_out_of_range_counterexample :
  load_data file_with_150 [] =
    Some ([("A", [("Math", float_of_Z 150)])],
          ["Data loaded successfully from student_grades.json."]) /\
  student_data (snd (main_menu py_repr LeftToRight file_with_150 [])) =
    [("A", [("Math", float_of_Z 150)])] /\
  ~ scores_in_range [("A", [("Math", float_of_Z 150)])].
Proof.
  split; [vm_compute; reflexivity|]. split; [vm_compute; reflexivity|].
  intros H. inversion H as [|item rest Hitem _]; subst.
  inversion Hitem as [|g gs Hg _]; subst.
  vm_compute in Hg. discriminate.
Qed.

(** ** Saving and loading *)

Lemma str_app_assoc (a b c : string) : (a ++ b) ++ c = a ++ (b ++ c).
Proof. induction a as [|x a IH]; simpl; [reflexivity | now rewrite IH]. Qed.

Lemma str_app_nil_r (a : string) : a ++ EmptyString = a.
Proof. induction a as [|x a IH]; simpl; [reflexivity | now rewrite IH]. Qed.

Lemma str_length_app (a b : string) :
  String.length (a ++ b) = String.length a + String.length b.
Proof. induction a as [|x a IH]; simpl; [reflexivity | now rewrite IH]. Qed.

Lemma skip_ws_spaces (n : nat) (t : string) : skip_ws (spaces n ++ t) = skip_ws t.
Proof. induction n as [|n IH]; simpl; [reflexivity | exact IH]. Qed.

Lemma skip_ws_newline_indent (level : nat) (t : string) :
  skip_ws (newline_indent level ++ t) = skip_ws t.
Proof. unfold newline_indent. simpl. apply skip_ws_spaces. Qed.

Lemma scanstring_encode_char (c : ascii) (t : string) :
  scanstring (encode_char c ++ t) = cons_char c (scanstring t).
Proof.
  destruct c as [[] [] [] [] [] [] [] []]; reflexivity.
Qed.

Lemma scanstring_encode_chars (s t : string) :
  scanstring (encode_chars s ++ String dquote t) = Decoded (s, t).
Proof.
  induction s as [|c s IH]; simpl.
  - reflexivity.
  - rewrite str_app_assoc, scanstring_encode_char, IH. reflexivity.
Qed.

Lemma parse_members_last (fuel : nat) (k body : string) (acc : dict json)
    (v : json) (level : nat) (rest : string) :
  parse_value fuel (skip_ws body) =
    Decoded (v, newline_indent level ++ String "}" rest) ->
  parse_members (S fuel)
    (encode_chars k ++ String dquote (String ":" (String " " body))) acc =
    Decoded (JObj (dict_set acc k v), rest).
Proof.
  intros Hv. cbn [parse_members].
  rewrite scanstring_encode_chars. cbn [bind].
  change (skip_ws (String ":" (String " " body)))
    with (String ":" (String " " body)).
  cbv iota beta.
  change (skip_ws (String " " body)) with (skip_ws body).
  rewrite Hv. cbn [bind].
  rewrite skip_ws_newline_indent. reflexivity.
Qed.

Lemma parse_members_more (fuel : nat) (k body : string) (acc : dict json)
    (v : json) (level : nat) (t : string) :
  parse_value fuel (skip_ws body) =
    Decoded (v, String "," (newline_indent level ++ String dquote t)) ->
  parse_members (S fuel)
    (encode_chars k ++ String dquote (String ":" (String " " body))) acc =
    parse_members fuel t (dict_set acc k v).
Proof.
  intros Hv. cbn [parse_members].
  rewrite scanstring_encode_chars. cbn [bind].
  change (skip_ws (String ":" (String " " body)))
    with (String ":" (String " " body)).
  cbv iota beta.
  change (skip_ws (String " " body)) with (skip_ws body).
  rewrite Hv. cbn [bind].
  change (skip_ws (String "," (newline_indent level ++ String dquote t)))
    with (String "," (newline_indent level ++ String dquote t)).
  cbv iota beta.
  rewrite skip_ws_newline_indent. reflexivity.
Qed.

Section DecodeDict.
Context {V : Type}.
Variable enc : V -> string.
Variable to_json : V -> json.
Variable cost : V -> nat.
Variable ok : V -> Prop.
(** An encoded value is decoded where the encoder puts it. *)
Hypothesis decode_value :
  forall v fuel c rest,
    ok v -> cost v < fuel -> c = ","%char \/ c = newline ->
    parse_value fuel (skip_ws (enc v ++ String c rest)) =
      Decoded (to_json v, String c rest).

Lemma encode_items_cons (sep : string) (k : string) (v : V) (r : dict V)
    (x : string) :
  encode_items enc sep ((k, v) :: r) ++ x =
    String dquote
      (encode_chars k ++
       String dquote
         (String ":" (String " "
            (enc v ++
             match r with
             | [] => x
             | _ => sep ++ encode_items enc sep r ++ x
             end)))).
Proof.
  cbn [encode_items]. unfold encode_basestring_ascii.
  cbn [append]. rewrite !str_app_assoc. cbn [append].
  rewrite !str_app_assoc.
  destruct r; [reflexivity|]. now rewrite !str_app_assoc.
Qed.

Lemma parse_members_encode_items (level : nat) (rest : string) :
  forall (d : dict V) (k : string) (v : V) (acc : dict json) (fuel : nat),
    Forall (fun item => ok (snd item)) ((k, v) :: d) ->
    NoDup (keys acc ++ keys ((k, v) :: d)) ->
    members_cost cost ((k, v) :: d) <= fuel ->
    parse_members fuel
      (encode_chars k ++
       String dquote
         (String ":" (String " "
            (enc v ++
             match d with
             | [] => newline_indent level ++ String "}" rest
             | _ =>
                 ("," ++ newline_indent (S level)) ++
                 encode_items enc ("," ++ newline_indent (S level)) d ++
                 newline_indent level ++ String "}" rest
             end)))) acc =
      Decoded (JObj (acc ++ json_members to_json ((k, v) :: d))%list, rest).
Proof.
  induction d as [|[k' v'] r IH]; intros k v acc fuel Hok Hnd Hfuel;
    (destruct fuel as [|fuel]; [simpl in Hfuel; lia|]);
    inversion Hok as [|? ? Hv Hok']; subst; simpl in Hv.
  - rewrite (parse_members_last fuel k _ acc (to_json v) level rest).
    + rewrite dict_set_absent; [reflexivity|].
      apply dict_mem_false, dict_get_None_keys.
      simpl in Hnd. apply NoDup_remove_2 in Hnd.
      intros Hin. apply Hnd. rewrite app_nil_r. exact Hin.
    + unfold newline_indent. cbn [append].
      apply decode_value; [assumption | simpl in Hfuel; lia | now right].
  - cbv iota beta. rewrite str_app_assoc. cbn [append].
    rewrite encode_items_cons.
    assert (Hk : dict_mem acc k = false).
    { apply dict_mem_false, dict_get_None_keys.
      simpl in Hnd. apply NoDup_remove_2 in Hnd.
      intros Hin. apply Hnd. apply in_or_app. now left. }
    etransitivity.
    { apply (parse_members_more fuel k _ acc (to_json v) (S level)).
      apply decode_value; [assumption | simpl in Hfuel; lia | now left]. }
    rewrite dict_set_absent by exact Hk.
    rewrite IH.
    + rewrite <- app_assoc. reflexivity.
    + assumption.
    + unfold keys. rewrite map_app, <- app_assoc. exact Hnd.
    + simpl in Hfuel. simpl. lia.
Qed.

Lemma parse_value_encode_dict (level : nat) (rest : string) (d : dict V)
    (fuel : nat) :
  Forall (fun item => ok (snd item)) d ->
  wf_dict d ->
  members_cost cost d < fuel ->
  parse_value fuel (encode_dict enc level d ++ rest) =
    Decoded (JObj (json_members to_json d), rest).
Proof.
  intros Hok Hwf Hfuel. destruct fuel as [|fuel]; [lia|].
  destruct d as [|[k v] r]; [reflexivity|].
  unfold encode_dict. rewrite !str_app_assoc. cbn [append].
  cbn [parse_value].
  change (Ascii.eqb "{" dquote) with false.
  change (Ascii.eqb "{" "{") with true. cbv iota.
  rewrite skip_ws_newline_indent, encode_items_cons.
  change (skip_ws (String dquote ?t)) with (String dquote t).
  cbv iota beta.
  change (Ascii.eqb dquote "}") with false.
  change (Ascii.eqb dquote dquote) with true. cbv iota.
  apply (parse_members_encode_items level rest r k v [] fuel);
    [assumption | exact Hwf | lia].
Qed.
End DecodeDict.

Section RoundTrip.
Variable float_repr : float -> string.

Lemma decode_floatstr (x : float) (fuel : nat) (c : ascii) (rest : string) :
  printable float_repr x -> 0 < fuel -> c = ","%char \/ c = newline ->
  parse_value fuel (skip_ws (floatstr float_repr x ++ String c rest)) =
    Decoded (JFloat x, String c rest).
Proof.
  intros Hx Hfuel Hc. destruct fuel as [|fuel]; [lia|].
  destruct x as [s|[|]| |s m e]; try reflexivity;
    apply Hx; auto.
Qed.

Lemma decode_grades (subjects : dict float) (fuel : nat) (c : ascii)
    (rest : string) :
  wf_dict subjects /\ Forall (fun g => printable float_repr (snd g)) subjects ->
  members_cost (fun _ : float => 0) subjects < fuel ->
  c = ","%char \/ c = newline ->
  parse_value fuel
    (skip_ws (encode_dict (floatstr float_repr) 1 subjects ++ String c rest)) =
    Decoded (JObj (json_of_grades subjects), String c rest).
Proof.
  intros [Hwf Hok] Hfuel _.
  replace (skip_ws (encode_dict (floatstr float_repr) 1 subjects ++ String c rest))
    with (encode_dict (floatstr float_repr) 1 subjects ++ String c rest)
    by (destruct subjects; reflexivity).
  apply (parse_value_encode_dict (floatstr float_repr) JFloat (fun _ => 0)
           (printable float_repr));
    try assumption.
  intros v f c' rest' Hv Hf Hc'. apply decode_floatstr; assumption.
Qed.

Lemma grades_of_json_of_grades (subjects : dict float) :
  grades_of_json (json_of_grades subjects) = Some subjects.
Proof.
  induction subjects as [|[k x] r IH]; simpl; [reflexivity|].
  fold (json_of_grades r). now rewrite IH.
Qed.

Lemma store_of_json_of_store (st : Store) :
  store_of_json (json_of_store st) = Some st.
Proof.
  unfold json_of_store, store_of_json.
  induction st as [|[k subjects] r IH]; simpl; [reflexivity|].
  fold (json_of_students r). now rewrite grades_of_json_of_grades, IH.
Qed.

Lemma members_cost_le_length {V : Type} (enc : V -> string) (cost : V -> nat)
    (sep : string) (d : dict V) :
  (forall v, cost v <= String.length (enc v)) ->
  members_cost cost d <= String.length (encode_items enc sep d).
Proof.
  intros Hcost. induction d as [|[k v] r IH]; [simpl; lia|].
  cbn [members_cost encode_items]. unfold encode_basestring_ascii.
  cbn [String.length]. rewrite !str_length_app. specialize (Hcost v).
  destruct r as [|item r'].
  - cbn [members_cost]. name_lengths. lia.
  - rewrite !str_length_app. name_lengths. lia.
Qed.

Lemma members_cost_le_dict {V : Type} (enc : V -> string) (cost : V -> nat)
    (level : nat) (d : dict V) :
  (forall v, cost v <= String.length (enc v)) ->
  members_cost cost d <= String.length (encode_dict enc level d).
Proof.
  intros Hcost. destruct d as [|item r]; [simpl; lia|].
  unfold encode_dict. rewrite !str_length_app.
  pose proof (members_cost_le_length enc cost
                ("," ++ newline_indent (S level)) (item :: r) Hcost).
  name_lengths. lia.
Qed.

Lemma json_loads_dumps (st : Store) :
  wf_store st ->
  all_scores (printable float_repr) st ->
  json_loads (json_dumps float_repr st) = Decoded (json_of_store st).
Proof.
  intros [Hwf Hwfs] Hok. unfold json_loads, json_dumps.
  replace (skip_ws (encode_dict (encode_dict (floatstr float_repr) 1) 0 st))
    with (encode_dict (encode_dict (floatstr float_repr) 1) 0 st ++ EmptyString)
    by (rewrite str_app_nil_r; destruct st; reflexivity).
  rewrite (parse_value_encode_dict (encode_dict (floatstr float_repr) 1)
             (fun subjects => JObj (json_of_grades subjects))
             (members_cost (fun _ => 0))
             (fun subjects => wf_dict subjects /\
                              Forall (fun g => printable float_repr (snd g)) subjects)).
  - reflexivity.
  - intros v fuel c rest. apply decode_grades.
  - apply Forall_forall. intros item Hin. split.
    + rewrite Forall_forall in Hwfs. auto.
    + unfold all_scores in Hok. rewrite Forall_forall in Hok. auto.
  - exact Hwf.
  - pose proof (members_cost_le_dict (encode_dict (floatstr float_repr) 1)
                  (members_cost (fun _ => 0)) 0 st) as Hlen.
    assert (members_cost (members_cost (fun _ : float => 0)) st
            <= String.length (encode_dict (encode_dict (floatstr float_repr) 1) 0 st)).
    { apply Hlen. intros v. apply members_cost_le_dict. intros; lia. }
    name_lengths. lia.
Qed.
End RoundTrip.

(** ** The fuel of the menus is enough *)

Lemma input_lines (Q : control -> Prop) (prompt : string) (w : world)
    (k : string -> world -> control) :
  (forall w', Q (Halt EOFError w')) ->
  (forall line rest w',
     stdin w = line :: rest -> stdin w' = rest -> Q (k line w')) ->
  Q (input prompt w k).
Proof.
  intros Heof Hk. unfold input.
  destruct (stdin w) as [|line rest] eqn:E; [apply Heof|].
  apply (Hk line rest); reflexivity.
Qed.

Lemma stdin_update (op : Store -> Store * list string) (w : world) :
  stdin (update op w) = stdin w.
Proof. unfold update. destruct (op (student_data w)). reflexivity. Qed.

(** [delete_menu] with more fuel than there are input lines does not run
    out of fuel, and it has read at least one line when it returns. *)
Lemma delete_menu_fuel (fuel : nat) (w : world) :
  List.length (stdin w) < fuel ->
  match delete_menu fuel w with
  | Next w' => List.length (stdin w') < List.length (stdin w)
  | Halt e _ => e <> OutOfFuel
  end.
Proof.
  revert w. induction fuel as [|fuel IH]; intros w Hlt; [lia|].
  cbn [delete_menu].
  assert (Hstep : forall w2,
             S (List.length (stdin w2)) < List.length (stdin w) + 1 ->
             match delete_menu fuel w2 with
             | Next w' => List.length (stdin w') < List.length (stdin w)
             | Halt e _ => e <> OutOfFuel
             end).
  { intros w2 H2. specialize (IH w2 ltac:(lia)).
    destruct (delete_menu fuel w2); [lia | exact IH]. }
  apply input_lines; [intros; discriminate|].
  intros choice r1 w1 E1 H1. cbn [stdin print] in E1.
  destruct (choice =? "1").
  { apply input_lines; [intros; discriminate|].
    intros name r2 w2 E2 H2. apply Hstep.
    rewrite stdin_update, H2, E1. rewrite H1 in E2. rewrite E2. simpl. lia. }
  destruct (choice =? "2").
  { apply input_lines; [intros; discriminate|].
    intros name r2 w2 E2 H2.
    apply input_lines; [intros; discriminate|].
    intros subject r3 w3 E3 H3. apply Hstep.
    rewrite stdin_update, H3, E1. rewrite H1 in E2. rewrite H2 in E3.
    rewrite E2, E3. simpl. lia. }
  destruct (choice =? "3"); [rewrite H1, E1; simpl; lia|].
  apply Hstep. cbn [stdin print]. rewrite H1, E1. simpl. lia.
Qed.

Lemma main_loop_fuel (float_repr : float -> string) (alg : sum_algorithm)
    (fuel : nat) (w : world) :
  List.length (stdin w) < fuel ->
  fst (main_loop float_repr alg fuel w) <> OutOfFuel.
Proof.
  revert w. induction fuel as [|fuel IH]; intros w Hlt; [lia|].
  cbn [main_loop].
  assert (Hstep : forall w2,
             S (List.length (stdin w2)) < List.length (stdin w) + 1 ->
             fst (main_loop float_repr alg fuel w2) <> OutOfFuel).
  { intros w2 H2. apply IH. lia. }
  apply input_lines; [intros; discriminate|].
  intros choice r1 w1 E1 H1. cbn [stdin print] in E1.
  destruct (choice =? "1").
  { apply input_lines; [intros; discriminate|].
    intros name r2 w2 E2 H2. apply Hstep.
    rewrite stdin_update, H2, E1. rewrite H1 in E2. rewrite E2. simpl. lia. }
  destruct (choice =? "2").
  { apply input_lines; [intros; discriminate|].
    intros name r2 w2 E2 H2.
    apply input_lines; [intros; discriminate|].
    intros subject r3 w3 E3 H3.
    apply input_lines; [intros; discriminate|].
    intros grade r4 w4 E4 H4. apply Hstep.
    rewrite stdin_update, H4, E1. rewrite H1 in E2. rewrite H2 in E3.
    rewrite H3 in E4. rewrite E2, E3, E4. simpl. lia. }
  destruct (choice =? "3").
  { apply input_lines; [intros; discriminate|].
    intros name r2 w2 E2 H2. apply Hstep.
    cbn [stdin print]. rewrite H2, E1. rewrite H1 in E2. rewrite E2. simpl. lia. }
  destruct (choice =? "4").
  { apply input_lines; [intros; discriminate|].
    intros subject r2 w2 E2 H2.
    assert (Hw2 : S (List.length (stdin w2)) < List.length (stdin w) + 1).
    { rewrite H2, E1. rewrite H1 in E2. rewrite E2. simpl. lia. }
    destruct (calculate_class_subject_average (student_data w2) subject) as [s|x].
    - repeat (destruct s as [|[[] [] [] [] [] [] [] []] s];
              try (apply Hstep; exact Hw2)).
    - apply Hstep. exact Hw2. }
  destruct (choice =? "5").
  { apply Hstep. cbn [stdin print student_data].
    destruct (student_data w1); cbn [stdin print]; rewrite H1, E1; simpl; lia. }
  destruct (choice =? "6").
  { pose proof (delete_menu_fuel fuel w1) as Hd.
    rewrite H1 in Hd. specialize (Hd ltac:(rewrite E1 in Hlt; simpl in Hlt; lia)).
    destruct (delete_menu fuel w1) as [w2|e w2]; [|exact Hd].
    apply Hstep. rewrite E1. simpl. lia. }
  destruct (choice =? "7").
  { unfold save_data. discriminate. }
  apply Hstep. cbn [stdin print]. rewrite H1, E1. simpl. lia.
Qed.

(** A run of [main_menu] ends by [sys.exit()], at the end of the input, or
    on a data file outside the model: never for lack of fuel. *)
Lemma main_menu_fuel (float_repr : float -> string) (alg : sum_algorithm)
    (fs : filesystem) (inputs : list string) :
  fst (main_menu float_repr alg fs inputs) <> OutOfFuel.
Proof.
  unfold main_menu.
  destruct (load_data fs _) as [[st lines]|]; [|discriminate].
  apply main_loop_fuel. simpl. lia.
Qed.

(** ** The dictionaries a run reaches have distinct keys *)

Lemma wf_store_add_student st name :
  wf_store st -> wf_store (fst (add_student st name)).
Proof.
  unfold add_student. intros [Hwf Hin].
  destruct (dict_mem st name); [now split|]. split.
  - now apply wf_dict_set.
  - apply Forall_dict_set; [assumption|]. intros k. constructor.
Qed.

Lemma wf_store_set_grade st name subject x :
  wf_store st -> wf_store (set_grade st name subject x).
Proof.
  unfold set_grade. intros [Hwf Hin].
  destruct (dict_get st name) as [gs|] eqn:Hgs; [|now split]. split.
  - now apply wf_dict_set.
  - apply Forall_dict_set; [assumption|]. intros k. simpl.
    apply wf_dict_set. apply (Forall_dict_get _ st name gs Hin Hgs).
Qed.

Lemma wf_store_add_grade float_repr st name subject raw :
  wf_store st -> wf_store (fst (add_grade float_repr st name subject raw)).
Proof.
  intros H.
  destruct (dict_mem st name) eqn:Hm;
    [|rewrite add_grade_rejects; auto].
  destruct (py_float raw) as [x|] eqn:Hp;
    [|rewrite add_grade_rejects; auto].
  destruct (in_range x) eqn:Hx.
  - rewrite (add_grade_accepts float_repr st name subject raw x) by assumption.
    now apply wf_store_set_grade.
  - rewrite add_grade_rejects; [assumption|]. right; right; eauto.
Qed.

Lemma wf_store_delete_student st name :
  wf_store st -> wf_store (fst (delete_student st name)).
Proof.
  unfold delete_student. intros [Hwf Hin].
  destruct (dict_mem st name); [|now split]. split.
  - now apply wf_dict_del.
  - now apply Forall_dict_del.
Qed.

Lemma wf_store_delete_grade st name subject :
  wf_store st -> wf_store (fst (delete_grade st name subject)).
Proof.
  unfold delete_grade. intros [Hwf Hin].
  destruct (dict_get st name) as [gs|] eqn:Hgs; [|now split].
  destruct (dict_mem gs subject); [|now split]. split.
  - now apply wf_dict_set.
  - apply Forall_dict_set; [assumption|]. intros k. simpl.
    apply wf_dict_del. apply (Forall_dict_get _ st name gs Hin Hgs).
Qed.

(** *** The decoder builds dictionaries with distinct keys *)

Lemma parse_items_array (fuel : nat) :
  forall s acc j r,
    parse_items fuel s acc = Decoded (j, r) -> exists items, j = JArr items.
Proof.
  induction fuel as [|fuel IH]; intros s acc j r; [discriminate|].
  cbn [parse_items].
  destruct (parse_value fuel s) as [[v r1]| |]; cbn [bind]; try discriminate.
  destruct (skip_ws r1) as [|[[] [] [] [] [] [] [] []] r2];
    try discriminate; first [ apply IH | intros [= <- <-]; eauto ].
Qed.

Lemma scan_number_scalar (s : string) (j : json) (r : string) :
  scan_number s = Decoded (j, r) -> wf_doc j.
Proof.
  unfold scan_number.
  repeat match goal with
         | |- context [match ?x with _ => _ end] => destruct x
         end;
    first [ discriminate | intros [= <- <-]; exact I ].
Qed.

Lemma parse_wf (fuel : nat) :
  (forall s j r, parse_value fuel s = Decoded (j, r) -> wf_doc j) /\
  (forall s acc j r,
     parse_members fuel s acc = Decoded (j, r) ->
     wf_dict acc -> Forall (fun item => wf_top (snd item)) acc -> wf_doc j).
Proof.
  induction fuel as [|fuel [IHv IHm]]; [split; discriminate|]. split.
  - intros s j r. cbn [parse_value].
    destruct s as [|c s]; [discriminate|].
    destruct (Ascii.eqb c dquote).
    { destruct (scanstring s) as [[str r']| |]; cbn [bind];
        first [ discriminate | intros [= <- <-]; exact I ]. }
    destruct (Ascii.eqb c "{").
    { destruct (skip_ws s) as [|c1 r1]; [discriminate|].
      destruct (Ascii.eqb c1 "}").
      - intros [= <- <-]. split; constructor.
      - destruct (Ascii.eqb c1 dquote); [|discriminate].
        intros H. apply (IHm _ _ _ _ H); constructor. }
    destruct (Ascii.eqb c "[").
    { destruct (skip_ws s) as [|[[] [] [] [] [] [] [] []] r1];
        first [ intros [= <- <-]; exact I
              | intros H; apply parse_items_array in H;
                destruct H as [items ->]; exact I ]. }
    destruct (strip_prefix "null" (String c s));
      [intros [= <- <-]; exact I|].
    destruct (strip_prefix "true" (String c s));
      [intros [= <- <-]; exact I|].
    destruct (strip_prefix "false" (String c s));
      [intros [= <- <-]; exact I|].
    apply scan_number_scalar.
  - intros s acc j r. cbn [parse_members].
    destruct (scanstring s) as [[key r0]| |]; cbn [bind]; try discriminate.
    intros H Hwf Hacc.
    destruct (skip_ws r0) as [|[[] [] [] [] [] [] [] []] r1]; try discriminate H.
    destruct (parse_value fuel (skip_ws r1)) as [[v r2]| |] eqn:Hv;
      cbn [bind] in H; try discriminate H.
    assert (Hwf' : wf_dict (dict_set acc key v)) by now apply wf_dict_set.
    assert (Hacc' : Forall (fun item => wf_top (snd item)) (dict_set acc key v)).
    { apply Forall_dict_set; [assumption|]. intros k. simpl.
      specialize (IHv _ _ _ Hv). destruct v; try exact I. exact (proj1 IHv). }
    destruct (skip_ws r2) as [|[[] [] [] [] [] [] [] []] r3];
      first [ discriminate H
            | injection H as <- <-; split; assumption
            | destruct (skip_ws r3) as [|c4 r4]; [discriminate H|];
              destruct (Ascii.eqb c4 dquote); [|discriminate H];
              apply (IHm _ _ _ _ H); assumption ].
Qed.

Lemma grades_of_json_keys (ms : dict json) (gs : dict float) :
  grades_of_json ms = Some gs -> keys gs = keys ms.
Proof.
  revert gs. induction ms as [|[k v] r IH]; intros gs; simpl.
  - now intros [= <-].
  - destruct v; try discriminate.
    destruct (grades_of_json r) as [gs'|]; [|discriminate].
    intros [= <-]. simpl. now rewrite (IH gs').
Qed.

Lemma students_of_json_wf (ms : dict json) (st : Store) :
  students_of_json ms = Some st ->
  Forall (fun item => wf_top (snd item)) ms ->
  keys st = keys ms /\ Forall (fun item => wf_dict (snd item)) st.
Proof.
  revert st. induction ms as [|[k v] r IH]; intros st; simpl.
  - intros [= <-] _. split; [reflexivity | constructor].
  - destruct v; try discriminate.
    destruct (grades_of_json members) as [gs|] eqn:Hgs; [|discriminate].
    destruct (students_of_json r) as [st'|]; [|discriminate].
    intros [= <-] Hall. inversion Hall as [|? ? Hv Hr]; subst.
    destruct (IH st' eq_refl Hr) as [Hk Hf]. split.
    + simpl. now rewrite Hk.
    + constructor; [|assumption]. simpl. unfold wf_dict.
      rewrite (grades_of_json_keys _ _ Hgs). exact Hv.
Qed.

(** Whatever the data file holds, the dictionary loaded from it has
    distinct student names and, per student, distinct subjects. *)
Lemma wf_store_persisted (fs : filesystem) (st : Store) :
  persisted_store fs = Some st -> wf_store st.
Proof.
  unfold persisted_store, json_loads.
  destruct (fs FILE_NAME) as [text|]; [|discriminate].
  destruct (parse_value _ _) as [[j r]| |] eqn:Hp; cbn [bind]; try discriminate.
  destruct (skip_ws r); [|discriminate].
  apply (proj1 (parse_wf _)) in Hp.
  destruct j; try discriminate. cbn [store_of_json]. intros Hst.
  destruct Hp as [Hwf Hall].
  destruct (students_of_json_wf _ _ Hst Hall) as [Hk Hf].
  split; [|exact Hf]. unfold wf_dict. now rewrite Hk.
Qed.

(** Every run ends in a dictionary with distinct student names and, per
    student, distinct subjects. *)
Lemma wf_store_main_menu float_repr alg fs inputs :
  wf_store (student_data (snd (main_menu float_repr alg fs inputs))).
Proof.
  apply (main_menu_holds float_repr alg wf_store).
  - apply wf_store_add_student.
  - intros st name subject raw. apply wf_store_add_grade.
  - apply wf_store_delete_student.
  - apply wf_store_delete_grade.
  - split; constructor.
  - apply wf_store_persisted.
Qed.

(** [py_repr] prints every whole grade from 0 to 100 as a numeral that
    reads back. *)
Lemma py_repr_reads_back_whole (n : nat) :
  n <= 100 -> reads_back py_repr (float_of_Z (Z.of_nat n)).
Proof.
  do 101 (destruct n as [|n];
          [intros _ fuel c rest [-> | ->]; vm_compute; reflexivity|]).
  intros H. lia.
Qed.

(** * Floats as numbers

    What the float operations of the script compute, in exact rational
    arithmetic: every rounding of [SpecFloat] used by the model returns the
    double nearest to the exact result ([rounds]).  From this, [repr] prints
    every double as a numeral that reads back as that double, and the float
    sum and mean of whole-number grades are the exact ones. *)

(** ** Powers of two and rounding positions *)

Section Rounding.
Local Open Scope Q_scope.

Lemma two_neq_0 : ~ 2 == 0.
Proof. intros H. discriminate H. Qed.

Lemma bpow_pos e : 0 < bpow e.
Proof. apply Qpower_0_lt. reflexivity. Qed.

Lemma bpow_add a b : bpow (a + b) == bpow a * bpow b.
Proof. apply Qpower_plus. exact two_neq_0. Qed.

Lemma bpow_0 : bpow 0 == 1.
Proof. reflexivity. Qed.

Lemma bpow_1 : bpow 1 == 2.
Proof. reflexivity. Qed.

Lemma bpow_m1 : bpow (-1) == 1#2.
Proof. reflexivity. Qed.

Lemma bpow_succ e : bpow (e + 1) == 2 * bpow e.
Proof. rewrite bpow_add, bpow_1. ring. Qed.

Lemma bpow_pred e : bpow (e - 1) == (1#2) * bpow e.
Proof.
  replace (e - 1)%Z with (e + -1)%Z by ring.
  rewrite bpow_add, bpow_m1. ring.
Qed.

Lemma bpow_lt a b : (a < b)%Z -> bpow a < bpow b.
Proof. intros H. apply Qpower_lt_compat_l; [exact H | reflexivity]. Qed.

Lemma bpow_le a b : (a <= b)%Z -> bpow a <= bpow b.
Proof. intros H. apply Qpower_le_compat_l; [exact H | discriminate]. Qed.

Lemma bpow_lt_inv a b : bpow a < bpow b -> (a < b)%Z.
Proof. intros H. apply (Qpower_lt_compat_l_inv 2); [exact H | reflexivity]. Qed.

Lemma bpow_le_inv a b : bpow a <= bpow b -> (a <= b)%Z.
Proof. intros H. apply (Qpower_le_compat_l_inv 2); [exact H | reflexivity]. Qed.

Lemma bpow_Z k : (0 <= k)%Z -> bpow k == inject_Z (2 ^ k).
Proof. intros H. unfold bpow. now rewrite Zpower_Qpower. Qed.

Lemma bpow_opp_mul e : bpow e * bpow (- e) == 1.
Proof. rewrite <- bpow_add. now replace (e + - e)%Z with 0%Z by ring. Qed.

Lemma inj_xO p : inject_Z (Zpos p~0) == 2 * inject_Z (Zpos p).
Proof. rewrite Pos2Z.inj_xO, inject_Z_mult. reflexivity. Qed.

Lemma inj_xI p : inject_Z (Zpos p~1) == 2 * inject_Z (Zpos p) + 1.
Proof. rewrite Pos2Z.inj_xI, inject_Z_plus, inject_Z_mult. reflexivity. Qed.

Lemma inj_0 : inject_Z 0 == 0.
Proof. reflexivity. Qed.

Lemma inj_1 : inject_Z 1 == 1.
Proof. reflexivity. Qed.

Lemma inj_pos p : 1 <= inject_Z (Zpos p).
Proof. rewrite <- inj_1. rewrite <- Zle_Qle. lia. Qed.

Lemma bracket_bounds t m l : bracket t m l -> inject_Z m <= t /\ t < inject_Z m + 1.
Proof. intros [H|H1 H2|H|H1 H2]; split; lra. Qed.

Lemma bracket_comp t t' m l : t == t' -> bracket t m l -> bracket t' m l.
Proof.
  intros E [H|H1 H2|H|H1 H2]; [apply bracket_exact | apply bracket_lt
    | apply bracket_eq | apply bracket_gt]; lra.
Qed.

Lemma floor_unique t m m' :
  inject_Z m <= t -> t < inject_Z m + 1 ->
  inject_Z m' <= t -> t < inject_Z m' + 1 -> m = m'.
Proof.
  intros H1 H2 H3 H4.
  assert (A : inject_Z m < inject_Z (m' + 1)) by (rewrite inject_Z_plus, inj_1; lra).
  assert (B : inject_Z m' < inject_Z (m + 1)) by (rewrite inject_Z_plus, inj_1; lra).
  rewrite <- Zlt_Qlt in A, B. lia.
Qed.

Lemma bracket_fun t t' m m' l l' :
  t == t' -> bracket t m l -> bracket t' m' l' -> m = m' /\ l = l'.
Proof.
  intros E H H'.
  assert (m = m').
  { apply bracket_bounds in H, H'. apply (floor_unique t); lra. }
  subst m'. split; [reflexivity|].
  destruct H as [H|H1 H2|H|H1 H2]; destruct H' as [H'|H1' H2'|H'|H1' H2'];
    try reflexivity; exfalso; lra.
Qed.

(** ** Shifting a mantissa to the right *)

Lemma shr_1_brec t r : brec t r -> brec (t * (1#2)) (shr_1 r).
Proof.
  intros [Hm H]. destruct r as [m r s]. cbn [shr_m] in *.
  destruct m as [|p|p]; [| |lia].
  - split; [destruct r, s; simpl; lia|].
    destruct r, s; cbn in *; inversion H; rewrite ?inj_0 in *;
      [apply bracket_lt | apply bracket_lt | apply bracket_lt | apply bracket_exact];
      rewrite ?inj_0; lra.
  - split; [destruct p, r, s; simpl; lia|].
    destruct p; destruct r, s; cbn in *; inversion H;
      rewrite ?inj_xI, ?inj_xO, ?inj_1 in *;
      first [ apply bracket_gt; rewrite ?inj_0; lra
            | apply bracket_eq; rewrite ?inj_0; lra
            | apply bracket_lt; rewrite ?inj_0; lra
            | apply bracket_exact; rewrite ?inj_0; lra ].
Qed.

Lemma brec_comp t t' r : t == t' -> brec t r -> brec t' r.
Proof. intros E [H1 H2]. split; [exact H1 | now apply (bracket_comp t)]. Qed.

Lemma iter_shr_1_brec (n : positive) :
  forall t r, brec t r -> brec (t * bpow (- Zpos n)) (iter_pos shr_1 n r).
Proof.
  induction n as [n IH|n IH|]; intros t r H; cbn [iter_pos].
  - apply shr_1_brec, IH, IH in H. revert H. apply brec_comp.
    rewrite Pos2Z.inj_xI.
    replace (- (2 * Z.pos n + 1))%Z with (-1 + - Z.pos n + - Z.pos n)%Z by ring.
    rewrite !bpow_add, bpow_m1. ring.
  - apply IH, IH in H. revert H. apply brec_comp.
    rewrite Pos2Z.inj_xO.
    replace (- (2 * Z.pos n))%Z with (- Z.pos n + - Z.pos n)%Z by ring.
    rewrite !bpow_add. ring.
  - apply shr_1_brec in H. revert H. apply brec_comp.
    apply Qmult_comp; reflexivity.
Qed.

Lemma loc_of_shr_record_of_loc m l :
  loc_of_shr_record (shr_record_of_loc m l) = l.
Proof. destruct l as [|[]]; reflexivity. Qed.

Lemma shr_m_shr_record_of_loc m l : shr_m (shr_record_of_loc m l) = m.
Proof. destruct l as [|[]]; reflexivity. Qed.

(** The first step of [binary_round_aux]: the mantissa is cut at the
    exponent [fexp] gives, and still brackets the same number. *)
Lemma shr_fexp_brec (v : Q) (mx ex : Z) (lx : location) :
  (0 <= mx)%Z ->
  bracket (v * bpow (- ex)) mx lx ->
  (ex <= fexp prec emax (Zdigits2 mx + ex))%Z ->
  snd (shr_fexp prec emax mx ex lx) = fexp prec emax (Zdigits2 mx + ex) /\
  brec (v * bpow (- fexp prec emax (Zdigits2 mx + ex)))
       (fst (shr_fexp prec emax mx ex lx)).
Proof.
  intros Hm H Hex. unfold shr_fexp, shr.
  set (e' := fexp prec emax (Zdigits2 mx + ex)) in *.
  assert (Hb : brec (v * bpow (- ex)) (shr_record_of_loc mx lx)).
  { split; [now rewrite shr_m_shr_record_of_loc|].
    now rewrite shr_m_shr_record_of_loc, loc_of_shr_record_of_loc. }
  destruct (e' - ex)%Z as [|n|n] eqn:E; [| |lia]; cbn [fst snd].
  - assert (e' = ex) by lia. split; [lia|]. now rewrite H0.
  - split; [lia|].
    apply (iter_shr_1_brec n) in Hb. revert Hb. apply brec_comp.
    replace (- e')%Z with (- ex + - Z.pos n)%Z by lia.
    rewrite bpow_add. ring.
Qed.

(** ** The number of binary digits *)

Lemma digits2_pos_spec (p : positive) :
  (2 ^ (Zpos (digits2_pos p) - 1) <= Zpos p < 2 ^ Zpos (digits2_pos p))%Z.
Proof.
  induction p as [p IH|p IH|]; cbn [digits2_pos].
  - rewrite Pos2Z.inj_succ, Pos2Z.inj_xI.
    replace (Z.succ (Z.pos (digits2_pos p)) - 1)%Z
      with (Z.succ (Z.pos (digits2_pos p) - 1))%Z by lia.
    rewrite !Z.pow_succ_r by lia. revert IH.
    generalize (2 ^ (Z.pos (digits2_pos p) - 1))%Z (2 ^ Z.pos (digits2_pos p))%Z.
    intros a b IH. lia.
  - rewrite Pos2Z.inj_succ, (Pos2Z.inj_xO p).
    replace (Z.succ (Z.pos (digits2_pos p)) - 1)%Z
      with (Z.succ (Z.pos (digits2_pos p) - 1))%Z by lia.
    rewrite !Z.pow_succ_r by lia. revert IH.
    generalize (2 ^ (Z.pos (digits2_pos p) - 1))%Z (2 ^ Z.pos (digits2_pos p))%Z.
    intros a b IH. lia.
  - simpl. lia.
Qed.

Lemma Zdigits2_spec (m : Z) :
  (0 < m)%Z -> (2 ^ (Zdigits2 m - 1) <= m < 2 ^ Zdigits2 m)%Z /\ (0 < Zdigits2 m)%Z.
Proof.
  destruct m as [|p|p]; try lia. intros _. cbn [Zdigits2].
  split; [apply digits2_pos_spec | lia].
Qed.

Lemma Zdigits2_unique (m d : Z) :
  (2 ^ (d - 1) <= m < 2 ^ d)%Z -> (0 < m)%Z -> Zdigits2 m = d.
Proof.
  intros H Hm. destruct (Zdigits2_spec m Hm) as [H' Hd].
  assert (0 < d)%Z.
  { destruct (Z.ltb_spec 0 d); [assumption|].
    destruct (Z.eqb_spec d 0); [subst; simpl in H; lia|].
    rewrite (Z.pow_neg_r 2 d) in H by lia. lia. }
  destruct (Z.lt_trichotomy (Zdigits2 m) d) as [L|[E|L]]; [|exact E|]; exfalso.
  - assert (2 ^ Zdigits2 m <= 2 ^ (d - 1))%Z by (apply Z.pow_le_mono_r; lia). lia.
  - assert (2 ^ d <= 2 ^ (Zdigits2 m - 1))%Z by (apply Z.pow_le_mono_r; lia). lia.
Qed.

Lemma Zdigits2_nonneg (m : Z) : (0 <= Zdigits2 m)%Z.
Proof. destruct m; simpl; lia. Qed.

(** Where a positive mantissa puts the number it brackets. *)
Lemma bracket_magnitude (t : Q) (m : Z) (l : location) :
  (0 < m)%Z -> bracket t m l ->
  bpow (Zdigits2 m - 1) <= t /\ t < bpow (Zdigits2 m).
Proof.
  intros Hm H. apply bracket_bounds in H.
  destruct (Zdigits2_spec m Hm) as [[H1 H2] Hd].
  rewrite !bpow_Z by lia.
  assert (A : inject_Z (2 ^ (Zdigits2 m - 1)) <= inject_Z m) by now rewrite <- Zle_Qle.
  assert (B : inject_Z (m + 1) <= inject_Z (2 ^ Zdigits2 m)) by (rewrite <- Zle_Qle; lia).
  rewrite inject_Z_plus, inj_1 in B. split; lra.
Qed.

(** ** Rounding to nearest, ties to even *)

Lemma fexp_eq (d : Z) : fexp prec emax d = Z.max (d - 53) (-1074).
Proof. reflexivity. Qed.

Lemma emin_eq : emin prec emax = (-1074)%Z.
Proof. reflexivity. Qed.

Lemma binary_round_aux_finish s mx ex lx :
  binary_round_aux prec emax s mx ex lx =
    finish s (shr_m (fst (shr_fexp prec emax mx ex lx)))
      (snd (shr_fexp prec emax mx ex lx))
      (loc_of_shr_record (fst (shr_fexp prec emax mx ex lx))).
Proof.
  unfold binary_round_aux, finish.
  destruct (shr_fexp prec emax mx ex lx) as [mrs e]. reflexivity.
Qed.

Lemma scale_up (a v : Q) (e : Z) : a <= v * bpow (- e) -> a * bpow e <= v.
Proof.
  intros H. pose proof (bpow_pos e) as Hp. pose proof (bpow_opp_mul e) as E.
  apply (Qmult_le_compat_r _ _ (bpow e)) in H; [|lra].
  assert (v * bpow (- e) * bpow e == v) by (rewrite <- Qmult_assoc, (Qmult_comm (bpow (-e))), E; ring).
  lra.
Qed.

Lemma scale_up_lt (a v : Q) (e : Z) : v * bpow (- e) < a -> v < a * bpow e.
Proof.
  intros H. pose proof (bpow_pos e) as Hp. pose proof (bpow_opp_mul e) as E.
  apply (Qmult_lt_compat_r _ _ (bpow e)) in H; [|lra].
  assert (v * bpow (- e) * bpow e == v) by (rewrite <- Qmult_assoc, (Qmult_comm (bpow (-e))), E; ring).
  lra.
Qed.

Lemma scale_down (a v : Q) (e : Z) : a * bpow e <= v -> a <= v * bpow (- e).
Proof.
  intros H. pose proof (bpow_pos (- e)) as Hp. pose proof (bpow_opp_mul e) as E.
  apply (Qmult_le_compat_r _ _ (bpow (- e))) in H; [|lra].
  assert (a * bpow e * bpow (- e) == a) by (rewrite <- Qmult_assoc, E; ring).
  lra.
Qed.

Lemma scale_down_lt (a v : Q) (e : Z) : v < a * bpow e -> v * bpow (- e) < a.
Proof.
  intros H. pose proof (bpow_pos (- e)) as Hp. pose proof (bpow_opp_mul e) as E.
  apply (Qmult_lt_compat_r _ _ (bpow (- e))) in H; [|lra].
  assert (a * bpow e * bpow (- e) == a) by (rewrite <- Qmult_assoc, E; ring).
  lra.
Qed.

Lemma cexp_comp v v' e : v == v' -> cexp v e -> cexp v' e.
Proof.
  intros E [[H1 H2]|[H1 [H2 H3]]]; [left | right]; repeat split; try assumption; lra.
Qed.

Lemma cexp_unique v e e' : cexp v e -> cexp v e' -> e = e'.
Proof.
  intros [[H1 H2]|[H1 [H2 H3]]] [[H1' H2']|[H1' [H2' H3']]].
  - lia.
  - exfalso. assert (bpow (-1021) <= bpow (e' + 52)) by (apply bpow_le; lia). lra.
  - exfalso. assert (bpow (-1021) <= bpow (e + 52)) by (apply bpow_le; lia). lra.
  - assert (A : bpow (e + 52) < bpow (e' + 53)) by lra.
    assert (B : bpow (e' + 52) < bpow (e + 53)) by lra.
    apply bpow_lt_inv in A, B. lia.
Qed.

Lemma rounds_fun s v v' y y' :
  v == v' -> rounds s v y -> rounds s v' y' -> y = y'.
Proof.
  intros E (e & m & l & He & Hm & Hb & Hy) (e' & m' & l' & He' & Hm' & Hb' & Hy').
  apply (cexp_comp v v') in He; [|exact E].
  pose proof (cexp_unique _ _ _ He He') as <-.
  destruct (bracket_fun (v * bpow (- e)) (v' * bpow (- e)) m m' l l') as [<- <-];
    try assumption.
  - now rewrite E.
  - congruence.
Qed.

(** The exponent that [binary_round_aux] cuts at is the one of the doubles
    around the number. *)
Lemma cexp_of_bracket (v : Q) (mx ex : Z) (lx : location) :
  (0 <= mx)%Z ->
  bracket (v * bpow (- ex)) mx lx ->
  (ex <= fexp prec emax (Zdigits2 mx + ex))%Z ->
  cexp v (fexp prec emax (Zdigits2 mx + ex)).
Proof.
  intros Hm H Hex. rewrite fexp_eq in *.
  destruct (Z.eq_dec mx 0) as [->|Hne].
  - cbn [Zdigits2] in *. apply bracket_bounds in H. destruct H as [_ H].
    rewrite inj_0 in H. apply scale_up_lt in H.
    left. split; [lia|].
    assert (bpow ex <= bpow (-1021)) by (apply bpow_le; lia). lra.
  - assert (Hpos : (0 < mx)%Z) by lia.
    destruct (bracket_magnitude _ _ _ Hpos H) as [H1 H2].
    apply scale_up in H1. apply scale_up_lt in H2.
    rewrite <- bpow_add in H1, H2.
    set (d := Zdigits2 mx) in *.
    destruct (Z.max_spec (d + ex - 53) (-1074)) as [[A ->]|[A ->]].
    + left. split; [reflexivity|].
      assert (bpow (d + ex) <= bpow (-1021)) by (apply bpow_le; lia). lra.
    + destruct (Z.eq_dec (d + ex - 53) (-1074)) as [E|E].
      * left. split; [exact E|].
        assert (bpow (d + ex) <= bpow (-1021)) by (apply bpow_le; lia). lra.
      * right. split; [lia|].
        replace (d + ex - 53 + 52)%Z with (d - 1 + ex)%Z by ring.
        replace (d + ex - 53 + 53)%Z with (d + ex)%Z by ring.
        split; assumption.
Qed.

Lemma binary_round_aux_rounds (s : bool) (v : Q) (mx ex : Z) (lx : location) :
  (0 <= mx)%Z ->
  bracket (v * bpow (- ex)) mx lx ->
  (ex <= fexp prec emax (Zdigits2 mx + ex))%Z ->
  rounds s v (binary_round_aux prec emax s mx ex lx).
Proof.
  intros Hm H Hex.
  destruct (shr_fexp_brec v mx ex lx Hm H Hex) as [He [Hm' Hb]].
  exists (fexp prec emax (Zdigits2 mx + ex)),
         (shr_m (fst (shr_fexp prec emax mx ex lx))),
         (loc_of_shr_record (fst (shr_fexp prec emax mx ex lx))).
  split; [now apply (cexp_of_bracket v mx ex lx)|].
  split; [exact Hm'|]. split; [exact Hb|].
  rewrite binary_round_aux_finish. now rewrite He.
Qed.

(** ** [binary_round] and [binary_normalize] *)

Lemma iter_xO (p d : positive) : Zpos (Pos.iter xO p d) = (Zpos p * 2 ^ Zpos d)%Z.
Proof.
  induction d as [|d IH] using Pos.peano_ind.
  - simpl. lia.
  - rewrite Pos.iter_succ, Pos2Z.inj_xO, IH, Pos2Z.inj_succ, Z.pow_succ_r by lia.
    ring.
Qed.

Lemma Zdigits2_shift (m d : Z) :
  (0 < m)%Z -> (0 <= d)%Z -> Zdigits2 (m * 2 ^ d) = (Zdigits2 m + d)%Z.
Proof.
  intros Hm Hd. destruct (Zdigits2_spec m Hm) as [[H1 H2] H3].
  assert (Hp : (0 < 2 ^ d)%Z) by (apply Z.pow_pos_nonneg; lia).
  apply Zdigits2_unique; [|nia].
  replace (Zdigits2 m + d - 1)%Z with (Zdigits2 m - 1 + d)%Z by ring.
  rewrite !Z.pow_add_r by lia. nia.
Qed.

Lemma binary_round_rounds (s : bool) (m : positive) (e : Z) :
  rounds s (inject_Z (Zpos m) * bpow e) (binary_round prec emax s m e).
Proof.
  unfold binary_round, shl_align.
  set (e' := fexp prec emax (Z.pos (digits2_pos m) + e)).
  destruct (e' - e)%Z as [|d|d] eqn:E.
  - apply binary_round_aux_rounds; [lia| |change (e <= e')%Z; lia].
    apply bracket_exact. rewrite <- Qmult_assoc, bpow_opp_mul. ring.
  - apply binary_round_aux_rounds; [lia| |change (e <= e')%Z; lia].
    apply bracket_exact. rewrite <- Qmult_assoc, bpow_opp_mul. ring.
  - assert (Hd : (e = e' + Zpos d)%Z) by lia.
    assert (Hdig : (Zdigits2 (Z.pos (Pos.iter xO m d)) + e' = Zdigits2 (Zpos m) + e)%Z).
    { rewrite iter_xO, Zdigits2_shift by lia. lia. }
    apply binary_round_aux_rounds; [lia| |rewrite Hdig; change (e' <= e')%Z; lia].
    apply bracket_exact. rewrite iter_xO, inject_Z_mult, <- bpow_Z by lia.
    rewrite Hd, bpow_add.
    pose proof (bpow_opp_mul e') as X.
    transitivity (inject_Z (Z.pos m) * bpow (Z.pos d) * (bpow e' * bpow (- e')));
      [ring | rewrite X; ring].
Qed.

(** ** Division *)

Lemma new_location_bracket (q m2 r : Z) :
  (0 < m2)%Z -> (0 <= r < m2)%Z ->
  bracket (inject_Z q + inject_Z r / inject_Z m2) q (new_location m2 r).
Proof.
  intros Hm Hr.
  assert (HM : 0 < inject_Z m2) by (rewrite <- inj_0, <- Zlt_Qlt; lia).
  assert (E0 : r = 0%Z -> inject_Z r / inject_Z m2 == 0).
  { intros ->. unfold Qdiv. rewrite inj_0. ring. }
  assert (Hx : r <> 0%Z -> 0 < inject_Z r / inject_Z m2).
  { intros Hne. apply Qlt_shift_div_l; [exact HM|].
    rewrite Qmult_0_l, <- inj_0, <- Zlt_Qlt. lia. }
  assert (Hx1 : inject_Z r / inject_Z m2 < 1).
  { apply Qlt_shift_div_r; [exact HM|]. rewrite Qmult_1_l, <- Zlt_Qlt. lia. }
  assert (Hlt : (2 * r < m2)%Z -> inject_Z r / inject_Z m2 < 1#2).
  { intros H. apply Qlt_shift_div_r; [exact HM|].
    rewrite Zlt_Qlt, inject_Z_mult in H.
    change (inject_Z 2) with 2 in H. lra. }
  assert (Hgt : (m2 < 2 * r)%Z -> 1#2 < inject_Z r / inject_Z m2).
  { intros H. apply Qlt_shift_div_l; [exact HM|].
    rewrite Zlt_Qlt, inject_Z_mult in H.
    change (inject_Z 2) with 2 in H. lra. }
  assert (Heq : (2 * r = m2)%Z -> inject_Z r / inject_Z m2 == 1#2).
  { intros H. rewrite <- H, inject_Z_mult in HM |- *. change (inject_Z 2) with 2 in *.
    field. lra. }
  unfold new_location.
  destruct (Z.even m2) eqn:Ev; unfold new_location_even, new_location_odd;
    destruct (Z.eqb_spec r 0) as [Hz|Hne];
    try (apply bracket_exact; rewrite (E0 Hz); ring);
    specialize (Hx Hne).
  - destruct (Z.compare_spec (2 * r) m2) as [E|L|G].
    + apply bracket_eq. rewrite (Heq E). ring.
    + apply bracket_lt; [lra | specialize (Hlt L); lra].
    + apply bracket_gt; [specialize (Hgt G); lra | lra].
  - assert (Hodd : (2 * r <> m2)%Z).
    { intros E. rewrite <- E, Z.even_mul in Ev. discriminate Ev. }
    destruct (Z.compare_spec (2 * r + 1) m2) as [E|L|G].
    + apply bracket_lt; [lra | assert (L : (2 * r < m2)%Z) by lia; specialize (Hlt L); lra].
    + apply bracket_lt; [lra | assert (L' : (2 * r < m2)%Z) by lia; specialize (Hlt L'); lra].
    + apply bracket_gt; [assert (G' : (m2 < 2 * r)%Z) by lia; specialize (Hgt G'); lra | lra].
Qed.

Lemma inject_Z_pos_lt (m : Z) : (0 < m)%Z -> 0 < inject_Z m.
Proof. intros H. rewrite <- inj_0, <- Zlt_Qlt. exact H. Qed.

Lemma SFdiv_rounds (sx sy : bool) (mx my : positive) (ex ey : Z) :
  rounds (xorb sx sy)
    (inject_Z (Zpos mx) * bpow ex / (inject_Z (Zpos my) * bpow ey))
    (fdiv (S754_finite sx mx ex) (S754_finite sy my ey)).
Proof.
  unfold fdiv, SFdiv, SFdiv_core_binary.
  set (d1 := Zdigits2 (Zpos mx)). set (d2 := Zdigits2 (Zpos my)).
  set (e' := Z.min (fexp prec emax (d1 + ex - (d2 + ey))) (ex - ey)).
  set (s := (ex - ey - e')%Z).
  assert (Hs : (0 <= s)%Z) by (unfold s, e'; lia).
  set (m' := match s with
             | 0%Z => Z.pos mx
             | Z.pos _ => Z.shiftl (Z.pos mx) s
             | Z.neg _ => 0%Z
             end).
  assert (Hm' : m' = (Zpos mx * 2 ^ s)%Z).
  { unfold m'. destruct s as [|p|p] eqn:Es; [simpl; lia| |lia].
    now rewrite Z.shiftl_mul_pow2 by lia. }
  assert (Hp : (0 < 2 ^ s)%Z) by (apply Z.pow_pos_nonneg; lia).
  pose proof (Z_div_mod m' (Zpos my) eq_refl) as Hdiv.
  destruct (Z.div_eucl m' (Zpos my)) as [q r]. destruct Hdiv as [Hq Hr].
  assert (Hq0 : (0 <= q)%Z) by nia.
  destruct (Zdigits2_spec (Zpos mx) eq_refl) as [[A1 A2] A3].
  destruct (Zdigits2_spec (Zpos my) eq_refl) as [[B1 B2] B3].
  fold d1 in A1, A2, A3. fold d2 in B1, B2, B3.
  assert (Hlow : (2 ^ (d1 - 1 + s) <= m')%Z).
  { rewrite Hm', Z.pow_add_r by lia. nia. }
  apply binary_round_aux_rounds; [exact Hq0| |].
  - apply (bracket_comp (inject_Z q + inject_Z r / inject_Z (Zpos my)));
      [|apply new_location_bracket; lia].
    assert (M2 : 0 < inject_Z (Zpos my)) by (apply inject_Z_pos_lt; lia).
    pose proof (bpow_pos ey) as P1. pose proof (bpow_pos e') as P2.
    pose proof (bpow_opp_mul e') as X.
    assert (Ex : bpow ex == bpow s * bpow ey * bpow e').
    { rewrite <- !bpow_add. unfold s. now replace (ex - ey - e' + ey + e')%Z with ex by ring. }
    assert (Em : inject_Z (Zpos mx) * bpow s == inject_Z (Zpos my) * inject_Z q + inject_Z r).
    { rewrite bpow_Z, <- !inject_Z_mult, <- inject_Z_plus, <- Hq, Hm' by lia. reflexivity. }
    rewrite Ex.
    transitivity ((inject_Z (Zpos mx) * bpow s) / inject_Z (Zpos my) * (bpow e' * bpow (- e')));
      [|field; split; lra].
    rewrite X, Em. field. lra.
  - assert (Hsd : s = (ex - ey - e')%Z) by reflexivity.
    assert (Hed : e' = Z.min (Z.max (d1 + ex - (d2 + ey) - 53) (-1074)) (ex - ey))
      by reflexivity.
    clearbody m' s e'. rewrite fexp_eq.
    destruct (Z.eq_dec q 0) as [->|Hne].
    + cbn [Zdigits2].
      assert (Hlt : (2 ^ (d1 - 1 + s) < 2 ^ d2)%Z) by lia.
      apply Z.pow_lt_mono_r_iff in Hlt; [|lia|lia]. lia.
    + destruct (Zdigits2_spec q ltac:(lia)) as [[C1 C2] C3].
      set (dq := Zdigits2 q) in *. clearbody dq.
      assert (Hup : (m' < 2 ^ (dq + d2))%Z).
      { rewrite Z.pow_add_r by lia. nia. }
      assert (Hlt : (2 ^ (d1 - 1 + s) < 2 ^ (dq + d2))%Z) by lia.
      apply Z.pow_lt_mono_r_iff in Hlt; [|lia|lia]. lia.
Qed.

(** ** What [finish] returns *)

Lemma round_nearest_even_cases (m : Z) (l : location) :
  round_nearest_even m l = m \/ round_nearest_even m l = (m + 1)%Z.
Proof. destruct l as [|[]]; simpl; auto. destruct (Z.even m); auto. Qed.

Lemma finish_eval (s : bool) (m e : Z) (l : location) :
  (0 <= m < 2 ^ 53)%Z -> (-1074 <= e)%Z ->
  finish s m e l =
    match round_nearest_even m l with
    | Z0 => S754_zero s
    | Zpos p =>
        if (Zpos p <? 2 ^ 53)%Z
        then if (e <=? 971)%Z then S754_finite s p e else S754_infinity s
        else if (e + 1 <=? 971)%Z
             then S754_finite s 4503599627370496 (e + 1) else S754_infinity s
    | Zneg _ => S754_nan
    end.
Proof.
  intros Hm He. unfold finish, shr_fexp, shr.
  destruct (round_nearest_even_cases m l) as [E|E]; rewrite E.
  - cbn [shr_record_of_loc].
    destruct m as [|p|p]; [| |lia].
    + cbn [Zdigits2]. rewrite fexp_eq.
      destruct (Z.max (0 + e - 53) (-1074) - e)%Z eqn:En; try reflexivity. lia.
    + destruct (Zdigits2_spec (Zpos p) eq_refl) as [[A1 A2] A3].
      assert (Hd : (Zdigits2 (Zpos p) <= 53)%Z).
      { assert (Hlt : (2 ^ (Zdigits2 (Zpos p) - 1) < 2 ^ 53)%Z) by lia.
        apply Z.pow_lt_mono_r_iff in Hlt; lia. }
      rewrite fexp_eq.
      destruct (Z.ltb_spec (Zpos p) (2 ^ 53)); [|lia].
      destruct (Z.max (Zdigits2 (Z.pos p) + e - 53) (-1074) - e)%Z eqn:En;
        try reflexivity. lia.
  - cbn [shr_record_of_loc].
    assert (Hm1 : (0 < m + 1)%Z) by lia.
    destruct (m + 1)%Z as [|p|p] eqn:Ep; [lia| |lia].
    destruct (Zdigits2_spec (Zpos p) eq_refl) as [[A1 A2] A3].
    rewrite fexp_eq.
    destruct (Z.ltb_spec (Zpos p) (2 ^ 53)).
    + assert (Hd : (Zdigits2 (Zpos p) <= 53)%Z).
      { assert (Hlt : (2 ^ (Zdigits2 (Zpos p) - 1) < 2 ^ 53)%Z) by lia.
        apply Z.pow_lt_mono_r_iff in Hlt; lia. }
      destruct (Z.max (Zdigits2 (Z.pos p) + e - 53) (-1074) - e)%Z eqn:En;
        try reflexivity. lia.
    + assert (Hp : Zpos p = (2 ^ 53)%Z) by lia.
      injection Hp as ->.
      change (Zdigits2 9007199254740992) with 54%Z.
      replace (Z.max (54 + e - 53) (-1074) - e)%Z with 1%Z by lia.
      reflexivity.
Qed.

Lemma bpow_shift (e k : Z) : (0 <= k)%Z -> bpow (e + k) == inject_Z (2 ^ k) * bpow e.
Proof.
  intros H. rewrite (Z.add_comm e k), bpow_add.
  apply Qmult_comp; [now apply bpow_Z | reflexivity].
Qed.


Lemma rounds_comp (s : bool) (v v' : Q) (y : float) :
  v == v' -> rounds s v y -> rounds s v' y.
Proof.
  intros E (e & m & l & He & Hm & Hb & Hy).
  exists e, m, l. split; [now apply (cexp_comp v)|]. split; [exact Hm|].
  split; [|exact Hy]. apply (bracket_comp (v * bpow (- e))); [|exact Hb].
  now rewrite E.
Qed.

(** ** Reading a decimal numeral *)

Lemma float_of_decimal_rounds (neg : bool) (p : positive) (nd e10 : Z) :
  (e10 <= 400)%Z -> (-400 <= e10 + nd)%Z ->
  rounds neg (inject_Z (Zpos p) * 10 ^ e10) (float_of_decimal neg (Zpos p) nd e10).
Proof.
  intros H1 H2. unfold float_of_decimal.
  destruct (Z.ltb_spec 400 e10); [lia|].
  destruct (Z.ltb_spec (e10 + nd) (-400)); [lia|].
  destruct (Z.leb_spec 0 e10) as [Hpos|Hneg].
  - assert (Hq : (0 < Zpos p * 10 ^ e10)%Z).
    { apply Z.mul_pos_pos; [lia | apply Z.pow_pos_nonneg; lia]. }
    destruct (Zpos p * 10 ^ e10)%Z as [|q|q] eqn:Eq; [lia| |lia].
    assert (R : rounds neg (inject_Z (Zpos p) * 10 ^ e10) (binary_round prec emax neg q 0)).
    { apply (rounds_comp neg (inject_Z (Zpos q) * bpow 0)); [|apply binary_round_rounds].
      rewrite <- Eq, inject_Z_mult, Zpower_Qpower by lia.
      rewrite bpow_0. change (inject_Z 10) with 10. ring. }
    destruct neg; exact R.
  - assert (Hd : (0 < 10 ^ (- e10))%Z) by (apply Z.pow_pos_nonneg; lia).
    destruct (10 ^ (- e10))%Z as [|d|d] eqn:Ed; [lia| |lia].
    apply (rounds_comp neg (inject_Z (Zpos p) * bpow 0 / (inject_Z (Zpos d) * bpow 0))).
    + rewrite <- Ed, Zpower_Qpower by lia. change (inject_Z 10) with 10.
      replace e10 with (- - e10)%Z at 2 by ring.
      rewrite (Qpower_opp 10 (- e10)), bpow_0.
      assert (0 < 10 ^ (- e10)) by (apply Qpower_0_lt; reflexivity).
      field. lra.
    + rewrite <- (xorb_false_r neg) at 1. apply SFdiv_rounds.
Qed.

Lemma scale_down_gt (a v : Q) (e : Z) : a * bpow e < v -> a < v * bpow (- e).
Proof.
  intros H. pose proof (bpow_pos (- e)) as Hp. pose proof (bpow_opp_mul e) as E.
  apply (Qmult_lt_compat_r _ _ (bpow (- e))) in H; [|lra].
  assert (a * bpow e * bpow (- e) == a) by (rewrite <- Qmult_assoc, E; ring).
  lra.
Qed.

Lemma rne_exact m : round_nearest_even m loc_Exact = m.
Proof. reflexivity. Qed.
Lemma rne_lt m : round_nearest_even m (loc_Inexact Lt) = m.
Proof. reflexivity. Qed.
Lemma rne_gt m : round_nearest_even m (loc_Inexact Gt) = (m + 1)%Z.
Proof. reflexivity. Qed.

Lemma inj_pred (m : Z) : inject_Z (m - 1) == inject_Z m - 1.
Proof. unfold Z.sub. rewrite inject_Z_plus. reflexivity. Qed.

(** A number nearer to a valid double than to its neighbours rounds to it. *)
Lemma rounds_close (s : bool) (m : positive) (e : Z) (v : Q) (y : float) :
  valid_binary prec emax (S754_finite s m e) = true ->
  inject_Z (Zpos m) * bpow e - bpow (e - 1) < v ->
  v < inject_Z (Zpos m) * bpow e + bpow (e - 1) ->
  (Zpos m = (2 ^ 52)%Z -> (-1074 < e)%Z ->
   inject_Z (Zpos m) * bpow e - bpow (e - 2) < v) ->
  rounds s v y -> y = S754_finite s m e.
Proof.
  intros Hv Hlo Hhi Hbin Hy.
  apply (rounds_fun s v v); [reflexivity | exact Hy |].
  cbn [valid_binary] in Hv. unfold bounded, canonical_mantissa in Hv.
  rewrite fexp_eq in Hv.
  apply andb_prop in Hv. destruct Hv as [Hc Hb].
  apply Z.eqb_eq in Hc. apply Z.leb_le in Hb. change (emax - prec)%Z with 971%Z in Hb.
  destruct (Zdigits2_spec (Zpos m) eq_refl) as [[A1 A2] A3].
  change (Zdigits2 (Zpos m)) with (Zpos (digits2_pos m)) in *.
  set (d := Zpos (digits2_pos m)) in *. clearbody d.
  assert (Hm53 : (Zpos m <= 2 ^ 53 - 1)%Z).
  { assert (2 ^ d <= 2 ^ 53)%Z by (apply Z.pow_le_mono_r; lia). lia. }
  assert (Hm52 : (-1074 < e -> 2 ^ 52 <= Zpos m)%Z).
  { intros He. assert (d = 53%Z) by lia. subst d. exact A1. }
  pose proof (bpow_pos e) as Bp.
  pose proof (bpow_pred e) as E1.
  assert (E2 : bpow (e - 2) == (1#4) * bpow e).
  { replace (e - 2)%Z with (e - 1 - 1)%Z by ring. rewrite !bpow_pred. ring. }
  pose proof (bpow_shift e 52 ltac:(lia)) as E52.
  pose proof (bpow_shift e 53 ltac:(lia)) as E53.
  set (M := inject_Z (Zpos m)) in *.
  assert (M1 : 1 <= M) by apply inj_pos.
  assert (MU : M <= inject_Z (2 ^ 53 - 1)) by (unfold M; now rewrite <- Zle_Qle).
  assert (ML : (-1074 < e)%Z -> inject_Z (2 ^ 52) <= M).
  { intros He. unfold M. rewrite <- Zle_Qle. auto. }
  change (inject_Z (2 ^ 53 - 1)) with 9007199254740991 in MU.
  change (inject_Z (2 ^ 52)) with 4503599627370496 in ML, E52.
  change (inject_Z (2 ^ 53)) with 9007199254740992 in E53.
  set (B := bpow e) in *.
  destruct (Qlt_le_dec v (M * B)) as [Hlt|Hge].
  - destruct (Z.eq_dec (Zpos m) (2 ^ 52)) as [E|Hne];
      [destruct (Z.eq_dec e (-1074)) as [He|He]|].
    + (* the smallest normal number *)
      exists e, (Zpos m - 1)%Z, (loc_Inexact Gt).
      split; [|split; [lia|split]].
      * left. split; [exact He|]. subst e.
        change (-1021)%Z with (-1074 + 53)%Z. fold B in E53. rewrite E53.
        assert (M * B <= 9007199254740991 * B) by (apply Qmult_le_compat_r; lra). lra.
      * apply bracket_gt.
        -- apply scale_down_gt. fold B. rewrite inj_pred. fold M. lra.
        -- apply scale_down_lt. fold B. rewrite inj_pred. fold M. lra.
      * rewrite finish_eval by lia. rewrite rne_gt.
        replace (Z.pos m - 1 + 1)%Z with (Zpos m) by ring.
        destruct (Z.ltb_spec (Zpos m) (2 ^ 53)); [|lia].
        destruct (Z.leb_spec e 971); [reflexivity | lia].
    + (* a power of two: the number lies in the binade below *)
      assert (He' : (-1074 < e)%Z) by lia.
      specialize (Hbin E He'). specialize (ML He').
      assert (EM : M == 4503599627370496) by (unfold M; now rewrite E).
      rewrite EM in Hlt, Hlo, Hhi, Hbin.
      exists (e - 1)%Z, (2 ^ 53 - 1)%Z, (loc_Inexact Gt).
      assert (Ep : bpow (- (e - 1)) == 2 * bpow (- e)).
      { replace (- (e - 1))%Z with (- e + 1)%Z by ring. apply bpow_succ. }
      split; [|split; [lia|split]].
      * destruct (Z.eq_dec (e - 1) (-1074)) as [He1|He1].
        -- left. split; [exact He1|].
           replace (-1021)%Z with (e + 52)%Z by lia. rewrite E52. lra.
        -- right. split; [lia|]. split.
           ++ replace (e - 1 + 52)%Z with (e + 52 - 1)%Z by ring.
              rewrite bpow_pred, E52. lra.
           ++ replace (e - 1 + 53)%Z with (e + 52)%Z by ring. rewrite E52. lra.
      * apply bracket_gt; change (inject_Z (2 ^ 53 - 1)) with 9007199254740991.
        -- rewrite Ep, Qmult_assoc.
           assert (X : (9007199254740991 + (1#2)) * (1#2) < v * bpow (- e)).
           { apply scale_down_gt. fold B. lra. }
           lra.
        -- rewrite Ep.
           assert (X : v * bpow (- e) < 4503599627370496).
           { apply scale_down_lt. fold B. lra. }
           lra.
      * rewrite finish_eval by lia. rewrite rne_gt.
        change (2 ^ 53 - 1 + 1)%Z with (Zpos (2 ^ 53)).
        cbv iota beta.
        destruct (Z.ltb_spec (Zpos (2 ^ 53)) (2 ^ 53)); [lia|].
        replace (e - 1 + 1)%Z with e by ring.
        destruct (Z.leb_spec e 971); [|lia].
        f_equal. injection E as ->. reflexivity.
    + (* not a power of two: the same binade *)
      exists e, (Zpos m - 1)%Z, (loc_Inexact Gt).
      split; [|split; [lia|split]].
      * destruct (Z.eq_dec e (-1074)) as [He|He].
        -- left. split; [exact He|]. subst e.
           change (-1021)%Z with (-1074 + 53)%Z. fold B in E53. rewrite E53.
           assert (M * B <= 9007199254740991 * B) by (apply Qmult_le_compat_r; lra). lra.
        -- right. split; [lia|]. split.
           ++ rewrite E52.
              assert (HM : inject_Z (2 ^ 52 + 1) <= M).
              { unfold M. rewrite <- Zle_Qle. specialize (Hm52 ltac:(lia)). lia. }
              change (inject_Z (2 ^ 52 + 1)) with 4503599627370497 in HM.
              assert (4503599627370497 * B <= M * B) by (apply Qmult_le_compat_r; lra).
              lra.
           ++ rewrite E53.
              assert (M * B <= 9007199254740991 * B) by (apply Qmult_le_compat_r; lra). lra.
      * apply bracket_gt.
        -- apply scale_down_gt. fold B. rewrite inj_pred. fold M. lra.
        -- apply scale_down_lt. fold B. rewrite inj_pred. fold M. lra.
      * rewrite finish_eval by lia. rewrite rne_gt.
        replace (Z.pos m - 1 + 1)%Z with (Zpos m) by ring.
        destruct (Z.ltb_spec (Zpos m) (2 ^ 53)); [|lia].
        destruct (Z.leb_spec e 971); [reflexivity | lia].
  - assert (Hcexp : cexp v e).
    { destruct (Z.eq_dec e (-1074)) as [He|He].
      - left. split; [exact He|]. subst e.
        change (-1021)%Z with (-1074 + 53)%Z. fold B in E53. rewrite E53.
        assert (M * B <= 9007199254740991 * B) by (apply Qmult_le_compat_r; lra). lra.
      - right. split; [lia|]. split.
        + rewrite E52. specialize (ML ltac:(lia)).
          assert (4503599627370496 * B <= M * B) by (apply Qmult_le_compat_r; lra).
          lra.
        + rewrite E53.
          assert (M * B <= 9007199254740991 * B) by (apply Qmult_le_compat_r; lra). lra. }
    assert (Hfin : forall l, l = loc_Exact \/ l = loc_Inexact Lt ->
                             finish s (Zpos m) e l = S754_finite s m e).
    { intros l Hl. rewrite finish_eval by lia.
      destruct Hl as [-> | ->]; cbn [round_nearest_even];
        (destruct (Z.ltb_spec (Zpos m) (2 ^ 53)); [|lia]);
        (destruct (Z.leb_spec e 971); [reflexivity | lia]). }
    destruct (Qeq_dec v (M * B)) as [Heq|Hneq].
    + exists e, (Zpos m), loc_Exact.
      split; [exact Hcexp|]. split; [lia|]. split; [|rewrite Hfin; auto].
      apply bracket_exact. fold M. rewrite Heq. unfold B.
      rewrite <- Qmult_assoc, bpow_opp_mul. ring.
    + exists e, (Zpos m), (loc_Inexact Lt).
      split; [exact Hcexp|]. split; [lia|]. split; [|rewrite Hfin; auto].
      apply bracket_lt.
      * apply scale_down_gt. fold M B. 
        destruct (Qle_lt_or_eq _ _ Hge) as [L|L]; [exact L|].
        exfalso. apply Hneq. now rewrite L.
      * apply scale_down_lt. fold M B. lra.
Qed.

End Rounding.

Section Digits.
Local Open Scope Q_scope.
Local Open Scope Z_scope.

(** ** Decimal numerals *)

Lemma digit_char_spec (d : Z) :
  0 <= d <= 9 ->
  is_digit (digit_char d) = true /\ digit_val (digit_char d) = d /\
  (Ascii.eqb (digit_char d) "0" = (d =? 0)).
Proof.
  intros H.
  assert (C : d = 0 \/ d = 1 \/ d = 2 \/ d = 3 \/ d = 4 \/ d = 5 \/ d = 6 \/
              d = 7 \/ d = 8 \/ d = 9) by lia.
  repeat (destruct C as [->|C]; [repeat split|]); subst; repeat split.
Qed.

Lemma digits_only_app (a b : string) :
  digits_only (a ++ b) = digits_only a && digits_only b.
Proof.
  induction a as [|c a IH]; simpl; [reflexivity|].
  now rewrite IH, andb_assoc.
Qed.

Lemma int_of_digits_app (a b : string) (acc : Z) :
  int_of_digits (a ++ b) acc = int_of_digits b (int_of_digits a acc).
Proof. revert acc. induction a as [|c a IH]; intros acc; simpl; [reflexivity | apply IH]. Qed.

Lemma strlen_app (a b : string) : strlen (a ++ b) = strlen a + strlen b.
Proof. unfold strlen. rewrite str_length_app. lia. Qed.

Lemma strlen_cons (c : ascii) (s : string) : strlen (String c s) = 1 + strlen s.
Proof. unfold strlen. cbn [String.length]. lia. Qed.

Lemma strlen_nonneg (s : string) : 0 <= strlen s.
Proof. unfold strlen. lia. Qed.

Lemma int_of_digits_shift (s : string) (acc : Z) :
  int_of_digits s acc = acc * 10 ^ strlen s + int_of_digits s 0.
Proof.
  revert acc. induction s as [|c s IH]; intros acc.
  - simpl. change (strlen "") with 0. lia.
  - cbn [int_of_digits]. rewrite IH, (IH (0 * 10 + digit_val c)).
    rewrite strlen_cons, Z.pow_add_r by (pose proof (strlen_nonneg s); lia).
    ring.
Qed.

Lemma digits_of_spec (fuel : nat) :
  forall n acc, 0 <= n < 10 ^ Z.of_nat fuel -> (0 < fuel)%nat ->
  exists ds,
    digits_of fuel n acc = ds ++ acc /\
    digits_only ds = true /\
    0 < strlen ds /\
    int_of_digits ds 0 = n /\
    (0 < n -> head_nonzero ds = true /\ 10 ^ (strlen ds - 1) <= n < 10 ^ strlen ds) /\
    (n = 0 -> ds = "0").
Proof.
  induction fuel as [|fuel IH]; intros n acc Hn Hf; [lia|].
  cbn [digits_of].
  assert (Hd : 0 <= n mod 10 <= 9) by (pose proof (Z.mod_pos_bound n 10); lia).
  destruct (digit_char_spec _ Hd) as [D1 [D2 D3]].
  fold (digit_char (n mod 10)).
  destruct (Z.ltb_spec n 10) as [Hlt|Hge].
  - exists (String (digit_char (n mod 10)) "").
    rewrite Z.mod_small in * by lia.
    split; [reflexivity|]. split; [simpl; now rewrite D1|].
    split; [reflexivity|]. split; [simpl; lia|]. split.
    + intros Hpos. split; [|change (strlen _) with 1; simpl; lia].
      simpl. rewrite D3. destruct (Z.eqb_spec n 0); [lia | reflexivity].
    + intros ->. reflexivity.
  - assert (Hfuel : (0 < fuel)%nat).
    { destruct fuel; [|lia]. simpl in Hn. lia. }
    assert (Hq : 0 <= n / 10 < 10 ^ Z.of_nat fuel).
    { split; [apply Z.div_pos; lia|].
      apply Z.div_lt_upper_bound; [lia|].
      rewrite Nat2Z.inj_succ, Z.pow_succ_r in Hn by lia. lia. }
    destruct (IH (n / 10) (String (digit_char (n mod 10)) acc) Hq Hfuel)
      as (ds & E & Hdo & Hlen & Hval & Hpos & _).
    assert (Hq1 : 0 < n / 10) by (apply Z.div_str_pos; lia).
    destruct (Hpos Hq1) as [Hh [Hlo Hhi]].
    exists (ds ++ String (digit_char (n mod 10)) "").
    split; [rewrite E, str_app_assoc; reflexivity|].
    split; [rewrite digits_only_app, Hdo; simpl; now rewrite D1|].
    rewrite strlen_app. change (strlen (String _ "")) with 1.
    split; [lia|]. split.
    + rewrite int_of_digits_app, Hval. simpl. rewrite D2.
      pose proof (Z.div_mod n 10). lia.
    + split; [|lia]. intros _. split.
      * destruct ds; [discriminate Hh | exact Hh].
      * replace (strlen ds + 1 - 1) with (Z.succ (strlen ds - 1)) by lia.
        replace (strlen ds + 1) with (Z.succ (strlen ds)) by lia.
        rewrite !Z.pow_succ_r by lia.
        pose proof (Z.div_mod n 10). lia.
Qed.

Lemma decimal_spec (n : Z) :
  0 <= n ->
  digits_only (decimal n) = true /\
  0 < strlen (decimal n) /\
  int_of_digits (decimal n) 0 = n /\
  (0 < n -> head_nonzero (decimal n) = true /\
            10 ^ (strlen (decimal n) - 1) <= n < 10 ^ strlen (decimal n)) /\
  (n = 0 -> decimal n = "0").
Proof.
  intros Hn. unfold decimal.
  assert (Hb : 0 <= n < 10 ^ Z.of_nat (S (Z.to_nat (Z.log2 n)))).
  { split; [exact Hn|].
    rewrite Nat2Z.inj_succ, Z2Nat.id by apply Z.log2_nonneg.
    destruct (Z.eq_dec n 0) as [->|Hne]; [simpl; lia|].
    destruct (Z.log2_spec n ltac:(lia)) as [_ H].
    assert (2 ^ Z.succ (Z.log2 n) <= 10 ^ Z.succ (Z.log2 n)).
    { apply Z.pow_le_mono_l. lia. }
    lia. }
  destruct (digits_of_spec _ n "" Hb ltac:(lia)) as (ds & E & H).
  rewrite E, str_app_nil_r. exact H.
Qed.

(** ** Powers of ten *)

Local Open Scope Q_scope.

Lemma pow10_pos k : 0 < pow10 k.
Proof. apply Qpower_0_lt. reflexivity. Qed.

Lemma pow10_add a b : pow10 (a + b) == pow10 a * pow10 b.
Proof. apply Qpower_plus. intros H. discriminate H. Qed.

Lemma pow10_Z k : (0 <= k)%Z -> pow10 k == inject_Z (10 ^ k).
Proof. intros H. unfold pow10. now rewrite Zpower_Qpower. Qed.

Lemma pow10_opp_mul k : pow10 k * pow10 (- k) == 1.
Proof. rewrite <- pow10_add. now replace (k + - k)%Z with 0%Z by ring. Qed.

Lemma pow10_le a b : (a <= b)%Z -> pow10 a <= pow10 b.
Proof. intros H. apply Qpower_le_compat_l; [exact H | discriminate]. Qed.

Lemma pow10_lt a b : (a < b)%Z -> pow10 a < pow10 b.
Proof. intros H. apply Qpower_lt_compat_l; [exact H | reflexivity]. Qed.

Lemma pow10_lt_inv a b : pow10 a < pow10 b -> (a < b)%Z.
Proof. intros H. apply (Qpower_lt_compat_l_inv 10); [exact H | reflexivity]. Qed.

Lemma pow10_le_inv a b : pow10 a <= pow10 b -> (a <= b)%Z.
Proof. intros H. apply (Qpower_le_compat_l_inv 10); [exact H | reflexivity]. Qed.

(** The floor and the remainder of a fraction. *)
Lemma div_mod_Q (a b : Z) :
  (0 < b)%Z ->
  inject_Z a / inject_Z b == inject_Z (a / b) + inject_Z (a mod b) / inject_Z b.
Proof.
  intros Hb. assert (HB : 0 < inject_Z b) by now apply inject_Z_pos_lt.
  rewrite (Z.div_mod a b) at 1 by lia.
  rewrite inject_Z_plus, inject_Z_mult. field. lra.
Qed.

Lemma frac_bounds (r b : Z) :
  (0 < b)%Z -> (0 <= r < b)%Z ->
  0 <= inject_Z r / inject_Z b /\ inject_Z r / inject_Z b < 1 /\
  ((2 * r < b)%Z -> inject_Z r / inject_Z b < 1#2) /\
  ((b < 2 * r)%Z -> 1#2 < inject_Z r / inject_Z b) /\
  ((2 * r = b)%Z -> inject_Z r / inject_Z b == 1#2).
Proof.
  intros Hb Hr. assert (HB : 0 < inject_Z b) by now apply inject_Z_pos_lt.
  split; [|split; [|split; [|split]]].
  - apply Qle_shift_div_l; [exact HB|]. rewrite Qmult_0_l, <- inj_0, <- Zle_Qle. lia.
  - apply Qlt_shift_div_r; [exact HB|]. rewrite Qmult_1_l, <- Zlt_Qlt. lia.
  - intros H. apply Qlt_shift_div_r; [exact HB|].
    rewrite Zlt_Qlt, inject_Z_mult in H. change (inject_Z 2) with 2 in H. lra.
  - intros H. apply Qlt_shift_div_l; [exact HB|].
    rewrite Zlt_Qlt, inject_Z_mult in H. change (inject_Z 2) with 2 in H. lra.
  - intros H. rewrite <- H, inject_Z_mult in HB |- *. change (inject_Z 2) with 2 in *.
    field. lra.
Qed.

(** ** The digits that [repr] chooses *)

Lemma same_float_eq (x y : float) : same_float x y = true -> x = y.
Proof.
  destruct x as [a|a| |a m e], y as [b|b| |b m' e']; simpl; try discriminate.
  - intros H. apply Bool.eqb_prop in H. now subst.
  - intros H. apply Bool.eqb_prop in H. now subst.
  - reflexivity.
  - intros H. apply andb_prop in H. destruct H as [H He].
    apply andb_prop in H. destruct H as [Hs Hm].
    apply Bool.eqb_prop in Hs. apply Pos.eqb_eq in Hm. apply Z.eqb_eq in He.
    now subst.
Qed.

Section Repr.
Variable m : positive.
Variable e : Z.
Hypothesis Hvalid : valid_binary prec emax (S754_finite false m e) = true.

Lemma repr_fraction :
  (0 < fnum m e)%Z /\ (0 < fden e)%Z /\
  inject_Z (fnum m e) / inject_Z (fden e) == absval m e.
Proof.
  unfold fnum, fden, absval. destruct (Z.leb_spec 0 e) as [He|He].
  - split; [|split; [lia|]].
    + apply Z.mul_pos_pos; [lia | apply Z.pow_pos_nonneg; lia].
    + rewrite inject_Z_mult, <- bpow_Z by lia. change (inject_Z 1) with 1. field.
  - assert (Hp : (0 < 2 ^ (- e))%Z) by (apply Z.pow_pos_nonneg; lia).
    split; [lia|]. split; [exact Hp|].
    rewrite <- bpow_Z by lia.
    pose proof (bpow_opp_mul e) as E. pose proof (bpow_pos (- e)) as P.
    transitivity (inject_Z (Zpos m) * (bpow e * bpow (- e)) / bpow (- e)).
    + rewrite E. field. lra.
    + field. lra.
Qed.

Lemma valid_bounds :
  (-1074 <= e <= 971)%Z /\ (Zpos m <= 2 ^ 53 - 1)%Z /\
  ((-1074 < e)%Z -> (2 ^ 52 <= Zpos m)%Z).
Proof.
  pose proof Hvalid as Hv.
  cbn [valid_binary] in Hv. unfold bounded, canonical_mantissa in Hv.
  rewrite fexp_eq in Hv.
  apply andb_prop in Hv. destruct Hv as [Hc Hb].
  apply Z.eqb_eq in Hc. apply Z.leb_le in Hb. change (emax - prec)%Z with 971%Z in Hb.
  destruct (Zdigits2_spec (Zpos m) eq_refl) as [[A1 A2] A3].
  change (Zdigits2 (Zpos m)) with (Zpos (digits2_pos m)) in *.
  set (d := Zpos (digits2_pos m)) in *. clearbody d.
  split; [lia|]. split.
  - assert (2 ^ d <= 2 ^ 53)%Z by (apply Z.pow_le_mono_r; lia). lia.
  - intros He. assert (d = 53%Z) by lia. subst d. exact A1.
Qed.

Lemma value_bounds : bpow (-1074) <= absval m e /\ absval m e < bpow 1024.
Proof.
  destruct valid_bounds as [He [Hm _]]. unfold absval.
  pose proof (bpow_pos e) as Bp.
  assert (M1 : 1 <= inject_Z (Zpos m)) by apply inj_pos.
  assert (MU : inject_Z (Zpos m) < inject_Z (2 ^ 53)) by (rewrite <- Zlt_Qlt; lia).
  split.
  - assert (bpow (-1074) <= bpow e) by (apply bpow_le; lia).
    assert (1 * bpow e <= inject_Z (Zpos m) * bpow e) by (apply Qmult_le_compat_r; lra).
    lra.
  - assert (bpow (e + 53) <= bpow 1024) by (apply bpow_le; lia).
    rewrite bpow_shift in H by lia.
    assert (inject_Z (Zpos m) * bpow e < inject_Z (2 ^ 53) * bpow e)
      by (apply Qmult_lt_compat_r; lra).
    lra.
Qed.

Lemma fk_spec : pow10 (fk m e) <= absval m e /\ absval m e < pow10 (fk m e + 1).
Proof.
  destruct repr_fraction as [Hn [Hd E]]. rewrite <- E. unfold fk.
  set (num := fnum m e) in *. set (den := fden e) in *. clearbody num den.
  assert (HD : 0 < inject_Z den) by now apply inject_Z_pos_lt.
  assert (HN : 0 < inject_Z num) by now apply inject_Z_pos_lt.
  destruct (Z.leb_spec den num) as [Hle|Hlt].
  - assert (Hq : (0 < num / den)%Z) by (apply Z.div_str_pos; lia).
    destruct (decimal_spec (num / den) ltac:(lia)) as (_ & HL & _ & Hmag & _).
    destruct (Hmag Hq) as [_ [M1 M2]].
    set (L := strlen (decimal (num / den))) in *. clearbody L.
    replace (L - 1 + 1)%Z with L by ring.
    rewrite !pow10_Z by lia.
    pose proof (Z.div_mod num den ltac:(lia)) as Hdm.
    pose proof (Z.mod_pos_bound num den Hd) as Hr.
    split.
    + apply Qle_shift_div_l; [exact HD|].
      rewrite <- inject_Z_mult, <- Zle_Qle. nia.
    + apply Qlt_shift_div_r; [exact HD|].
      rewrite <- inject_Z_mult, <- Zlt_Qlt. nia.
  - pose proof (Z.div_mod (den - 1) num ltac:(lia)) as Hdm.
    pose proof (Z.mod_pos_bound (den - 1) num Hn) as Hr.
    assert (Hq : (0 < (den - 1) / num)%Z) by (apply Z.div_str_pos; lia).
    destruct (decimal_spec ((den - 1) / num) ltac:(lia)) as (_ & HL & _ & Hmag & _).
    destruct (Hmag Hq) as [_ [M1 M2]].
    set (N := ((den - 1) / num)%Z) in *.
    set (L := strlen (decimal N)) in *. clearbody L N.
    assert (P1 : pow10 (- L) * inject_Z (10 ^ L) == 1).
    { rewrite <- pow10_Z by lia. rewrite Qmult_comm. apply pow10_opp_mul. }
    assert (P2 : pow10 (- L + 1) * inject_Z (10 ^ (L - 1)) == 1).
    { rewrite <- pow10_Z by lia. rewrite Qmult_comm.
      replace (- L + 1)%Z with (- (L - 1))%Z by ring. apply pow10_opp_mul. }
    assert (T1 : 0 < inject_Z (10 ^ L)).
    { apply inject_Z_pos_lt. apply Z.pow_pos_nonneg; lia. }
    assert (T2 : 0 < inject_Z (10 ^ (L - 1))).
    { apply inject_Z_pos_lt. apply Z.pow_pos_nonneg; lia. }
    assert (A : inject_Z den <= inject_Z num * inject_Z (10 ^ L)).
    { rewrite <- inject_Z_mult, <- Zle_Qle. nia. }
    assert (B : inject_Z num * inject_Z (10 ^ (L - 1)) < inject_Z den).
    { rewrite <- inject_Z_mult, <- Zlt_Qlt. nia. }
    split.
    + apply Qle_shift_div_l; [exact HD|].
      pose proof (pow10_pos (- L)) as Hx.
      assert (S1 : pow10 (- L) * inject_Z den <=
                   pow10 (- L) * (inject_Z num * inject_Z (10 ^ L)))
        by (apply Qmult_le_l; assumption).
      assert (S2 : pow10 (- L) * (inject_Z num * inject_Z (10 ^ L)) == inject_Z num).
      { transitivity (inject_Z num * (pow10 (- L) * inject_Z (10 ^ L)));
          [ring | rewrite P1; ring]. }
      lra.
    + apply Qlt_shift_div_r; [exact HD|].
      pose proof (pow10_pos (- L + 1)) as Hx.
      assert (S1 : pow10 (- L + 1) * (inject_Z num * inject_Z (10 ^ (L - 1))) <
                   pow10 (- L + 1) * inject_Z den)
        by (apply Qmult_lt_l; assumption).
      assert (S2 : pow10 (- L + 1) * (inject_Z num * inject_Z (10 ^ (L - 1))) ==
                   inject_Z num).
      { transitivity (inject_Z num * (pow10 (- L + 1) * inject_Z (10 ^ (L - 1))));
          [ring | rewrite P2; ring]. }
      lra.
Qed.

Lemma fk_bounds : (-324 <= fk m e <= 308)%Z.
Proof.
  destruct fk_spec as [H1 H2]. destruct value_bounds as [V1 V2].
  assert (A : bpow 1024 < pow10 309) by (vm_compute; reflexivity).
  assert (B : pow10 (-324) < bpow (-1074)) by (vm_compute; reflexivity).
  assert (C : pow10 (fk m e) < pow10 309) by lra.
  assert (D : pow10 (-324) < pow10 (fk m e + 1)) by lra.
  apply pow10_lt_inv in C, D. lia.
Qed.

Lemma scaled_fraction (p : Z) :
  (0 < scaled_den (fden e) p)%Z /\
  inject_Z (scaled_num (fnum m e) p) / inject_Z (scaled_den (fden e) p) ==
    absval m e * pow10 (- p).
Proof.
  destruct repr_fraction as [Hn [Hd E]]. rewrite <- E.
  unfold scaled_num, scaled_den.
  set (num := fnum m e) in *. set (den := fden e) in *. clearbody num den.
  assert (HD : 0 < inject_Z den) by now apply inject_Z_pos_lt.
  destruct (Z.leb_spec 0 p) as [Hp|Hp].
  - assert (Hq : (0 < 10 ^ p)%Z) by (apply Z.pow_pos_nonneg; lia).
    split; [nia|].
    rewrite inject_Z_mult, <- pow10_Z by lia.
    pose proof (pow10_opp_mul p) as P. pose proof (pow10_pos p) as Pp.
    transitivity (inject_Z num / inject_Z den * (pow10 p * pow10 (- p)) / pow10 p).
    + rewrite P. field. split; lra.
    + field. split; lra.
  - split; [exact Hd|].
    rewrite inject_Z_mult, <- pow10_Z by lia. field. lra.
Qed.

Lemma nearest_int_close (a b : Z) :
  (0 < b)%Z ->
  inject_Z (nearest_int a b) - (1#2) <= inject_Z a / inject_Z b /\
  inject_Z a / inject_Z b <= inject_Z (nearest_int a b) + (1#2) /\
  (a / b <= nearest_int a b)%Z.
Proof.
  intros Hb. rewrite (div_mod_Q a b Hb).
  pose proof (Z.mod_pos_bound a b Hb) as Hr.
  destruct (frac_bounds (a mod b) b Hb Hr) as (F0 & F1 & Flt & Fgt & Feq).
  unfold nearest_int.
  destruct (Z.compare_spec (2 * (a mod b)) b) as [E|L|G].
  - specialize (Feq E). destruct (Z.even (a / b)).
    + split; [lra|]. split; [lra | lia].
    + rewrite inject_Z_plus. change (inject_Z 1) with 1.
      split; [lra|]. split; [lra | lia].
  - specialize (Flt L). split; [lra|]. split; [lra | lia].
  - specialize (Fgt G). rewrite inject_Z_plus. change (inject_Z 1) with 1.
    split; [lra|]. split; [lra | lia].
Qed.

(** Seventeen significant digits always read back. *)
Lemma seventeen_digits :
  float_of_decimal false
    (nearest_int (scaled_num (fnum m e) (fk m e - 16))
                 (scaled_den (fden e) (fk m e - 16)))
    18 (fk m e - 16) = S754_finite false m e.
Proof.
  destruct (scaled_fraction (fk m e - 16)) as [Hb E].
  destruct (nearest_int_close (scaled_num (fnum m e) (fk m e - 16))
              (scaled_den (fden e) (fk m e - 16)) Hb) as (N1 & N2 & N3).
  set (n0 := nearest_int _ _) in *.
  set (a := scaled_num _ _) in *. set (b := scaled_den _ _) in *.
  rewrite E in N1, N2.
  destruct fk_spec as [K1 _]. pose proof fk_bounds as Kb.
  destruct valid_bounds as (He & Hm53 & Hm52).
  set (k := fk m e) in *. set (p := (k - 16)%Z) in *.
  pose proof (pow10_pos p) as Tp. pose proof (pow10_pos (- p)) as Tn.
  pose proof (pow10_opp_mul p) as TT.
  assert (Ek : pow10 p * 10000000000000000 == pow10 k).
  { assert (X : pow10 16 == 10000000000000000) by reflexivity.
    rewrite <- X, <- pow10_add. unfold p. now replace (k - 16 + 16)%Z with k by ring. }
  assert (EV : absval m e * pow10 (- p) * pow10 p == absval m e).
  { transitivity (absval m e * (pow10 p * pow10 (- p))); [ring | rewrite TT; ring]. }
  assert (L1 : (inject_Z n0 - (1#2)) * pow10 p <= absval m e * pow10 (- p) * pow10 p)
    by (apply Qmult_le_compat_r; lra).
  assert (L2 : absval m e * pow10 (- p) * pow10 p <= (inject_Z n0 + (1#2)) * pow10 p)
    by (apply Qmult_le_compat_r; lra).
  rewrite EV in L1, L2.
  pose proof (bpow_pos e) as Bp.
  assert (MU : inject_Z (Zpos m) <= inject_Z (2 ^ 53 - 1)) by now rewrite <- Zle_Qle.
  change (inject_Z (2 ^ 53 - 1)) with 9007199254740991 in MU.
  assert (VU : absval m e <= 9007199254740991 * bpow e).
  { unfold absval. apply Qmult_le_compat_r; lra. }
  assert (Hn0 : (0 < n0)%Z).
  { assert (W : 10000000000000000 <= absval m e * pow10 (- p)).
    { assert (X : pow10 k * pow10 (- p) <= absval m e * pow10 (- p))
        by (apply Qmult_le_compat_r; lra).
      assert (Y : pow10 k * pow10 (- p) == 10000000000000000).
      { rewrite <- Ek. transitivity (10000000000000000 * (pow10 p * pow10 (- p)));
          [ring | rewrite TT; ring]. }
      lra. }
    assert (Z0 : inject_Z 0 < inject_Z n0) by (rewrite inj_0; lra).
    now rewrite <- Zlt_Qlt in Z0. }
  destruct n0 as [|q|q] eqn:En0; [lia| |lia].
  apply (rounds_close false m e (inject_Z (Zpos q) * pow10 p)).
  - exact Hvalid.
  - fold (absval m e). rewrite bpow_pred. lra.
  - fold (absval m e). rewrite bpow_pred. lra.
  - intros Em Hne. fold (absval m e).
    assert (E2 : bpow (e - 2) == (1#4) * bpow e).
    { replace (e - 2)%Z with (e - 1 - 1)%Z by ring. rewrite !bpow_pred. ring. }
    rewrite E2.
    assert (VE : absval m e == 4503599627370496 * bpow e).
    { unfold absval. now rewrite Em. }
    lra.
  - apply float_of_decimal_rounds; unfold p; lia.
Qed.

Lemma shortest_digits_unfold (fuel : nat) (x : float) (num den k n : Z) :
  shortest_digits (S fuel) x num den k n =
    let p := (k - n + 1)%Z in
    let a := scaled_num num p in
    let b := scaled_den den p in
    let lo := (a / b)%Z in
    let hi := (lo + 1)%Z in
    if same_float (float_of_decimal false lo (n + 1) p) x &&
       same_float (float_of_decimal false hi (n + 1) p) x
    then (nearest_int a b, p)
    else if same_float (float_of_decimal false lo (n + 1) p) x then (lo, p)
    else if same_float (float_of_decimal false hi (n + 1) p) x then (hi, p)
    else shortest_digits fuel x num den k (n + 1).
Proof. reflexivity. Qed.

Lemma shortest_digits_zero (x : float) (num den k n : Z) :
  shortest_digits 0 x num den k n =
    (nearest_int (scaled_num num (k - n + 1)) (scaled_den den (k - n + 1)),
     (k - n + 1)%Z).
Proof. reflexivity. Qed.

Lemma shortest_digits_spec (fuel : nat) :
  forall n : Z,
    (1 <= n)%Z -> (n + Z.of_nat fuel = 17)%Z ->
    exists n',
      (1 <= n' <= 17)%Z /\
      snd (shortest_digits fuel (S754_finite false m e) (fnum m e) (fden e) (fk m e) n) =
        (fk m e - n' + 1)%Z /\
      float_of_decimal false
        (fst (shortest_digits fuel (S754_finite false m e) (fnum m e) (fden e) (fk m e) n))
        (n' + 1)
        (fk m e - n' + 1) = S754_finite false m e.
Proof.
  induction fuel as [|fuel IH]; intros n Hn Hsum.
  - assert (n = 17%Z) by lia. subst n. exists 17%Z.
    split; [lia|]. split; [reflexivity|].
    rewrite shortest_digits_zero. cbn [fst].
    replace (fk m e - 17 + 1)%Z with (fk m e - 16)%Z by ring.
    exact seventeen_digits.
  - rewrite shortest_digits_unfold. cbv zeta.
    set (p := (fk m e - n + 1)%Z).
    set (a := scaled_num (fnum m e) p). set (b := scaled_den (fden e) p).
    destruct (same_float (float_of_decimal false (a / b) (n + 1) p)
                (S754_finite false m e)) eqn:Elo;
      destruct (same_float (float_of_decimal false (a / b + 1) (n + 1) p)
                  (S754_finite false m e)) eqn:Ehi; cbn [andb fst snd].
    + exists n. split; [lia|]. split; [reflexivity|].
      apply same_float_eq in Elo, Ehi. unfold nearest_int.
      destruct (2 * (a mod b) ?= b)%Z; [destruct (Z.even (a / b))| |]; assumption.
    + exists n. split; [lia|]. split; [reflexivity|]. now apply same_float_eq.
    + exists n. split; [lia|]. split; [reflexivity|]. now apply same_float_eq.
    + apply IH; lia.
Qed.

End Repr.

End Digits.

Section Numerals.
Local Open Scope Q_scope.
Local Open Scope Z_scope.

(** ** Reading numerals: the characters *)

Lemma digit_facts (c : ascii) :
  is_digit c = true ->
  is_space c = false /\ lower c = c /\
  Ascii.eqb c "." = false /\ Ascii.eqb c "_" = false /\
  Ascii.eqb c "e" = false /\ Ascii.eqb c "-" = false /\
  Ascii.eqb c "+" = false /\ Ascii.eqb c "i" = false /\
  Ascii.eqb c "n" = false /\ Ascii.eqb c dquote = false /\
  Ascii.eqb c "{" = false /\ Ascii.eqb c "[" = false /\
  Ascii.eqb c "t" = false /\ Ascii.eqb c "f" = false.
Proof.
  destruct c as [[] [] [] [] [] [] [] []]; intros H; try discriminate H;
    repeat split.
Qed.

Lemma no_space_app (a b : string) : no_space (a ++ b) = no_space a && no_space b.
Proof.
  induction a as [|c a IH]; simpl; [reflexivity|]. now rewrite IH, andb_assoc.
Qed.

Lemma digits_no_space (s : string) : digits_only s = true -> no_space s = true.
Proof.
  induction s as [|c s IH]; simpl; [reflexivity|].
  intros H. apply andb_prop in H. destruct H as [Hc Hs].
  destruct (digit_facts c Hc) as [-> _]. simpl. auto.
Qed.

Lemma lstrip_no_space (s : string) : no_space s = true -> lstrip s = s.
Proof.
  destruct s as [|c s]; simpl; [reflexivity|].
  intros H. apply andb_prop in H. destruct H as [Hc _].
  now destruct (is_space c).
Qed.

Lemma rstrip_no_space (s : string) : no_space s = true -> rstrip s = s.
Proof.
  induction s as [|c s IH]; [reflexivity|].
  cbn [no_space rstrip]. intros H. apply andb_prop in H. destruct H as [Hc Hs].
  rewrite (IH Hs). destruct s; [|reflexivity].
  now destruct (is_space c).
Qed.

Lemma strip_no_space (s : string) : no_space s = true -> strip s = s.
Proof.
  intros H. unfold strip. rewrite (lstrip_no_space s H). now apply rstrip_no_space.
Qed.

Lemma digitpart_tail_digits (ds r : string) (acc nd : Z) :
  digits_only ds = true -> stops r = true ->
  digitpart_tail (ds ++ r) acc nd = (int_of_digits ds acc, nd + strlen ds, r).
Proof.
  revert acc nd. induction ds as [|c ds IH]; intros acc nd Hd Hr.
  - change (strlen "") with 0. rewrite Z.add_0_r. cbn [append int_of_digits].
    destruct r as [|c r]; [reflexivity|].
    cbn [stops] in Hr. apply andb_prop in Hr. destruct Hr as [H1 H2].
    cbn [digitpart_tail].
    destruct (is_digit c); [discriminate H1|].
    destruct (Ascii.eqb c "_"); [discriminate H2 | reflexivity].
  - cbn [digits_only] in Hd. apply andb_prop in Hd. destruct Hd as [Hc Hd].
    cbn [append digitpart_tail int_of_digits]. rewrite Hc, IH by assumption.
    rewrite strlen_cons. f_equal. f_equal. lia.
Qed.

Lemma digitpart_digits (ds r : string) (acc nd : Z) :
  digits_only ds = true -> ds <> EmptyString -> stops r = true ->
  digitpart (ds ++ r) acc nd = Some (int_of_digits ds acc, nd + strlen ds, r).
Proof.
  intros Hd Hne Hr. destruct ds as [|c ds]; [contradiction|].
  cbn [digits_only] in Hd. apply andb_prop in Hd. destruct Hd as [Hc Hd].
  cbn [append digitpart]. rewrite Hc.
  rewrite digitpart_tail_digits by assumption.
  cbn [int_of_digits]. rewrite strlen_cons. do 3 f_equal. lia.
Qed.

Lemma take_digits_digits (ds r : string) :
  digits_only ds = true ->
  match r with String c _ => is_digit c = false | EmptyString => True end ->
  take_digits (ds ++ r) = (ds, r).
Proof.
  intros Hd Hr. induction ds as [|c ds IH].
  - cbn [append]. destruct r as [|c r]; [reflexivity|].
    cbn [take_digits]. now rewrite Hr.
  - cbn [digits_only] in Hd. apply andb_prop in Hd. destruct Hd as [Hc Hd].
    cbn [append take_digits]. rewrite Hc, (IH Hd). reflexivity.
Qed.

(** ** Reading a numeral with [float] *)

Lemma read_sign_digit (c : ascii) (r : string) :
  is_digit c = true -> read_sign (String c r) = (false, String c r).
Proof.
  destruct c as [[] [] [] [] [] [] [] []]; intros H; try discriminate H; reflexivity.
Qed.

Lemma not_special (c : ascii) (r : string) :
  is_digit c = true ->
  (lower_str (String c r) =? "inf")%string = false /\
  (lower_str (String c r) =? "infinity")%string = false /\
  (lower_str (String c r) =? "nan")%string = false.
Proof.
  destruct c as [[] [] [] [] [] [] [] []]; intros H; try discriminate H;
    repeat split.
Qed.

Lemma stops_dotted_exp (F : string) (ev : option (bool * string)) :
  stops (dotted F ++ exp_part ev) = true.
Proof.
  destruct F as [|c F]; [|reflexivity].
  destruct ev as [[neg Ed]|]; reflexivity.
Qed.

Lemma stops_exp (ev : option (bool * string)) : stops (exp_part ev) = true.
Proof. destruct ev as [[neg Ed]|]; reflexivity. Qed.

Lemma read_exponent_part (ev : option (bool * string)) :
  exp_ok ev -> read_exponent (exp_part ev) = Some (exp_value ev).
Proof.
  destruct ev as [[neg Ed]|]; [|reflexivity].
  intros [Hd Hne]. cbn [exp_part exp_value read_exponent].
  change (Ascii.eqb (lower "e") "e") with true. cbv iota.
  assert (Hs : read_sign ((if neg then "-" else "+") ++ Ed) = (neg, Ed))
    by (destruct neg; reflexivity).
  rewrite Hs.
  pose proof (digitpart_digits Ed "" 0 0 Hd Hne eq_refl) as H.
  rewrite str_app_nil_r in H. rewrite H. reflexivity.
Qed.

Lemma no_space_numeral (neg : bool) (I F : string) (ev : option (bool * string)) :
  digits_only I = true -> digits_only F = true -> exp_ok ev ->
  no_space (sign_str neg ++ I ++ dotted F ++ exp_part ev) = true.
Proof.
  intros HI HF He. rewrite !no_space_app.
  rewrite (digits_no_space I HI).
  assert (H1 : no_space (sign_str neg) = true) by (destruct neg; reflexivity).
  assert (H2 : no_space (dotted F) = true).
  { destruct F as [|c F]; [reflexivity|].
    change (dotted (String c F)) with (String "." (String c F)).
    cbn [no_space]. change (is_space ".") with false.
    now apply (digits_no_space (String c F)). }
  assert (H3 : no_space (exp_part ev) = true).
  { destruct ev as [[n Ed]|]; [|reflexivity]. destruct He as [Hd _].
    cbn [exp_part no_space]. change (is_space "e") with false.
    rewrite no_space_app, (digits_no_space Ed Hd). destruct n; reflexivity. }
  now rewrite H1, H2, H3.
Qed.

Lemma py_float_numeral (neg : bool) (I F : string) (ev : option (bool * string)) :
  digits_only I = true -> I <> EmptyString -> digits_only F = true -> exp_ok ev ->
  py_float (sign_str neg ++ I ++ dotted F ++ exp_part ev) =
    Some (float_of_decimal neg (int_of_digits (I ++ F) 0)
            (strlen I + strlen F) (exp_value ev - strlen F)).
Proof.
  intros HI Hne HF He. unfold py_float.
  rewrite strip_no_space by now apply no_space_numeral.
  destruct I as [|c I]; [contradiction|].
  pose proof HI as HI'. cbn [digits_only] in HI'. apply andb_prop in HI'.
  destruct HI' as [Hc _].
  assert (Hs : read_sign (sign_str neg ++ String c I ++ dotted F ++ exp_part ev) =
               (neg, String c I ++ dotted F ++ exp_part ev)).
  { destruct neg; [reflexivity|]. cbn [sign_str append]. now apply read_sign_digit. }
  rewrite Hs.
  destruct (not_special c (I ++ dotted F ++ exp_part ev) Hc) as (N1 & N2 & N3).
  cbn [append] in *. rewrite N1, N2, N3. cbn [orb].
  change (String c (I ++ dotted F ++ exp_part ev))
    with (String c I ++ dotted F ++ exp_part ev).
  unfold read_number.
  rewrite (digitpart_digits (String c I) (dotted F ++ exp_part ev) 0 0 HI)
    by (try discriminate; apply stops_dotted_exp).
  rewrite Z.add_0_l.
  destruct F as [|d F].
  - cbn [dotted append].
    change (strlen "") with 0. rewrite Z.add_0_r, Z.sub_0_r.
    pose proof (read_exponent_part ev He) as Hx.
    rewrite str_app_nil_r.
    destruct ev as [[n Ed]|]; cbn [exp_part] in *; cbv iota beta; rewrite Hx;
      cbv iota beta; rewrite ?Z.sub_0_r; reflexivity.
  - change (dotted (String d F) ++ exp_part ev)
      with (String "." (String d F ++ exp_part ev)).
    cbv iota.
    rewrite (digitpart_digits (String d F) (exp_part ev) _ _ HF)
      by (try discriminate; apply stops_exp).
    rewrite (read_exponent_part ev He).
    pose proof (int_of_digits_app (String c I) (String d F) 0) as Ev.
    cbn [append] in Ev. rewrite Ev.
    do 2 f_equal. lia.
Qed.

(** ** Reading a numeral with the JSON scanner *)

Lemma parse_value_number (d : ascii) (r : string) (fuel : nat) :
  is_digit d = true \/ d = "-"%char ->
  parse_value (S fuel) (skip_ws (String d r)) = scan_number (String d r).
Proof.
  intros [H| ->]; [|reflexivity].
  destruct d as [[] [] [] [] [] [] [] []]; try discriminate H; reflexivity.
Qed.

Lemma match_integer_digits (neg : bool) (I R : string) :
  digits_only I = true -> (I = "0" \/ head_nonzero I = true) ->
  match R with String c _ => is_digit c = false | EmptyString => True end ->
  match_integer (sign_str neg ++ I ++ R) = Some (sign_str neg ++ I, R).
Proof.
  intros HI Hz HR. unfold match_integer.
  assert (Hs : (match sign_str neg ++ I ++ R with
                | String "-" r => ("-", r)
                | _ => (EmptyString, sign_str neg ++ I ++ R)
                end) = (sign_str neg, I ++ R)).
  { destruct neg; [reflexivity|]. cbn [sign_str append].
    destruct I as [|d I]; [destruct Hz; discriminate|].
    cbn [digits_only] in HI. apply andb_prop in HI. destruct HI as [Hd _].
    cbn [append].
    destruct d as [[] [] [] [] [] [] [] []]; try discriminate Hd; reflexivity. }
  rewrite Hs. destruct Hz as [-> | Hh].
  - reflexivity.
  - destruct I as [|d I]; [discriminate Hh|].
    cbn [head_nonzero] in Hh. cbn [digits_only] in HI.
    apply andb_prop in HI. destruct HI as [Hd HI].
    cbn [append]. destruct (Ascii.eqb d "0"); [discriminate Hh|].
    rewrite Hd, (take_digits_digits I R HI HR). reflexivity.
Qed.

Lemma match_frac_digits (F R : string) :
  digits_only F = true ->
  match R with
  | String c _ => is_digit c = false /\ Ascii.eqb c "." = false
  | EmptyString => True
  end ->
  match_frac (dotted F ++ R) = (dotted F, R).
Proof.
  intros HF HR. destruct F as [|d F].
  - cbn [dotted append]. destruct R as [|c R]; [reflexivity|].
    destruct HR as [_ Hc]. unfold match_frac.
    destruct c as [[] [] [] [] [] [] [] []]; try discriminate Hc; reflexivity.
  - change (dotted (String d F) ++ R) with (String "." (String d F ++ R)).
    unfold match_frac.
    rewrite (take_digits_digits (String d F) R HF)
      by (destruct R; [exact I | apply HR]).
    reflexivity.
Qed.

Lemma match_exp_part (ev : option (bool * string)) (c : ascii) (rest : string) :
  exp_ok ev -> c = ","%char \/ c = newline ->
  match_exp (exp_part ev ++ String c rest) = (exp_part ev, String c rest).
Proof.
  intros He Hc. destruct ev as [[neg Ed]|].
  - destruct He as [Hd Hne].
    assert (Ht : take_digits (Ed ++ String c rest) = (Ed, String c rest)).
    { apply take_digits_digits; [exact Hd|]. destruct Hc as [-> | ->]; reflexivity. }
    destruct Ed as [|d Ed]; [contradiction|].
    destruct neg; cbn [exp_part append match_exp];
      change (Ascii.eqb (lower "e") "e") with true; cbv iota;
      cbn [append] in Ht; rewrite Ht; reflexivity.
  - destruct Hc as [-> | ->]; reflexivity.
Qed.

Lemma scan_number_numeral (neg : bool) (I F : string) (ev : option (bool * string))
    (c : ascii) (rest : string) :
  digits_only I = true -> (I = "0" \/ head_nonzero I = true) ->
  digits_only F = true -> exp_ok ev ->
  (F <> EmptyString \/ ev <> None) ->
  c = ","%char \/ c = newline ->
  scan_number ((sign_str neg ++ I ++ dotted F ++ exp_part ev) ++ String c rest) =
    match py_float (sign_str neg ++ I ++ dotted F ++ exp_part ev) with
    | Some x => Decoded (JFloat x, String c rest)
    | None => DecodeError
    end.
Proof.
  intros HI Hz HF He Hne Hc. unfold scan_number.
  rewrite !str_app_assoc.
  rewrite (match_integer_digits neg I (dotted F ++ exp_part ev ++ String c rest) HI Hz).
  2:{ destruct F as [|d F]; [|exact eq_refl].
      cbn [dotted append]. destruct ev as [[n Ed]|]; [reflexivity|].
      destruct Hc as [-> | ->]; reflexivity. }
  rewrite (match_frac_digits F (exp_part ev ++ String c rest) HF).
  2:{ destruct ev as [[n Ed]|]; [split; reflexivity|].
      destruct Hc as [-> | ->]; split; reflexivity. }
  rewrite (match_exp_part ev c rest He Hc).
  destruct F as [|d F].
  - destruct ev as [[n Ed]|]; [|destruct Hne; contradiction].
    cbn [dotted exp_part]. cbv iota. rewrite ?str_app_assoc. reflexivity.
  - cbn [dotted exp_part]. cbv iota. rewrite ?str_app_assoc. reflexivity.
Qed.

(** ** The numerals that [format_repr] writes *)

Lemma zeros_spec (n : nat) :
  digits_only (zeros n) = true /\ strlen (zeros n) = Z.of_nat n /\
  forall acc, int_of_digits (zeros n) acc = acc * 10 ^ Z.of_nat n.
Proof.
  induction n as [|n (H1 & H2 & H3)].
  - repeat split. intros acc. simpl. lia.
  - split; [exact H1|]. split.
    + cbn [zeros]. rewrite strlen_cons, H2. lia.
    + intros acc. cbn [zeros int_of_digits]. rewrite H3.
      change (digit_val "0") with 0.
      rewrite Nat2Z.inj_succ, Z.pow_succ_r by lia. ring.
Qed.

Lemma dotted_cons (F : string) : F <> EmptyString -> dotted F = String "." F.
Proof. destruct F; [contradiction | reflexivity]. Qed.

Lemma insert_point_split (ds : string) (n : nat) :
  (n <= String.length ds)%nat ->
  exists pre suf,
    ds = pre ++ suf /\ String.length pre = n /\
    insert_point ds n = pre ++ String "." suf.
Proof.
  revert ds. induction n as [|n IH]; intros ds Hn.
  - exists EmptyString, ds. repeat split. destruct ds; reflexivity.
  - destruct ds as [|c ds]; [simpl in Hn; lia|].
    destruct (IH ds ltac:(simpl in Hn; lia)) as (pre & suf & E & Hl & Hi).
    exists (String c pre), suf. cbn [append String.length insert_point].
    rewrite <- E, Hl, Hi. repeat split.
Qed.

Lemma digits_only_nonempty_strlen (s : string) : s <> EmptyString -> 0 < strlen s.
Proof. destruct s; [contradiction|]. intros _. rewrite strlen_cons. pose proof (strlen_nonneg s). lia. Qed.

Lemma format_repr_numeral (ds : string) (decpt : Z) :
  digits_only ds = true -> head_nonzero ds = true ->
  exists I F ev,
    format_repr ds decpt = I ++ dotted F ++ exp_part ev /\
    digits_only I = true /\ (I = "0" \/ head_nonzero I = true) /\
    I <> EmptyString /\ digits_only F = true /\ exp_ok ev /\
    (F <> EmptyString \/ ev <> None) /\
    ((int_of_digits (I ++ F) 0 = int_of_digits ds 0 /\
      exp_value ev - strlen F = decpt - strlen ds) \/
     (0 <= decpt - strlen ds <= 16 /\
      int_of_digits (I ++ F) 0 = int_of_digits ds 0 * 10 ^ (decpt - strlen ds + 1) /\
      exp_value ev - strlen F = -1)).
Proof.
  intros Hd Hh. unfold format_repr.
  destruct ds as [|d r]; [discriminate Hh|].
  pose proof Hd as Hd'. cbn [digits_only] in Hd'. apply andb_prop in Hd'.
  destruct Hd' as [Hdd Hdr].
  destruct ((decpt <=? -4) || (16 <? decpt)) eqn:Eexp.
  - (* exponent notation *)
    set (e := decpt - 1).
    destruct (decimal_spec (Z.abs e) (Z.abs_nonneg e)) as (E1 & E2 & E3 & _).
    set (pad := if Z.abs e <? 10 then "0" else EmptyString).
    exists (String d EmptyString), r, (Some (e <? 0, pad ++ decimal (Z.abs e))).
    assert (Hpad : digits_only pad = true /\ forall s, int_of_digits (pad ++ s) 0 = int_of_digits s 0).
    { unfold pad. destruct (Z.abs e <? 10); split; reflexivity. }
    destruct Hpad as [P1 P2].
    split; [|split; [|split; [|split; [|split; [|split; [|split]]]]]].
    + cbn [exp_part]. destruct r as [|c r]; cbn [dotted append];
        rewrite ?str_app_assoc; reflexivity.
    + cbn [digits_only]. now rewrite Hdd.
    + right. exact Hh.
    + discriminate.
    + exact Hdr.
    + cbn [exp_ok]. rewrite digits_only_app, P1, E1. split; [reflexivity|].
      intros H. apply (f_equal strlen) in H. rewrite strlen_app in H.
      change (strlen "") with 0 in H. pose proof (strlen_nonneg pad). lia.
    + right. discriminate.
    + left. split; [reflexivity|].
      cbn [exp_value]. rewrite P2, E3, strlen_cons.
      destruct (Z.ltb_spec e 0); unfold e in *; lia.
  - apply orb_false_elim in Eexp. destruct Eexp as [E1 E2].
    apply Z.leb_gt in E1. apply Z.ltb_ge in E2.
    destruct (Z.leb_spec decpt 0) as [Hz|Hz].
    + (* zeros after the point *)
      destruct (zeros_spec (Z.to_nat (- decpt))) as (Z1 & Z2 & Z3).
      exists "0", (zeros (Z.to_nat (- decpt)) ++ String d r), None.
      assert (Hne : zeros (Z.to_nat (- decpt)) ++ String d r <> EmptyString).
      { destruct (zeros (Z.to_nat (- decpt))); discriminate. }
      split; [|split; [|split; [|split; [|split; [|split; [|split]]]]]].
      * rewrite (dotted_cons _ Hne). cbn [exp_part]. rewrite str_app_nil_r. reflexivity.
      * reflexivity.
      * left. reflexivity.
      * discriminate.
      * rewrite digits_only_app, Z1. exact Hd.
      * exact I.
      * left. exact Hne.
      * left. split.
        -- change ("0" ++ zeros (Z.to_nat (- decpt)) ++ String d r)
             with (zeros (S (Z.to_nat (- decpt))) ++ String d r).
           rewrite int_of_digits_app.
           destruct (zeros_spec (S (Z.to_nat (- decpt)))) as (_ & _ & Z3').
           rewrite Z3'. reflexivity.
        -- cbn [exp_value]. rewrite strlen_app, Z2, Z2Nat.id by lia. lia.
    + destruct (Z.ltb_spec decpt (strlen (String d r))) as [Hlt|Hge].
      * (* the point inside the digits *)
        destruct (insert_point_split (String d r) (Z.to_nat decpt)) as (pre & suf & E & Hl & Hi).
        { unfold strlen in Hlt. lia. }
        exists pre, suf, None.
        assert (Hpre : pre <> EmptyString).
        { destruct pre; [simpl in Hl; lia | discriminate]. }
        assert (Hsuf : suf <> EmptyString).
        { intros ->. rewrite str_app_nil_r in E. rewrite <- E in Hl.
          unfold strlen in Hlt. lia. }
        rewrite E, digits_only_app in Hd. apply andb_prop in Hd.
        destruct Hd as [Hd1 Hd2].
        split; [|split; [|split; [|split; [|split; [|split; [|split]]]]]].
        -- rewrite Hi, (dotted_cons _ Hsuf). cbn [exp_part].
           now rewrite str_app_nil_r.
        -- exact Hd1.
        -- right. destruct pre as [|c pre]; [contradiction|].
           cbn [append] in E. injection E as -> _. exact Hh.
        -- exact Hpre.
        -- exact Hd2.
        -- exact I.
        -- left. exact Hsuf.
        -- left. split; [now rewrite E|].
           cbn [exp_value]. rewrite E, strlen_app.
           assert (strlen pre = decpt) by (unfold strlen; lia). lia.
      * (* zeros before the point *)
        set (z := decpt - strlen (String d r)) in *.
        assert (Ez : z = decpt - strlen (String d r)) by reflexivity.
        clearbody z. pose proof (strlen_nonneg (String d r)) as Hsl.
        destruct (zeros_spec (Z.to_nat z)) as (Z1 & Z2 & Z3).
        exists (String d r ++ zeros (Z.to_nat z)), "0", None.
        split; [|split; [|split; [|split; [|split; [|split; [|split]]]]]].
        -- cbn [dotted exp_part]. rewrite str_app_assoc. reflexivity.
        -- rewrite digits_only_app, Hd, Z1. reflexivity.
        -- right. exact Hh.
        -- discriminate.
        -- reflexivity.
        -- exact I.
        -- left. discriminate.
        -- right. split; [lia|]. split; [|reflexivity].
           rewrite str_app_assoc, int_of_digits_app.
           change (zeros (Z.to_nat z) ++ "0") with (zeros (Z.to_nat z) ++ zeros 1).
           rewrite int_of_digits_app, Z3.
           destruct (zeros_spec 1) as (_ & _ & Z3'). rewrite Z3'.
           rewrite Z2Nat.id by lia.
           rewrite Z.pow_add_r by lia. change (Z.of_nat 1) with 1. ring.
Qed.

(** ** [repr] reads back *)

Lemma finish_sign (s : bool) (m e : Z) (l : location) :
  finish s m e l = set_sign s (finish false m e l).
Proof.
  unfold finish.
  destruct (shr_fexp prec emax (round_nearest_even m l) e loc_Exact) as [mrs e'].
  destruct (shr_m mrs); [reflexivity| |reflexivity].
  destruct (e' <=? emax - prec); reflexivity.
Qed.

Lemma rounds_sign (s : bool) (v v' : Q) (y X : float) :
  (v == v')%Q -> rounds s v y -> rounds false v' X -> y = set_sign s X.
Proof.
  intros E (e1 & m1 & l1 & He & Hm & Hb & Hy) HX.
  subst y. rewrite finish_sign. f_equal.
  apply (rounds_fun false v v'); [exact E| |exact HX].
  exists e1, m1, l1. repeat split; assumption.
Qed.

Lemma strip_zeros_spec (fuel : nat) :
  forall c p, 0 < c ->
    0 < fst (strip_zeros fuel c p) /\
    p <= snd (strip_zeros fuel c p) <= p + Z.of_nat fuel /\
    c = fst (strip_zeros fuel c p) * 10 ^ (snd (strip_zeros fuel c p) - p).
Proof.
  induction fuel as [|fuel IH]; intros c p Hc.
  - cbn [strip_zeros fst snd]. rewrite Z.sub_diag. split; [exact Hc|]. split; lia.
  - cbn [strip_zeros].
    destruct ((c mod 10 =? 0) && (0 <? c)) eqn:E.
    + apply andb_prop in E. destruct E as [E _]. apply Z.eqb_eq in E.
      pose proof (Z.div_mod c 10 ltac:(lia)) as Hdm.
      assert (Hq : 0 < c / 10) by lia.
      destruct (IH (c / 10) (p + 1) Hq) as (H1 & H2 & H3).
      split; [exact H1|]. split; [lia|].
      set (c' := fst (strip_zeros fuel (c / 10) (p + 1))) in *.
      set (p' := snd (strip_zeros fuel (c / 10) (p + 1))) in *.
      replace (p' - p) with (Z.succ (p' - (p + 1))) by lia.
      rewrite Z.pow_succ_r by lia. lia.
    + cbn [fst snd]. rewrite Z.sub_diag. split; [exact Hc|]. split; lia.
Qed.

Lemma py_repr_finite (s : bool) (m : positive) (e : Z) :
  py_repr (S754_finite s m e) =
    sign_str s ++
    format_repr
      (decimal (fst (strip_zeros 17
         (fst (shortest_digits 16 (S754_finite false m e) (fnum m e) (fden e) (fk m e) 1))
         (snd (shortest_digits 16 (S754_finite false m e) (fnum m e) (fden e) (fk m e) 1)))))
      (strlen (decimal (fst (strip_zeros 17
         (fst (shortest_digits 16 (S754_finite false m e) (fnum m e) (fden e) (fk m e) 1))
         (snd (shortest_digits 16 (S754_finite false m e) (fnum m e) (fden e) (fk m e) 1))))) +
       snd (strip_zeros 17
         (fst (shortest_digits 16 (S754_finite false m e) (fnum m e) (fden e) (fk m e) 1))
         (snd (shortest_digits 16 (S754_finite false m e) (fnum m e) (fden e) (fk m e) 1)))).
Proof.
  unfold py_repr. fold (fnum m e). fold (fden e).
  change (if fden e <=? fnum m e
          then strlen (decimal (fnum m e / fden e)) - 1
          else - strlen (decimal ((fden e - 1) / fnum m e))) with (fk m e).
  destruct (shortest_digits 16 (S754_finite false m e) (fnum m e) (fden e) (fk m e) 1)
    as [c0 p0].
  cbn [fst snd]. destruct (strip_zeros 17 c0 p0) as [c' p']. reflexivity.
Qed.

Lemma pow10_shift (c' : Z) (p p' : Z) :
  p <= p' ->
  (inject_Z (c' * 10 ^ (p' - p)) * pow10 p == inject_Z c' * pow10 p')%Q.
Proof.
  intros H. rewrite inject_Z_mult, <- pow10_Z by lia.
  replace p' with ((p' - p) + p) at 2 by ring.
  rewrite pow10_add. ring.
Qed.

(** [repr] of a finite double is a numeral that the JSON scanner reads
    back as the same double. *)
Lemma py_repr_reads_back (x : float) :
  valid_binary prec emax x = true -> is_finite x = true -> reads_back py_repr x.
Proof.
  intros Hv Hf. destruct x as [s| | |s m e]; try discriminate Hf.
  - intros fuel c rest [-> | ->]; destruct s; reflexivity.
  - assert (HvX : valid_binary prec emax (S754_finite false m e) = true) by exact Hv.
    intros fuel c rest Hc.
    rewrite py_repr_finite.
    destruct (shortest_digits_spec m e HvX 16 1 ltac:(lia) ltac:(lia))
      as (n' & Hn' & Hp0 & Hfd).
    pose proof (fk_bounds m e HvX) as Hk.
    set (c0 := fst (shortest_digits 16 (S754_finite false m e) (fnum m e) (fden e) (fk m e) 1)) in *.
    set (p0 := snd (shortest_digits 16 (S754_finite false m e) (fnum m e) (fden e) (fk m e) 1)) in *.
    clearbody c0 p0.
    assert (Hc0 : 0 < c0).
    { destruct c0 as [|q|q]; [discriminate Hfd|lia|discriminate Hfd]. }
    assert (R0 : rounds false (inject_Z c0 * pow10 p0) (S754_finite false m e)).
    { rewrite <- Hfd, <- Hp0. destruct c0 as [|q|q]; try lia.
      apply float_of_decimal_rounds; lia. }
    destruct (strip_zeros_spec 17 c0 p0 Hc0) as (Hc' & Hp' & Hcc).
    set (c' := fst (strip_zeros 17 c0 p0)) in *.
    set (p' := snd (strip_zeros 17 c0 p0)) in *.
    clearbody c' p'.
    assert (Ev : (inject_Z c0 * pow10 p0 == inject_Z c' * pow10 p')%Q).
    { rewrite Hcc. apply pow10_shift. lia. }
    destruct (decimal_spec c' ltac:(lia)) as (D1 & D2 & D3 & D4 & _).
    destruct (D4 Hc') as [Dh _].
    destruct (format_repr_numeral (decimal c') (strlen (decimal c') + p') D1 Dh)
      as (I & F & ev & Efmt & HI & Hz & Hne & HF & Hev & Hfe & Hnum).
    rewrite Efmt.
    set (text := sign_str s ++ I ++ dotted F ++ exp_part ev).
    assert (Hhead : exists d r, text ++ String c rest = String d r /\
                                (is_digit d = true \/ d = "-"%char)).
    { unfold text. destruct s.
      - eexists _, _. split; [reflexivity | now right].
      - destruct I as [|d I]; [contradiction|].
        cbn [digits_only] in HI. apply andb_prop in HI. destruct HI as [Hd _].
        eexists _, _. split; [reflexivity | now left]. }
    destruct Hhead as (d & r & Ehead & Hd).
    rewrite Ehead, (parse_value_number d r fuel Hd), <- Ehead. unfold text.
    rewrite (scan_number_numeral s I F ev c rest HI Hz HF Hev Hfe Hc).
    rewrite (py_float_numeral s I F ev HI Hne HF Hev).
    cut (float_of_decimal s (int_of_digits (I ++ F) 0) (strlen I + strlen F)
           (exp_value ev - strlen F) = S754_finite s m e);
      [intros ->; reflexivity|].
    change (S754_finite s m e) with (set_sign s (S754_finite false m e)).
    pose proof (strlen_nonneg I) as LI. pose proof (strlen_nonneg F) as LF.
    replace (strlen (decimal c') + p' - strlen (decimal c')) with p' in Hnum by ring.
    destruct Hnum as [[Hm He] | [Hr [Hm He]]].
    + rewrite Hm, He, D3.
      destruct c' as [|q|q]; try lia.
      apply (rounds_sign s (inject_Z (Zpos q) * pow10 p') (inject_Z c0 * pow10 p0));
        [now rewrite Ev | | exact R0].
      apply float_of_decimal_rounds; lia.
    + rewrite Hm, He, D3.
      assert (Hpos : 0 < c' * 10 ^ (p' + 1)).
      { apply Z.mul_pos_pos; [lia | apply Z.pow_pos_nonneg; lia]. }
      destruct (c' * 10 ^ (p' + 1)) as [|q|q] eqn:Eq; try lia.
      apply (rounds_sign s (inject_Z (Zpos q) * pow10 (-1)) (inject_Z c0 * pow10 p0));
        [ | apply float_of_decimal_rounds; lia | exact R0].
      rewrite Ev, <- Eq.
      replace (p' + 1) with (p' - (-1)) by ring.
      apply pow10_shift. lia.
Qed.

End Numerals.

Section Doubles.
Local Open Scope Q_scope.
Local Open Scope Z_scope.

(** ** The floats of the program are binary64 values *)

Lemma cexp_bracket_bounds (v : Q) (e m : Z) (l : location) :
  cexp v e -> 0 <= m -> bracket (v * bpow (- e)) m l ->
  -1074 <= e /\ m < 2 ^ 53 /\ (-1074 < e -> 2 ^ 52 <= m).
Proof.
  intros Hc Hm Hb. apply bracket_bounds in Hb. destruct Hb as [B1 B2].
  assert (U : (v * bpow (- e) < inject_Z (2 ^ 53))%Q).
  { apply scale_down_lt. rewrite <- bpow_shift by lia.
    destruct Hc as [[-> H]|[_ [_ H]]]; [exact H|].
    now rewrite Z.add_comm in H |- *. }
  split; [destruct Hc as [[-> _]|[H _]]; lia|]. split.
  - assert (X : (inject_Z m < inject_Z (2 ^ 53))%Q) by lra.
    now rewrite <- Zlt_Qlt in X.
  - intros He. destruct Hc as [[-> _]|[_ [H _]]]; [lia|].
    assert (L : (inject_Z (2 ^ 52) <= v * bpow (- e))%Q).
    { apply scale_down. rewrite <- bpow_shift by lia. exact H. }
    assert (X : (inject_Z (2 ^ 52) < inject_Z (m + 1))%Q).
    { rewrite inject_Z_plus. change (inject_Z 1) with 1%Q. lra. }
    rewrite <- Zlt_Qlt in X. lia.
Qed.

Lemma valid_finite (s : bool) (p : positive) (e : Z) :
  -1074 <= e <= 971 -> Zpos p < 2 ^ 53 -> (-1074 < e -> 2 ^ 52 <= Zpos p) ->
  valid_binary prec emax (S754_finite s p e) = true.
Proof.
  intros He Hp Hn. cbn [valid_binary]. unfold bounded, canonical_mantissa.
  rewrite fexp_eq. change (emax - prec) with 971.
  apply andb_true_intro. split; [|apply Z.leb_le; lia].
  apply Z.eqb_eq.
  destruct (Zdigits2_spec (Zpos p) eq_refl) as [[A1 A2] A3].
  change (Zdigits2 (Zpos p)) with (Zpos (digits2_pos p)) in *.
  set (d := Zpos (digits2_pos p)) in *. clearbody d.
  assert (Hd : d <= 53).
  { assert (Hlt : 2 ^ (d - 1) < 2 ^ 53) by lia.
    apply Z.pow_lt_mono_r_iff in Hlt; lia. }
  destruct (Z.eq_dec e (-1074)) as [->|Hne]; [lia|].
  assert (Hd' : 53 <= d).
  { specialize (Hn ltac:(lia)).
    assert (Hlt : 2 ^ 52 < 2 ^ d) by lia.
    apply Z.pow_lt_mono_r_iff in Hlt; lia. }
  lia.
Qed.

Lemma rounds_valid (s : bool) (v : Q) (y : float) : rounds s v y -> is_double y.
Proof.
  intros (e & m & l & Hc & Hm & Hb & ->). unfold is_double.
  destruct (cexp_bracket_bounds v e m l Hc Hm Hb) as (He & Hu & Hl).
  rewrite finish_eval by lia.
  destruct (round_nearest_even_cases m l) as [E|E]; rewrite E.
  - destruct m as [|p|p]; [reflexivity| |lia].
    destruct (Z.ltb_spec (Zpos p) (2 ^ 53)); [|lia].
    destruct (Z.leb_spec e 971); [|reflexivity].
    apply valid_finite; [lia | assumption | assumption].
  - destruct (m + 1) as [|p|p] eqn:Ep; [reflexivity| |reflexivity].
    destruct (Z.ltb_spec (Zpos p) (2 ^ 53)).
    + destruct (Z.leb_spec e 971); [|reflexivity].
      apply valid_finite; [lia | assumption | intros H'; specialize (Hl H'); lia].
    + destruct (Z.leb_spec (e + 1) 971); [|reflexivity].
      apply valid_finite; [lia | reflexivity | intros _; reflexivity].
Qed.

Lemma float_of_decimal_valid (neg : bool) (m nd e10 : Z) :
  is_double (float_of_decimal neg m nd e10).
Proof.
  destruct m as [|p|p]; [reflexivity| |reflexivity].
  destruct (Z.ltb_spec 400 e10) as [H1|H1].
  { unfold float_of_decimal. apply Z.ltb_lt in H1. rewrite H1. reflexivity. }
  destruct (Z.ltb_spec (e10 + nd) (-400)) as [H2|H2].
  { unfold float_of_decimal. apply Z.ltb_lt in H2. apply Z.ltb_ge in H1.
    rewrite H1, H2. reflexivity. }
  apply (rounds_valid neg (inject_Z (Zpos p) * 10 ^ e10)).
  apply float_of_decimal_rounds; lia.
Qed.

Lemma py_float_valid (s : string) (x : float) : py_float s = Some x -> is_double x.
Proof.
  unfold py_float. destruct (read_sign (strip s)) as [neg r].
  destruct ((lower_str r =? "inf")%string || (lower_str r =? "infinity")%string).
  { intros [= <-]. reflexivity. }
  destruct (lower_str r =? "nan")%string.
  { intros [= <-]. reflexivity. }
  destruct (read_number r) as [[[[m nd] nfrac] r']|]; [|discriminate].
  destruct (read_exponent r') as [e|]; [|discriminate].
  intros [= <-]. apply float_of_decimal_valid.
Qed.

(** *** Decoding *)

Lemma double_doc_top (j : json) : double_doc j -> double_top j.
Proof.
  destruct j; simpl; try tauto.
  intros H. induction H as [|[k v] r Hv _ IH]; constructor; [|exact IH].
  destruct v; simpl in *; tauto.
Qed.

Lemma scan_number_double (s : string) (j : json) (r : string) :
  scan_number s = Decoded (j, r) -> double_doc j.
Proof.
  unfold scan_number.
  destruct (match_integer s) as [[integer r0]|].
  - destruct (match_frac r0) as [frac r1]. destruct (match_exp r1) as [exp r2].
    destruct (py_float (integer ++ frac ++ exp)) as [x|] eqn:E.
    + apply py_float_valid in E.
      destruct frac, exp; intros [= <- <-]; first [exact I | exact E].
    + destruct frac, exp; first [intros [= <- <-]; exact I | discriminate].
  - destruct (strip_prefix "NaN" s); [intros [= <- <-]; reflexivity|].
    destruct (strip_prefix "Infinity" s); [intros [= <- <-]; reflexivity|].
    destruct (strip_prefix "-Infinity" s); [intros [= <- <-]; reflexivity|].
    discriminate.
Qed.

Lemma parse_double (fuel : nat) :
  (forall s j r, parse_value fuel s = Decoded (j, r) -> double_doc j) /\
  (forall s acc j r,
     parse_members fuel s acc = Decoded (j, r) ->
     Forall (fun item => double_top (snd item)) acc -> double_doc j).
Proof.
  induction fuel as [|fuel [IHv IHm]]; [split; discriminate|]. split.
  - intros s j r. cbn [parse_value].
    destruct s as [|c s]; [discriminate|].
    destruct (Ascii.eqb c dquote).
    { destruct (scanstring s) as [[str r']| |]; cbn [bind];
        first [ discriminate | intros [= <- <-]; exact I ]. }
    destruct (Ascii.eqb c "{").
    { destruct (skip_ws s) as [|c1 r1]; [discriminate|].
      destruct (Ascii.eqb c1 "}").
      - intros [= <- <-]. constructor.
      - destruct (Ascii.eqb c1 dquote); [|discriminate].
        intros H. apply (IHm _ _ _ _ H); constructor. }
    destruct (Ascii.eqb c "[").
    { destruct (skip_ws s) as [|[[] [] [] [] [] [] [] []] r1];
        first [ intros [= <- <-]; exact I
              | intros H; apply parse_items_array in H;
                destruct H as [items ->]; exact I ]. }
    destruct (strip_prefix "null" (String c s));
      [intros [= <- <-]; exact I|].
    destruct (strip_prefix "true" (String c s));
      [intros [= <- <-]; exact I|].
    destruct (strip_prefix "false" (String c s));
      [intros [= <- <-]; exact I|].
    apply scan_number_double.
  - intros s acc j r. cbn [parse_members].
    destruct (scanstring s) as [[key r0]| |]; cbn [bind]; try discriminate.
    intros H Hacc.
    destruct (skip_ws r0) as [|[[] [] [] [] [] [] [] []] r1]; try discriminate H.
    destruct (parse_value fuel (skip_ws r1)) as [[v r2]| |] eqn:Hv;
      cbn [bind] in H; try discriminate H.
    assert (Hacc' : Forall (fun item => double_top (snd item)) (dict_set acc key v)).
    { apply Forall_dict_set; [assumption|]. intros k. simpl.
      apply double_doc_top. exact (IHv _ _ _ Hv). }
    destruct (skip_ws r2) as [|[[] [] [] [] [] [] [] []] r3];
      first [ discriminate H
            | injection H as <- <-; assumption
            | destruct (skip_ws r3) as [|c4 r4]; [discriminate H|];
              destruct (Ascii.eqb c4 dquote); [|discriminate H];
              apply (IHm _ _ _ _ H); assumption ].
Qed.

Lemma grades_of_json_double (ms : dict json) (gs : dict float) :
  grades_of_json ms = Some gs ->
  Forall (fun item => match snd item with
                      | JFloat x => is_double x
                      | _ => True
                      end) ms ->
  Forall (fun g => is_double (snd g)) gs.
Proof.
  revert gs. induction ms as [|[k v] r IH]; intros gs; simpl.
  - intros [= <-] _. constructor.
  - destruct v; try discriminate.
    destruct (grades_of_json r) as [gs'|]; [|discriminate].
    intros [= <-] H. inversion H as [|? ? Hx Hr]; subst.
    constructor; [exact Hx | now apply IH].
Qed.

Lemma students_of_json_double (ms : dict json) (st : Store) :
  students_of_json ms = Some st ->
  Forall (fun item => double_top (snd item)) ms ->
  all_scores is_double st.
Proof.
  revert st. induction ms as [|[k v] r IH]; intros st; simpl.
  - intros [= <-] _. constructor.
  - destruct v; try discriminate.
    destruct (grades_of_json members) as [gs|] eqn:Eg; [|discriminate].
    destruct (students_of_json r) as [st'|]; [|discriminate].
    intros [= <-] H. inversion H as [|? ? Hx Hr]; subst.
    constructor; [|now apply IH].
    simpl. apply (grades_of_json_double members gs Eg). exact Hx.
Qed.

Lemma doubles_persisted (fs : filesystem) (st : Store) :
  persisted_store fs = Some st -> all_scores is_double st.
Proof.
  unfold persisted_store, json_loads.
  destruct (fs FILE_NAME) as [text|]; [|discriminate].
  destruct (parse_value _ _) as [[j r]| |] eqn:Hp; cbn [bind]; try discriminate.
  destruct (skip_ws r); [|discriminate].
  apply (proj1 (parse_double _)) in Hp.
  destruct j; try discriminate. cbn [store_of_json]. intros Hst.
  exact (students_of_json_double _ _ Hst Hp).
Qed.

Lemma doubles_add_grade (float_repr : float -> string) (st : Store)
    (name subject raw : string) :
  all_scores is_double st ->
  all_scores is_double (fst (add_grade float_repr st name subject raw)).
Proof.
  intros H.
  destruct (dict_mem st name) eqn:Hm;
    [|rewrite add_grade_rejects; auto].
  destruct (py_float raw) as [x|] eqn:Hp;
    [|rewrite add_grade_rejects; auto].
  destruct (in_range x) eqn:Hx;
    [|rewrite add_grade_rejects; [auto | right; right; eauto]].
  rewrite (add_grade_accepts float_repr st name subject raw x) by assumption.
  cbn [fst]. apply all_scores_set_grade; [exact H|].
  exact (py_float_valid raw x Hp).
Qed.

(** Every grade that a run holds is a binary64 value. *)
Lemma doubles_main_menu (float_repr : float -> string) (alg : sum_algorithm)
    (fs : filesystem) (inputs : list string) :
  all_scores is_double (student_data (snd (main_menu float_repr alg fs inputs))).
Proof.
  apply (main_menu_holds float_repr alg (all_scores is_double)).
  - apply all_scores_add_student.
  - intros st name subject raw. apply doubles_add_grade.
  - apply all_scores_delete_student.
  - apply all_scores_delete_grade.
  - constructor.
  - apply doubles_persisted.
Qed.

Lemma printable_doubles (st : Store) :
  all_scores is_double st -> all_scores (printable py_repr) st.
Proof.
  unfold all_scores. intros H.
  eapply Forall_impl; [|exact H]. intros [k gs] Hg. simpl in *.
  eapply Forall_impl; [|exact Hg]. intros [k' x] Hx Hf. simpl in *.
  now apply py_repr_reads_back.
Qed.

End Doubles.

(** ** The round trip through the data file *)

(** C9. Saving [student_data] and then loading the file gives the same
    dictionary back: the same students, the same subjects and the same
    grades, in the same order, whatever the dictionary held before loading.
    The dictionary is any Python value of the script's shape: its keys are
    distinct ([wf_store]) and its grades are binary64 values ([is_double]),
    as they are in every run. *)
Theorem save_load_roundtrip (st st0 : Store) (fs : filesystem) :
  wf_store st ->
  all_scores is_double st ->
  load_data (fst (save_data py_repr st fs)) st0 =
    Some (st, ["Data loaded successfully from student_grades.json."]).
Proof.
  intros Hwf Hok. unfold save_data, load_data, write_file. cbn [fst].
  rewrite String.eqb_refl.
  rewrite (json_loads_dumps py_repr st Hwf (printable_doubles st Hok)).
  rewrite store_of_json_of_store. reflexivity.
Qed.

Section Arithmetic.
Local Open Scope Q_scope.
Local Open Scope Z_scope.

(** ** The exact value of a float *)







(** ** Addition and subtraction *)











(** ** Sums of whole-number grades *)










(** ** The error of one rounding *)









End Arithmetic.

Section Averages.
Local Open Scope Q_scope.
Local Open Scope Z_scope.

(** ** Averages against the exact mean *)







End Averages.

(** ** The averages of the script *)





(** * The statements at concrete inputs *)

Lemma wf_store_two_grades : wf_store two_grades.
Proof.
  split.
  - repeat constructor. intros [].
  - repeat constructor; simpl; intuition discriminate.
Qed.

Lemma printable_two_grades : all_scores (printable py_repr) two_grades.
Proof.
  repeat constructor; simpl; intros _ fuel c rest [-> | ->];
    vm_compute; reflexivity.
Qed.

(** The file that [save_data] writes for [two_grades]. *)
Example json_dumps_two_grades :
  json_dumps py_repr two_grades =
    "{" ++ nl ++
    "    " ++ quoted "A" ++ ": {" ++ nl ++
    "        " ++ quoted "Math" ++ ": 80.0," ++ nl ++
    "        " ++ quoted "Science" ++ ": 90.0" ++ nl ++
    "    }" ++ nl ++
    "}".
Proof. vm_compute. reflexivity. Qed.

Lemma add_grade_upsert_witness :
  let s := float_of_decimal false 955 3 (-1) in
  dict_mem two_grades "A" = true /\
  py_float "95.5" = Some s /\
  in_range s = true /\
  let st' := fst (add_grade py_repr two_grades "A" "Math" "95.5") in
  lookup_grade st' "A" "Math" = Some s /\
  (lookup_grade two_grades "A" "Math" = None ->
   subject_count st' "A" = S (subject_count two_grades "A")) /\
  (lookup_grade two_grades "A" "Math" <> None ->
   subject_count st' "A" = subject_count two_grades "A").
Proof.
  intros s.
  split; [reflexivity|]. split; [vm_compute; reflexivity|].
  split; [vm_compute; reflexivity|].
  apply (add_grade_upsert py_repr two_grades "A" "Math" "95.5" s);
    vm_compute; reflexivity.
Defined.


Lemma add_grade_failure_unchanged_witness :
  add_grade py_repr two_grades "B" "Math" "90" =
    (two_grades, ["Error: B not found. Please add the student first."]) /\
  add_grade py_repr two_grades "A" "Math" "ninety" =
    (two_grades, ["Error: Invalid grade format. Please enter a number."]) /\
  add_grade py_repr two_grades "A" "Math" "100.5" =
    (two_grades, ["Error: Grade must be between 0 and 100."]).
Proof.
  split; [|split].
  - apply (proj1 (add_grade_failure_unchanged py_repr two_grades "B" "Math" "90")).
    reflexivity.
  - apply (proj1 (proj2 (add_grade_failure_unchanged py_repr two_grades
                           "A" "Math" "ninety")));
      reflexivity.
  - apply (proj2 (proj2 (add_grade_failure_unchanged py_repr two_grades
                           "A" "Math" "100.5"))
             (float_of_decimal false 1005 4 (-1)));
      vm_compute; reflexivity.
Defined.

Lemma scores_in_range_invariant_witness :
  scores_in_range
    (student_data
       (snd (main_menu py_repr LeftToRight no_files
               ["1"; "A"; "2"; "A"; "Math"; "80"; "2"; "A"; "Math"; "180";
                "6"; "2"; "A"; "Math"; "3"; "7"]))).
Proof.
  apply (proj2 (proj2 (proj2 (proj2 (proj2 (proj2 (proj2
           (scores_in_range_invariant py_repr LeftToRight)))))))
           no_files).
  intros st H. discriminate H.
Defined.

Lemma view_student_report_spec_witness :
  view_student_report py_repr LeftToRight two_grades "A" =
    [nl ++ "--- Report for A ---";
     "  Math: 80.0"; "  Science: 90.0";
     "  Overall Average: 85.0";
     "-------------------"] /\
  view_student_report py_repr LeftToRight no_grades "A" =
    [nl ++ "--- Report for A ---"; "No grades recorded yet."] /\
  view_student_report py_repr LeftToRight no_grades "B" =
    ["Error: B not found."].
Proof.
  split; [|split].
  - destruct (proj2 (proj2 (view_student_report_spec py_repr LeftToRight two_grades "A"))
                [("Math", float_of_Z 80); ("Science", float_of_Z 90)]
                eq_refl ltac:(discriminate)) as [average [Havg Hreport]].
    rewrite Hreport.
    assert (Ha : average = float_of_Z 85).
    { vm_compute in Havg. injection Havg as <-. vm_compute. reflexivity. }
    rewrite Ha. vm_compute. reflexivity.
  - apply (proj1 (proj2 (view_student_report_spec py_repr LeftToRight no_grades "A"))).
    reflexivity.
  - apply (proj2 (proj1 (view_student_report_spec py_repr LeftToRight no_grades "B"))).
    reflexivity.
Defined.


Lemma add_student_spec_witness :
  add_student two_grades "A" = (two_grades, ["Error: A already exists."]) /\
  add_student two_grades "B" =
    ([("A", [("Math", float_of_Z 80); ("Science", float_of_Z 90)]); ("B", [])],
     ["Added new student: B"]) /\
  count_occ string_dec (keys (fst (add_student two_grades "B"))) "B" = 1.
Proof.
  split.
  - apply (proj1 (add_student_spec two_grades "A")). reflexivity.
  - destruct (proj2 (add_student_spec two_grades "B") eq_refl) as [H1 [_ H3]].
    split; [exact H1 | exact H3].
Defined.

Lemma delete_grade_frame_witness :
  delete_grade two_grades "B" "Math" =
    (two_grades, ["Error: Student 'B' not found."]) /\
  delete_grade two_grades "A" "History" =
    (two_grades, ["Error: Subject 'History' not found for student 'A'."]) /\
  lookup_grade (fst (delete_grade two_grades "A" "Math")) "A" "Math" = None /\
  lookup_grade (fst (delete_grade two_grades "A" "Math")) "A" "Science" =
    Some (float_of_Z 90).
Proof.
  split; [|split].
  - apply (proj1 (delete_grade_frame two_grades "B" "Math")). reflexivity.
  - apply (proj1 (proj2 (delete_grade_frame two_grades "A" "History"))
             [("Math", float_of_Z 80); ("Science", float_of_Z 90)]);
      reflexivity.
  - destruct (proj2 (proj2 (delete_grade_frame two_grades "A" "Math"))
                [("Math", float_of_Z 80); ("Science", float_of_Z 90)]
                (float_of_Z 80) eq_refl
                (Forall_inv (proj2 wf_store_two_grades))
                eq_refl)
      as [_ [Hgone [Hother _]]].
    split; [exact Hgone|].
    rewrite (Hother "Science") by discriminate. reflexivity.
Defined.

Lemma save_load_roundtrip_witness :
  wf_store close_grades /\
  all_scores is_double close_grades /\
  json_dumps py_repr close_grades =
    "{" ++ nl ++
    "    " ++ quoted "A" ++ ": {" ++ nl ++
    "        " ++ quoted "Math" ++ ": 85.03," ++ nl ++
    "        " ++ quoted "Science" ++ ": 85.04" ++ nl ++
    "    }" ++ nl ++
    "}" /\
  load_data (fst (save_data py_repr close_grades no_files)) [] =
    Some (close_grades, ["Data loaded successfully from student_grades.json."]).
Proof.
  assert (Hwf : wf_store close_grades).
  { split.
    - repeat constructor. intros [].
    - repeat constructor; simpl; intuition discriminate. }
  assert (Hd : all_scores is_double close_grades).
  { repeat constructor; vm_compute; reflexivity. }
  split; [exact Hwf|]. split; [exact Hd|]. split; [vm_compute; reflexivity|].
  apply (save_load_roundtrip close_grades [] no_files Hwf Hd).
Defined.

Lemma add_grade_non_finite_witness :
  py_float "nan" = Some S754_nan /\
  py_float "inf" = Some (S754_infinity false) /\
  py_float "-Infinity" = Some (S754_infinity true) /\
  add_grade py_repr two_grades "A" "Math" "nan" =
    (two_grades, ["Error: Grade must be between 0 and 100."]) /\
  add_grade py_repr two_grades "A" "Math" "inf" =
    (two_grades, ["Error: Grade must be between 0 and 100."]) /\
  add_grade py_repr two_grades "A" "Math" "-Infinity" =
    (two_grades, ["Error: Grade must be between 0 and 100."]).
Proof.
  do 3 (split; [reflexivity|]).
  split; [|split].
  - apply (proj1 (add_grade_non_finite py_repr two_grades "A" "Math" "nan")
             S754_nan); reflexivity.
  - apply (proj1 (add_grade_non_finite py_repr two_grades "A" "Math" "inf")
             (S754_infinity false)); reflexivity.
  - apply (proj1 (add_grade_non_finite py_repr two_grades "A" "Math" "-Infinity")
             (S754_infinity true)); reflexivity.
Defined.

(** * Further properties of the script *)

(** ** More on dictionaries *)
Section DictMore.
Context {V : Type}.
Implicit Types (d : dict V) (k : string) (v : V).

Lemma dict_set_same_value d k v : dict_get d k = Some v -> dict_set d k v = d.
Proof.
  induction d as [|[k0 v0] r IH]; simpl; [discriminate|].
  destruct (k0 =? k).
  - now intros [= ->].
  - intros H. now rewrite IH.
Qed.

Lemma dict_del_set_absent d k v :
  dict_mem d k = false -> dict_del (dict_set d k v) k = d.
Proof.
  unfold dict_mem. induction d as [|[k0 v0] r IH]; simpl.
  - now rewrite String.eqb_refl.
  - destruct (k0 =? k) eqn:E; [discriminate|].
    intros H. simpl. now rewrite E, IH.
Qed.

Lemma dict_set_twice d k v1 v2 :
  dict_set (dict_set d k v1) k v2 = dict_set d k v2.
Proof.
  induction d as [|[k0 v0] r IH]; simpl.
  - now rewrite String.eqb_refl.
  - destruct (k0 =? k) eqn:E; simpl; rewrite E; [reflexivity | now rewrite IH].
Qed.

Lemma keys_dict_del d k :
  wf_dict d -> keys (dict_del d k) = filter (fun x => negb (x =? k)) (keys d).
Proof.
  unfold wf_dict. induction d as [|[k0 v0] r IH]; simpl; [reflexivity|].
  intros Hnd. inversion Hnd as [|? ? Hnotin Hnd']; subst.
  destruct (k0 =? k) eqn:E; simpl.
  - apply String.eqb_eq in E. subst k0.
    symmetry. apply forallb_filter_id. apply forallb_forall.
    intros x Hx. apply negb_true_iff, String.eqb_neq.
    intros ->. contradiction.
  - now rewrite IH.
Qed.

Lemma dict_mem_set d k k' v :
  dict_mem (dict_set d k v) k' = (k =? k') || dict_mem d k'.
Proof.
  unfold dict_mem. destruct (k =? k') eqn:E.
  - apply String.eqb_eq in E. subst k'. now rewrite dict_get_set_same.
  - apply String.eqb_neq in E. now rewrite dict_get_set_other.
Qed.

Lemma dict_get_del_sub d k k' v :
  wf_dict d -> dict_get (dict_del d k) k' = Some v -> dict_get d k' = Some v.
Proof.
  intros Hwf. destruct (String.eqb_spec k k') as [<- | Hne].
  - now rewrite dict_get_del_same.
  - now rewrite dict_get_del_other.
Qed.
End DictMore.

(** ** Deleting a student *)

(** X1. [delete_student] on a missing name prints the error and leaves
    [student_data] as it was.  On a present name the student is gone with
    all grades, every other student is as before, and the remaining
    students keep their order. *)
Theorem delete_student_spec (st : Store) (name : string) :
  (dict_mem st name = false ->
   delete_student st name =
     (st, ["Error: Student '" ++ name ++ "' not found."])) /\
  (dict_mem st name = true -> wf_dict st ->
   let st' := fst (delete_student st name) in
   snd (delete_student st name) =
     ["Successfully deleted student: " ++ name ++ "."] /\
   dict_get st' name = None /\
   (forall subject, lookup_grade st' name subject = None) /\
   (forall name', name' <> name -> dict_get st' name' = dict_get st name') /\
   keys st' = filter (fun k => negb (k =? name)) (keys st)).
Proof.
  unfold delete_student. split; intros H; rewrite H; [reflexivity|].
  intros Hwf. cbn [fst snd]. split; [reflexivity|].
  split; [now apply dict_get_del_same|].
  split; [intros subject; unfold lookup_grade; now rewrite dict_get_del_same|].
  split; [intros name' Hne; now apply dict_get_del_other|].
  now apply keys_dict_del.
Qed.

Lemma missing_student_queries (float_repr : float -> string) (alg : sum_algorithm)
    (st : Store) (name : string) :
  dict_get st name = None ->
  calculate_average_grade alg st name = PStr "N/A" /\
  view_student_report float_repr alg st name = ["Error: " ++ name ++ " not found."] /\
  (forall subject raw,
     add_grade float_repr st name subject raw =
       (st, ["Error: " ++ name ++ " not found. Please add the student first."])) /\
  (forall subject,
     delete_grade st name subject =
       (st, ["Error: Student '" ++ name ++ "' not found."])) /\
  delete_student st name = (st, ["Error: Student '" ++ name ++ "' not found."]).
Proof.
  intros H.
  unfold calculate_average_grade, view_student_report, add_grade, delete_grade,
    delete_student, dict_mem.
  rewrite H. repeat split.
Qed.

(** X2. Once a student has been deleted, the average of the name is
    ["N/A"], the report, [add_grade], [delete_grade] and a second
    [delete_student] all answer that the student is not found, and none of
    them changes [student_data]. *)
Theorem delete_student_then_queries (float_repr : float -> string)
    (alg : sum_algorithm) (st : Store) (name : string) :
  dict_mem st name = true ->
  wf_dict st ->
  let st' := fst (delete_student st name) in
  calculate_average_grade alg st' name = PStr "N/A" /\
  view_student_report float_repr alg st' name = ["Error: " ++ name ++ " not found."] /\
  (forall subject raw,
     add_grade float_repr st' name subject raw =
       (st', ["Error: " ++ name ++ " not found. Please add the student first."])) /\
  (forall subject,
     delete_grade st' name subject =
       (st', ["Error: Student '" ++ name ++ "' not found."])) /\
  delete_student st' name = (st', ["Error: Student '" ++ name ++ "' not found."]).
Proof.
  intros Hmem Hwf st'. apply missing_student_queries.
  subst st'. unfold delete_student. rewrite Hmem. cbn [fst].
  now apply dict_get_del_same.
Qed.

(** X3. Deleting a student that has just been added, where the name was
    new, gives back the dictionary from before the addition. *)
Theorem add_student_delete_student (st : Store) (name : string) :
  dict_mem st name = false ->
  delete_student (fst (add_student st name)) name =
    (st, ["Successfully deleted student: " ++ name ++ "."]).
Proof.
  intros H. unfold add_student. rewrite H. cbn [fst].
  unfold delete_student. rewrite dict_mem_set, String.eqb_refl. cbn [orb].
  now rewrite dict_del_set_absent.
Qed.

(** ** Adding grades *)

Lemma set_grade_get (st : Store) (name subject : string) (x : float)
    (subjects : dict float) :
  dict_get st name = Some subjects ->
  dict_get (set_grade st name subject x) name = Some (dict_set subjects subject x).
Proof.
  intros H. unfold set_grade. rewrite H. apply dict_get_set_same.
Qed.

(** X4. Deleting a grade that has just been added, where the student did
    not have the subject, gives back the dictionary from before the
    addition. *)
Theorem add_grade_delete_grade (float_repr : float -> string) (st : Store)
    (name subject raw : string) (s : float) :
  dict_mem st name = true ->
  lookup_grade st name subject = None ->
  py_float raw = Some s ->
  in_range s = true ->
  delete_grade (fst (add_grade float_repr st name subject raw)) name subject =
    (st, ["Successfully deleted grade for " ++ name ++ " in " ++ subject ++ "."]).
Proof.
  intros Hmem Hnone Hparse Hrange.
  rewrite (add_grade_accepts float_repr st name subject raw s) by assumption.
  cbn [fst]. apply dict_mem_get in Hmem. destruct Hmem as [gs Hgs].
  unfold lookup_grade in Hnone. rewrite Hgs in Hnone.
  unfold delete_grade. rewrite (set_grade_get st name subject s gs Hgs).
  rewrite dict_mem_set, String.eqb_refl. cbn [orb].
  unfold set_grade. rewrite Hgs.
  rewrite dict_set_twice, dict_del_set_absent by now apply dict_mem_false.
  now rewrite dict_set_same_value.
Qed.

(** X5. Whatever its outcome, [add_grade] touches at most the one entry it
    is asked to set: every other subject of the student and every grade of
    every other student is as before, and so is the list of students. *)
Theorem add_grade_frame (float_repr : float -> string) (st : Store)
    (name subject raw : string) :
  let st' := fst (add_grade float_repr st name subject raw) in
  (forall name' subject',
     name' <> name \/ subject' <> subject ->
     lookup_grade st' name' subject' = lookup_grade st name' subject') /\
  (forall name', name' <> name -> dict_get st' name' = dict_get st name') /\
  keys st' = keys st.
Proof.
  intros st'. subst st'.
  destruct (dict_mem st name) eqn:Hm;
    [|rewrite add_grade_rejects; auto].
  destruct (py_float raw) as [x|] eqn:Hp;
    [|rewrite add_grade_rejects; auto].
  destruct (in_range x) eqn:Hx;
    [|rewrite add_grade_rejects; [auto | right; right; eauto]].
  rewrite (add_grade_accepts float_repr st name subject raw x) by assumption.
  cbn [fst]. pose proof Hm as Hm'.
  apply dict_mem_get in Hm. destruct Hm as [gs Hgs].
  assert (Hother : forall name', name' <> name ->
            dict_get (set_grade st name subject x) name' = dict_get st name').
  { intros name' Hne. unfold set_grade. rewrite Hgs.
    apply dict_get_set_other. congruence. }
  split; [|split].
  - intros name' subject' Hne. unfold lookup_grade.
    destruct (String.eqb_spec name' name) as [-> | Hn].
    + rewrite (set_grade_get st name subject x gs Hgs), Hgs.
      apply dict_get_set_other. destruct Hne; congruence.
    + now rewrite Hother.
  - exact Hother.
  - unfold set_grade. rewrite Hgs. now apply dict_set_present.
Qed.

(** X6. Adding a grade for a subject twice keeps the second score only:
    the dictionary is the one that the second addition alone gives.  With
    the same score twice, the second addition changes nothing. *)
Theorem add_grade_last_write_wins (float_repr : float -> string) (st : Store)
    (name subject raw1 raw2 : string) (s1 s2 : float) :
  dict_mem st name = true ->
  py_float raw1 = Some s1 -> in_range s1 = true ->
  py_float raw2 = Some s2 -> in_range s2 = true ->
  fst (add_grade float_repr (fst (add_grade float_repr st name subject raw1))
         name subject raw2) =
    fst (add_grade float_repr st name subject raw2).
Proof.
  intros Hmem Hp1 Hr1 Hp2 Hr2.
  rewrite (add_grade_accepts float_repr st name subject raw1 s1) by assumption.
  rewrite (add_grade_accepts float_repr st name subject raw2 s2) by assumption.
  cbn [fst]. apply dict_mem_get in Hmem. destruct Hmem as [gs Hgs].
  rewrite (add_grade_accepts float_repr _ name subject raw2 s2);
    [|apply dict_mem_get; rewrite (set_grade_get st name subject s1 gs Hgs); eauto
     |assumption|assumption].
  cbn [fst]. unfold set_grade at 1.
  rewrite (set_grade_get st name subject s1 gs Hgs).
  unfold set_grade. rewrite Hgs. now rewrite !dict_set_twice.
Qed.

(** X7. [add_student] never changes a grade: every lookup of a student and
    subject gives the same answer before and after, whether the name was
    new or not. *)
Theorem add_student_keeps_grades (st : Store) (name name' subject : string) :
  lookup_grade (fst (add_student st name)) name' subject =
    lookup_grade st name' subject.
Proof.
  unfold add_student. destruct (dict_mem st name) eqn:Hm; [reflexivity|].
  cbn [fst]. unfold lookup_grade.
  destruct (String.eqb_spec name name') as [<- | Hne].
  - rewrite dict_get_set_same. apply dict_mem_false in Hm. now rewrite Hm.
  - now rewrite dict_get_set_other.
Qed.

(** ** Operations on one student leave the others alone *)

Lemma student_queries_local (float_repr : float -> string) (alg : sum_algorithm)
    (st st' : Store) (name : string) :
  dict_get st' name = dict_get st name ->
  calculate_average_grade alg st' name = calculate_average_grade alg st name /\
  view_student_report float_repr alg st' name =
    view_student_report float_repr alg st name.
Proof.
  intros H. unfold view_student_report, calculate_average_grade.
  now rewrite H.
Qed.

Lemma other_student_kept (float_repr : float -> string) (st : Store)
    (name other subject raw : string) :
  other <> name ->
  dict_get (fst (add_student st other)) name = dict_get st name /\
  dict_get (fst (add_grade float_repr st other subject raw)) name = dict_get st name /\
  dict_get (fst (delete_student st other)) name = dict_get st name /\
  dict_get (fst (delete_grade st other subject)) name = dict_get st name.
Proof.
  intros Hne. repeat apply conj.
  - unfold add_student. destruct (dict_mem st other); [reflexivity|].
    now apply dict_get_set_other.
  - destruct (dict_mem st other) eqn:Hm;
      [|rewrite add_grade_rejects; auto].
    destruct (py_float raw) as [x|] eqn:Hp;
      [|rewrite add_grade_rejects; auto].
    destruct (in_range x) eqn:Hx;
      [|rewrite add_grade_rejects; [auto | right; right; eauto]].
    rewrite (add_grade_accepts float_repr st other subject raw x) by assumption.
    cbn [fst]. unfold set_grade.
    destruct (dict_get st other); [now apply dict_get_set_other | reflexivity].
  - unfold delete_student. destruct (dict_mem st other); [|reflexivity].
    now apply dict_get_del_other.
  - unfold delete_grade. destruct (dict_get st other) as [gs|]; [|reflexivity].
    destruct (dict_mem gs subject); [|reflexivity].
    now apply dict_get_set_other.
Qed.

(** X8. Adding or deleting another student, or adding or deleting a grade
    of another student, changes neither the average nor the report of a
    student. *)
Theorem other_student_untouched (float_repr : float -> string)
    (alg : sum_algorithm) (st : Store) (name other subject raw : string) :
  other <> name ->
  Forall
    (fun st' =>
       calculate_average_grade alg st' name = calculate_average_grade alg st name /\
       view_student_report float_repr alg st' name =
         view_student_report float_repr alg st name)
    [fst (add_student st other);
     fst (add_grade float_repr st other subject raw);
     fst (delete_student st other);
     fst (delete_grade st other subject)].
Proof.
  intros Hne.
  destruct (other_student_kept float_repr st name other subject raw Hne)
    as [H1 [H2 [H3 H4]]].
  repeat constructor; now apply student_queries_local.
Qed.

(** ** The class average *)

Lemma class_average_of_grades (st st' : Store) (subject : string) :
  subject_grades st' subject = subject_grades st subject ->
  calculate_class_subject_average st' subject =
    calculate_class_subject_average st subject.
Proof.
  intros H. unfold calculate_class_subject_average.
  now rewrite !class_subject_loop_fold, H.
Qed.

Lemma subject_grades_app (st1 st2 : Store) (subject : string) :
  subject_grades (st1 ++ st2)%list subject =
    (subject_grades st1 subject ++ subject_grades st2 subject)%list.
Proof.
  induction st1 as [|[k gs] r IH]; simpl; [reflexivity|].
  destruct (dict_get gs subject); simpl; now rewrite IH.
Qed.

Lemma subject_grades_dict_set (st : Store) (name subject : string)
    (gs gs' : dict float) :
  dict_get st name = Some gs ->
  dict_get gs' subject = dict_get gs subject ->
  subject_grades (dict_set st name gs') subject = subject_grades st subject.
Proof.
  intros Hgs Hsame. induction st as [|[k v] r IH]; simpl in *; [discriminate|].
  destruct (k =? name) eqn:E; simpl.
  - injection Hgs as ->. now rewrite Hsame.
  - now rewrite IH.
Qed.

(** X9. The class average of a subject does not change when a student is
    added, nor when a grade of another subject is added or deleted. *)
Theorem class_average_unchanged (float_repr : float -> string) (st : Store)
    (name subject other_subject raw : string) :
  calculate_class_subject_average (fst (add_student st name)) subject =
    calculate_class_subject_average st subject /\
  (other_subject <> subject ->
   calculate_class_subject_average
     (fst (add_grade float_repr st name other_subject raw)) subject =
     calculate_class_subject_average st subject /\
   calculate_class_subject_average
     (fst (delete_grade st name other_subject)) subject =
     calculate_class_subject_average st subject).
Proof.
  split; [|intros Hne; split]; apply class_average_of_grades.
  - unfold add_student. destruct (dict_mem st name) eqn:Hm; [reflexivity|].
    cbn [fst]. rewrite dict_set_absent by assumption.
    rewrite subject_grades_app. simpl. apply app_nil_r.
  - destruct (dict_mem st name) eqn:Hm;
      [|rewrite add_grade_rejects; auto].
    destruct (py_float raw) as [x|] eqn:Hp;
      [|rewrite add_grade_rejects; auto].
    destruct (in_range x) eqn:Hx;
      [|rewrite add_grade_rejects; [auto | right; right; eauto]].
    rewrite (add_grade_accepts float_repr st name other_subject raw x)
      by assumption.
    cbn [fst]. unfold set_grade.
    destruct (dict_get st name) as [gs|] eqn:Hgs; [|reflexivity].
    apply (subject_grades_dict_set st name subject gs); [assumption|].
    now apply dict_get_set_other.
  - unfold delete_grade.
    destruct (dict_get st name) as [gs|] eqn:Hgs; [|reflexivity].
    destruct (dict_mem gs other_subject); [|reflexivity].
    cbn [fst]. apply (subject_grades_dict_set st name subject gs); [assumption|].
    now apply dict_get_del_other.
Qed.

(** ** What the menus do to the files *)

Lemma input_same (Q : control -> Prop) (prompt : string) (w : world)
    (k : string -> world -> control) :
  (forall w',
     student_data w' = student_data w -> files w' = files w ->
     Q (Halt EOFError w')) ->
  (forall line w',
     student_data w' = student_data w -> files w' = files w ->
     Q (k line w')) ->
  Q (input prompt w k).
Proof.
  intros Heof Hk. unfold input.
  destruct (stdin w) as [|line rest]; [apply Heof | apply Hk]; reflexivity.
Qed.

Lemma files_update (op : Store -> Store * list string) (w : world) :
  files (update op w) = files w.
Proof. unfold update. destruct (op (student_data w)). reflexivity. Qed.

Lemma files_kept_eof (fs : filesystem) (w : world) :
  files w = fs -> files_kept fs (Halt EOFError w).
Proof. intros H. split; [exact H | discriminate]. Qed.

Lemma delete_menu_files (fuel : nat) (w : world) :
  files_kept (files w) (delete_menu fuel w).
Proof.
  revert w. induction fuel as [|fuel IH]; intros w.
  { split; [reflexivity | discriminate]. }
  cbn [delete_menu].
  assert (Hstep : forall w2, files w2 = files w ->
                             files_kept (files w) (delete_menu fuel w2)).
  { intros w2 E. rewrite <- E. apply IH. }
  apply input_same; [intros w' _ E; now apply files_kept_eof|].
  intros choice w1 _ E1. cbn [files print] in E1.
  destruct (choice =? "1").
  { apply input_same; [intros w' _ E; apply files_kept_eof; congruence|].
    intros name w2 _ E2. apply Hstep. rewrite files_update. congruence. }
  destruct (choice =? "2").
  { apply input_same; [intros w' _ E; apply files_kept_eof; congruence|].
    intros name w2 _ E2.
    apply input_same; [intros w' _ E; apply files_kept_eof; congruence|].
    intros subject w3 _ E3. apply Hstep. rewrite files_update. congruence. }
  destruct (choice =? "3"); [split; [exact E1 | exact I]|].
  apply Hstep. exact E1.
Qed.

Lemma saved_on_exit_eof (float_repr : float -> string) (fs : filesystem)
    (w : world) :
  files w = fs -> saved_on_exit float_repr fs (EOFError, w).
Proof. intros H. split; [discriminate | intros _; exact H]. Qed.

Lemma main_loop_files (float_repr : float -> string) (alg : sum_algorithm)
    (fuel : nat) (w : world) :
  saved_on_exit float_repr (files w) (main_loop float_repr alg fuel w).
Proof.
  revert w. induction fuel as [|fuel IH]; intros w.
  { split; [discriminate | reflexivity]. }
  cbn [main_loop].
  assert (Hstep : forall w2, files w2 = files w ->
            saved_on_exit float_repr (files w) (main_loop float_repr alg fuel w2)).
  { intros w2 E. rewrite <- E. apply IH. }
  apply input_same; [intros w' _ E; now apply saved_on_exit_eof|].
  intros choice w1 _ E1. cbn [files print] in E1.
  destruct (choice =? "1").
  { apply input_same; [intros w' _ E; apply saved_on_exit_eof; congruence|].
    intros name w2 _ E2. apply Hstep. rewrite files_update. congruence. }
  destruct (choice =? "2").
  { apply input_same; [intros w' _ E; apply saved_on_exit_eof; congruence|].
    intros name w2 _ E2.
    apply input_same; [intros w' _ E; apply saved_on_exit_eof; congruence|].
    intros subject w3 _ E3.
    apply input_same; [intros w' _ E; apply saved_on_exit_eof; congruence|].
    intros grade w4 _ E4. apply Hstep. rewrite files_update. congruence. }
  destruct (choice =? "3").
  { apply input_same; [intros w' _ E; apply saved_on_exit_eof; congruence|].
    intros name w2 _ E2. apply Hstep. cbn [files print]. congruence. }
  destruct (choice =? "4").
  { apply input_same; [intros w' _ E; apply saved_on_exit_eof; congruence|].
    intros subject w2 _ E2.
    assert (Hw2 : files w2 = files w) by congruence.
    destruct (calculate_class_subject_average (student_data w2) subject) as [s|x].
    - repeat (destruct s as [|[[] [] [] [] [] [] [] []] s];
              try (apply Hstep; exact Hw2)).
    - apply Hstep. exact Hw2. }
  destruct (choice =? "5").
  { apply Hstep. cbn [files print student_data].
    destruct (student_data w1); exact E1. }
  destruct (choice =? "6").
  { pose proof (delete_menu_files fuel w1) as [Hf He].
    destruct (delete_menu fuel w1) as [w2|e w2]; cbn [world_of] in Hf.
    - apply Hstep. congruence.
    - split; [intros Hx; cbn [fst] in Hx; contradiction|].
      intros _. cbn [snd]. congruence. }
  destruct (choice =? "7").
  { unfold save_data. split; [|intros Hx; now contradiction Hx].
    intros _. cbn [snd files student_data]. now rewrite E1. }
  apply Hstep. exact E1.
Qed.

Lemma main_menu_files (float_repr : float -> string) (alg : sum_algorithm)
    (fs : filesystem) (inputs : list string) :
  saved_on_exit float_repr fs (main_menu float_repr alg fs inputs).
Proof.
  unfold main_menu.
  destruct (load_data fs _) as [[st lines]|].
  - apply (main_loop_files float_repr alg (S (List.length inputs))
             {| student_data := st; files := fs; stdin := inputs;
                stdout := lines |}).
  - split; [discriminate | reflexivity].
Qed.

(** X10. A run that ends by the exit choice has written the encoding of the
    final [student_data] to the data file, and nothing else; a run that ends
    in any other way (the input ran out) leaves all files as they were:
    nothing is saved before the exit. *)
Theorem main_menu_saves_on_exit (float_repr : float -> string)
    (alg : sum_algorithm) (fs : filesystem) (inputs : list string) :
  let r := main_menu float_repr alg fs inputs in
  (fst r = SystemExit ->
   files (snd r) FILE_NAME =
     Some (json_dumps float_repr (student_data (snd r))) /\
   forall path, path <> FILE_NAME -> files (snd r) path = fs path) /\
  (fst r <> SystemExit -> files (snd r) = fs).
Proof.
  intros r. destruct (main_menu_files float_repr alg fs inputs) as [Hexit Hother].
  fold r in Hexit, Hother. split; [|exact Hother].
  intros He. rewrite (Hexit He). unfold write_file. split.
  - now rewrite String.eqb_refl.
  - intros path Hne. apply String.eqb_neq in Hne. now rewrite Hne.
Qed.

(** X11. A run that ends by the exit choice can be resumed: the next start
    loads the very dictionary the run ended with, provided [repr] prints
    each of its finite grades as a numeral that reads back. *)
Theorem main_menu_restart (float_repr : float -> string) (alg : sum_algorithm)
    (fs : filesystem) (inputs : list string) (st0 : Store) :
  let r := main_menu float_repr alg fs inputs in
  fst r = SystemExit ->
  all_scores (printable float_repr) (student_data (snd r)) ->
  load_data (files (snd r)) st0 =
    Some (student_data (snd r),
          ["Data loaded successfully from student_grades.json."]).
Proof.
  intros r He Hok.
  destruct (main_menu_files float_repr alg fs inputs) as [Hexit _].
  fold r in Hexit. rewrite (Hexit He).
  unfold load_data, write_file. rewrite String.eqb_refl.
  rewrite (json_loads_dumps float_repr (student_data (snd r))).
  - now rewrite store_of_json_of_store.
  - apply wf_store_main_menu.
  - exact Hok.
Qed.

(** ** The delete menu only deletes *)

Lemma within_refl (st : Store) : within st st.
Proof. split; auto. Qed.

Lemma within_trans (st1 st2 st3 : Store) :
  within st1 st2 -> within st2 st3 -> within st1 st3.
Proof. intros [A1 B1] [A2 B2]. split; auto. Qed.

Lemma within_delete_student (st : Store) (name : string) :
  wf_store st -> within (fst (delete_student st name)) st.
Proof.
  intros [Hwf _]. unfold delete_student.
  destruct (dict_mem st name); [|apply within_refl]. cbn [fst]. split.
  - intros n. unfold dict_mem.
    destruct (dict_get (dict_del st name) n) as [v|] eqn:E; [|discriminate].
    now rewrite (dict_get_del_sub st name n v Hwf E).
  - intros n s g. unfold lookup_grade.
    destruct (dict_get (dict_del st name) n) as [v|] eqn:E; [|discriminate].
    now rewrite (dict_get_del_sub st name n v Hwf E).
Qed.

Lemma within_delete_grade (st : Store) (name subject : string) :
  wf_store st -> within (fst (delete_grade st name subject)) st.
Proof.
  intros [Hwf Hin]. unfold delete_grade.
  destruct (dict_get st name) as [gs|] eqn:Hgs; [|apply within_refl].
  destruct (dict_mem gs subject); [|apply within_refl]. cbn [fst].
  assert (Hgswf : wf_dict gs) by apply (Forall_dict_get _ st name gs Hin Hgs).
  split.
  - intros n. rewrite dict_mem_set.
    destruct (String.eqb_spec name n) as [<- | Hne]; [|now cbn [orb]].
    intros _. apply dict_mem_get. eauto.
  - intros n s g. unfold lookup_grade.
    destruct (String.eqb_spec name n) as [<- | Hne].
    + rewrite dict_get_set_same, Hgs. now apply dict_get_del_sub.
    + now rewrite dict_get_set_other.
Qed.

(** X12. The delete menu only deletes and never saves: however it is
    driven, every student and every grade it leaves was there, with the same
    score, when it was entered, and the files are as they were. *)
Theorem delete_menu_only_deletes (fuel : nat) (w : world) :
  wf_store (student_data w) ->
  let w' := world_of (delete_menu fuel w) in
  within (student_data w') (student_data w) /\
  files w' = files w.
Proof.
  intros Hwf w'. split; [|apply delete_menu_files].
  assert (H : holds_in (fun st => wf_store st /\ within st (student_data w)) w').
  { apply delete_menu_holds.
    - intros st name [H1 H2]. split; [now apply wf_store_delete_student|].
      eapply within_trans; [now apply within_delete_student | exact H2].
    - intros st name subject [H1 H2]. split; [now apply wf_store_delete_grade|].
      eapply within_trans; [now apply within_delete_grade | exact H2].
    - split; [exact Hwf | apply within_refl]. }
  exact (proj2 H).
Qed.

(** ** Starting from a blank data file *)

(** X13. A data file that is empty, or holds only spaces, tabs and line
    ends, is handled as undecodable: the run starts with no students and a
    warning, whatever [student_data] held. *)
Theorem load_data_blank_file (fs : filesystem) (text : string) (st0 : Store) :
  fs FILE_NAME = Some text ->
  skip_ws text = EmptyString ->
  load_data fs st0 =
    Some ([], ["Warning: Could not decode data file. Starting with empty records."]).
Proof.
  intros Hfile Hblank. unfold load_data, json_loads.
  rewrite Hfile, Hblank, Nat.add_comm. reflexivity.
Qed.

(** ** The further statements at concrete inputs *)

Lemma delete_student_spec_witness :
  delete_student two_grades "B" =
    (two_grades, ["Error: Student 'B' not found."]) /\
  snd (delete_student two_grades "A") = ["Successfully deleted student: A."] /\
  dict_get (fst (delete_student two_grades "A")) "A" = None /\
  keys (fst (delete_student two_grades "A")) = [].
Proof.
  split.
  - apply (proj1 (delete_student_spec two_grades "B")). reflexivity.
  - destruct (proj2 (delete_student_spec two_grades "A") eq_refl
                (proj1 wf_store_two_grades)) as [H1 [H2 [_ [_ H5]]]].
    split; [exact H1|]. split; [exact H2 | exact H5].
Defined.

Lemma delete_student_then_queries_witness :
  dict_mem two_grades "A" = true /\
  wf_dict two_grades /\
  calculate_average_grade LeftToRight (fst (delete_student two_grades "A")) "A" =
    PStr "N/A" /\
  view_student_report py_repr LeftToRight (fst (delete_student two_grades "A")) "A" =
    ["Error: A not found."].
Proof.
  split; [reflexivity|]. split; [exact (proj1 wf_store_two_grades)|].
  destruct (delete_student_then_queries py_repr LeftToRight two_grades "A"
              eq_refl (proj1 wf_store_two_grades)) as [H1 [H2 _]].
  split; [exact H1 | exact H2].
Defined.

Lemma add_student_delete_student_witness :
  dict_mem two_grades "B" = false /\
  delete_student (fst (add_student two_grades "B")) "B" =
    (two_grades, ["Successfully deleted student: B."]).
Proof.
  split; [reflexivity|].
  apply (add_student_delete_student two_grades "B"). reflexivity.
Defined.

Lemma add_grade_delete_grade_witness :
  dict_mem two_grades "A" = true /\
  lookup_grade two_grades "A" "History" = None /\
  py_float "70" = Some (float_of_Z 70) /\
  in_range (float_of_Z 70) = true /\
  delete_grade (fst (add_grade py_repr two_grades "A" "History" "70")) "A" "History" =
    (two_grades, ["Successfully deleted grade for A in History."]).
Proof.
  do 2 (split; [reflexivity|]).
  do 2 (split; [vm_compute; reflexivity|]).
  apply (add_grade_delete_grade py_repr two_grades "A" "History" "70" (float_of_Z 70));
    [reflexivity | reflexivity | vm_compute; reflexivity | vm_compute; reflexivity].
Defined.

Lemma add_grade_last_write_wins_witness :
  dict_mem two_grades "A" = true /\
  py_float "70" = Some (float_of_Z 70) /\ in_range (float_of_Z 70) = true /\
  py_float "95.5" = Some (float_of_decimal false 955 3 (-1)) /\
  in_range (float_of_decimal false 955 3 (-1)) = true /\
  fst (add_grade py_repr (fst (add_grade py_repr two_grades "A" "Math" "70"))
         "A" "Math" "95.5") =
    fst (add_grade py_repr two_grades "A" "Math" "95.5").
Proof.
  split; [reflexivity|].
  do 4 (split; [vm_compute; reflexivity|]).
  apply (add_grade_last_write_wins py_repr two_grades "A" "Math" "70" "95.5"
           (float_of_Z 70) (float_of_decimal false 955 3 (-1)));
    [reflexivity | vm_compute; reflexivity | vm_compute; reflexivity
    | vm_compute; reflexivity | vm_compute; reflexivity].
Defined.

Lemma other_student_untouched_witness :
  "B" <> "A" /\
  calculate_average_grade LeftToRight
    (fst (add_grade py_repr (fst (add_student two_grades "B")) "B" "Math" "10")) "A" =
    calculate_average_grade LeftToRight (fst (add_student two_grades "B")) "A" /\
  view_student_report py_repr LeftToRight (fst (delete_student two_grades "B")) "A" =
    view_student_report py_repr LeftToRight two_grades "A".
Proof.
  assert (Hne : "B" <> "A") by discriminate.
  split; [exact Hne|]. split.
  - pose proof (other_student_untouched py_repr LeftToRight
                  (fst (add_student two_grades "B")) "A" "B" "Math" "10" Hne) as H.
    exact (proj1 (Forall_inv (Forall_inv_tail H))).
  - pose proof (other_student_untouched py_repr LeftToRight
                  two_grades "A" "B" "Math" "10" Hne) as H.
    exact (proj2 (Forall_inv (Forall_inv_tail (Forall_inv_tail H)))).
Defined.

Lemma class_average_unchanged_witness :
  "Science" <> "Math" /\
  calculate_class_subject_average
    (fst (add_grade py_repr two_grades "A" "Science" "10")) "Math" =
    calculate_class_subject_average two_grades "Math" /\
  calculate_class_subject_average (fst (delete_grade two_grades "A" "Science")) "Math" =
    calculate_class_subject_average two_grades "Math".
Proof.
  assert (Hne : "Science" <> "Math") by discriminate.
  split; [exact Hne|].
  exact (proj2 (class_average_unchanged py_repr two_grades "A" "Math" "Science" "10")
           Hne).
Defined.

Lemma main_menu_saves_on_exit_witness :
  fst (main_menu py_repr LeftToRight no_files ["1"; "B"; "7"]) = SystemExit /\
  files (snd (main_menu py_repr LeftToRight no_files ["1"; "B"; "7"])) FILE_NAME =
    Some (json_dumps py_repr
            (student_data (snd (main_menu py_repr LeftToRight no_files ["1"; "B"; "7"])))) /\
  fst (main_menu py_repr LeftToRight no_files ["1"; "B"]) = EOFError /\
  files (snd (main_menu py_repr LeftToRight no_files ["1"; "B"])) = no_files.
Proof.
  assert (H1 : fst (main_menu py_repr LeftToRight no_files ["1"; "B"; "7"]) = SystemExit)
    by (vm_compute; reflexivity).
  assert (H2 : fst (main_menu py_repr LeftToRight no_files ["1"; "B"]) = EOFError)
    by (vm_compute; reflexivity).
  split; [exact H1|]. split.
  - exact (proj1 (proj1 (main_menu_saves_on_exit py_repr LeftToRight no_files
                           ["1"; "B"; "7"]) H1)).
  - split; [exact H2|].
    apply (proj2 (main_menu_saves_on_exit py_repr LeftToRight no_files ["1"; "B"])).
    rewrite H2. discriminate.
Defined.

Lemma main_menu_restart_witness :
  fst (main_menu py_repr LeftToRight no_files
         ["1"; "B"; "2"; "B"; "Math"; "75"; "7"]) = SystemExit /\
  student_data (snd (main_menu py_repr LeftToRight no_files
                       ["1"; "B"; "2"; "B"; "Math"; "75"; "7"])) =
    [("B", [("Math", float_of_Z 75)])] /\
  load_data (files (snd (main_menu py_repr LeftToRight no_files
                           ["1"; "B"; "2"; "B"; "Math"; "75"; "7"]))) [] =
    Some (student_data (snd (main_menu py_repr LeftToRight no_files
                               ["1"; "B"; "2"; "B"; "Math"; "75"; "7"])),
          ["Data loaded successfully from student_grades.json."]).
Proof.
  assert (H1 : fst (main_menu py_repr LeftToRight no_files
                      ["1"; "B"; "2"; "B"; "Math"; "75"; "7"]) = SystemExit)
    by (vm_compute; reflexivity).
  assert (H2 : student_data (snd (main_menu py_repr LeftToRight no_files
                                    ["1"; "B"; "2"; "B"; "Math"; "75"; "7"])) =
               [("B", [("Math", float_of_Z 75)])])
    by (vm_compute; reflexivity).
  split; [exact H1|]. split; [exact H2|].
  apply (main_menu_restart py_repr LeftToRight no_files
           ["1"; "B"; "2"; "B"; "Math"; "75"; "7"] [] H1).
  rewrite H2. repeat constructor.
  intros _. apply (py_repr_reads_back_whole 75). lia.
Defined.

Lemma delete_menu_only_deletes_witness :
  wf_store two_grades /\
  within
    (student_data
       (world_of (delete_menu 3
          {| student_data := two_grades; files := no_files;
             stdin := ["2"; "A"; "Math"; "3"]; stdout := [] |})))
    two_grades /\
  lookup_grade
    (student_data
       (world_of (delete_menu 3
          {| student_data := two_grades; files := no_files;
             stdin := ["2"; "A"; "Math"; "3"]; stdout := [] |})))
    "A" "Math" = None.
Proof.
  split; [exact wf_store_two_grades|]. split; [|reflexivity].
  exact (proj1 (delete_menu_only_deletes 3
                  {| student_data := two_grades; files := no_files;
                     stdin := ["2"; "A"; "Math"; "3"]; stdout := [] |}
                  wf_store_two_grades)).
Defined.

Lemma load_data_blank_file_witness :
  write_file no_files FILE_NAME ("  " ++ nl) FILE_NAME = Some ("  " ++ nl) /\
  skip_ws ("  " ++ nl) = EmptyString /\
  load_data (write_file no_files FILE_NAME ("  " ++ nl)) two_grades =
    Some ([], ["Warning: Could not decode data file. Starting with empty records."]).
Proof.
  do 2 (split; [reflexivity|]).
  apply (load_data_blank_file (write_file no_files FILE_NAME ("  " ++ nl))
           ("  " ++ nl) two_grades); reflexivity.
Defined.
